(** * Digital Wellbeing Tracker: session ledger, analytics, import and export

    A shallow embedding of [digital_wellbeing_app.py], a Streamlit script,
    with the parts of Python's [datetime] and of pandas that it calls, and
    the properties of its session ledger.

    Conventions of the embedding.
    - A Python [float] is an exact rational ([Q]); [round(x, 2)] rounds the
      exact value half-to-even to a multiple of 1/100.
    - A Python [str] is a [string] of code points below 256.
    - A timestamp text has the layout [YYYY-MM-DD HH:MM:SS] that the script
      writes with [strftime]; instants are naive, as in the script.
    - A pandas frame is its list of column names and its list of rows of
      values; the index is not kept ([ignore_index=True], [index=False]).
    - The Streamlit session state is threaded through the blocks of the
      script; one rerun of the script is one call of [App.script] on the
      values of the widgets.  An exception ends the rerun and leaves the
      session state as it was changed so far.
    - A CSV file is the table of its fields: quoting, line terminators and
      the UTF-8 layer are not modelled.
    - [Unmodelled] marks the inputs on which the embedding does not say what
      pandas does (a timestamp text in another layout, an infinity in a
      numeric column, column names that [read_csv] rewrites, ...). *)

From Stdlib Require Import ZArith QArith Qround Qabs List String Ascii Bool.
From Stdlib Require Import Lia Lqa Permutation.
Import ListNotations.

Local Open Scope string_scope.
Local Open Scope Z_scope.

(* ------------------------------------------------------------------ *)
(** ** Python strings *)

Module Py.

(** [str.isspace] on one code point below 256. *)
Definition isspace (c : ascii) : bool :=
  let n := N_of_ascii c in
  ((9 <=? n) && (n <=? 13) || (28 <=? n) && (n <=? 32)
   || (n =? 133) || (n =? 160))%N.

Fixpoint lstrip (s : string) : string :=
  match s with
  | String c r => if isspace c then lstrip r else s
  | EmptyString => EmptyString
  end.

Fixpoint rstrip (s : string) : string :=
  match s with
  | String c r =>
      match rstrip r with
      | EmptyString => if isspace c then EmptyString else String c EmptyString
      | r' => String c r'
      end
  | EmptyString => EmptyString
  end.

(** [s.strip()] *)
Definition strip (s : string) : string := rstrip (lstrip s).

(** Truth value of a string: non-empty. *)
Definition truthy (s : string) : bool :=
  match s with EmptyString => false | _ => true end.

Definition isdigit (c : ascii) : bool :=
  let n := N_of_ascii c in ((48 <=? n) && (n <=? 57))%N.

Definition digit_val (c : ascii) : Z := Z.of_N (N_of_ascii c) - 48.

Definition digit_chr (d : Z) : ascii := ascii_of_N (Z.to_N (48 + d)).

(** Value of a run of decimal digits, most significant first. *)
Fixpoint digits_val (acc : Z) (l : list ascii) : Z :=
  match l with
  | [] => acc
  | c :: r => digits_val (10 * acc + digit_val c) r
  end.

End Py.

(* ------------------------------------------------------------------ *)
(** ** datetime: the proleptic Gregorian calendar of Python's [datetime] *)

Module Datetime.

Record date := mkdate { dyear : Z; dmonth : Z; dday : Z }.

Record datetime := mkdt {
  year : Z; month : Z; day : Z;
  hour : Z; minute : Z; second : Z; microsecond : Z }.

(** [_is_leap] *)
Definition is_leap (y : Z) : bool :=
  (y mod 4 =? 0) && (negb (y mod 100 =? 0) || (y mod 400 =? 0)).

(** [_days_before_year] *)
Definition days_before_year (y : Z) : Z :=
  let p := y - 1 in p * 365 + p / 4 - p / 100 + p / 400.

(** [_DAYS_IN_MONTH] and [_days_in_month] *)
Definition days_in_month (y m : Z) : Z :=
  if (m =? 2) && is_leap y then 29
  else nth (Z.to_nat m) [0; 31; 28; 31; 30; 31; 30; 31; 31; 30; 31; 30; 31] 0.

(** [_DAYS_BEFORE_MONTH] and [_days_before_month] *)
Definition days_before_month (y m : Z) : Z :=
  nth (Z.to_nat m) [0; 0; 31; 59; 90; 120; 151; 181; 212; 243; 273; 304; 334] 0
  + (if (2 <? m) && is_leap y then 1 else 0).

(** [_ymd2ord]: 0001-01-01 is day 1. *)
Definition ymd2ord (y m d : Z) : Z :=
  days_before_year y + days_before_month y m + d.

Definition toordinal (t : datetime) : Z := ymd2ord (year t) (month t) (day t).

(** Seconds from 0001-01-01 00:00:00, whole seconds only. *)
Definition to_seconds (t : datetime) : Z :=
  ((toordinal t - 1) * 24 + hour t) * 3600 + minute t * 60 + second t.

(** Microseconds from 0001-01-01 00:00:00. *)
Definition to_micros (t : datetime) : Z :=
  to_seconds t * 1000000 + microsecond t.

(** [(b - a).total_seconds()] *)
Definition total_seconds (b a : datetime) : Q :=
  (to_micros b - to_micros a) # 1000000.

(** Comparison of naive datetimes: the tuples of fields, lexicographically. *)
Fixpoint lex_compare (a b : list Z) : comparison :=
  match a, b with
  | x :: a', y :: b' =>
      match x ?= y with Eq => lex_compare a' b' | c => c end
  | [], [] => Eq
  | [], _ => Lt
  | _, [] => Gt
  end.

Definition fields (t : datetime) : list Z :=
  [year t; month t; day t; hour t; minute t; second t; microsecond t].

Definition compare (a b : datetime) : comparison :=
  lex_compare (fields a) (fields b).

(** [a <= b] *)
Definition leb (a b : datetime) : bool :=
  match compare a b with Gt => false | _ => true end.

(** [t.date()] *)
Definition date_of (t : datetime) : date := mkdate (year t) (month t) (day t).

Definition date_compare (a b : date) : comparison :=
  lex_compare [dyear a; dmonth a; dday a] [dyear b; dmonth b; dday b].

Definition date_leb (a b : date) : bool :=
  match date_compare a b with Gt => false | _ => true end.

Definition date_eqb (a b : date) : bool :=
  match date_compare a b with Eq => true | _ => false end.

(** Zero-padded decimal fields of [strftime]. *)
Definition pad2 (n : Z) : string :=
  String (Py.digit_chr (n / 10 mod 10)) (String (Py.digit_chr (n mod 10)) "").

Definition pad4 (n : Z) : string :=
  String (Py.digit_chr (n / 1000 mod 10))
    (String (Py.digit_chr (n / 100 mod 10)) (pad2 n)).

(** [d.strftime("%Y-%m-%d")], years 1000 to 9999. *)
Definition strftime_date (y m d : Z) : string :=
  (pad4 y ++ "-" ++ pad2 m ++ "-" ++ pad2 d)%string.

(** [t.strftime("%Y-%m-%d %H:%M:%S")]: the microseconds are dropped. *)
Definition strftime (t : datetime) : string :=
  (strftime_date (year t) (month t) (day t) ++ " "
   ++ pad2 (hour t) ++ ":" ++ pad2 (minute t) ++ ":" ++ pad2 (second t))%string.

(** Field ranges that [datetime] and the timestamp parser enforce. *)
Definition valid (t : datetime) : bool :=
  (1 <=? year t) && (year t <=? 9999)
  && (1 <=? month t) && (month t <=? 12)
  && (1 <=? day t) && (day t <=? days_in_month (year t) (month t))
  && (0 <=? hour t) && (hour t <? 24)
  && (0 <=? minute t) && (minute t <? 60)
  && (0 <=? second t) && (second t <? 60)
  && (0 <=? microsecond t) && (microsecond t <? 1000000).

(** The timestamp parser on a text [YYYY-MM-DD HH:MM:SS], the only layout the
    script writes.  [None]: the text has another layout or names no instant. *)
Definition strptime (s : string) : option datetime :=
  match list_ascii_of_string s with
  | [y1; y2; y3; y4; s1; m1; m2; s2; d1; d2; s3;
     h1; h2; s4; n1; n2; s5; c1; c2] =>
      if forallb Py.isdigit [y1; y2; y3; y4; m1; m2; d1; d2; h1; h2; n1; n2; c1; c2]
         && (s1 =? "-")%char && (s2 =? "-")%char && (s3 =? " ")%char
         && (s4 =? ":")%char && (s5 =? ":")%char
      then
        let t := mkdt (Py.digits_val 0 [y1; y2; y3; y4])
                      (Py.digits_val 0 [m1; m2]) (Py.digits_val 0 [d1; d2])
                      (Py.digits_val 0 [h1; h2]) (Py.digits_val 0 [n1; n2])
                      (Py.digits_val 0 [c1; c2]) 0 in
        if valid t then Some t else None
      else None
  | _ => None
  end.

End Datetime.

(* ------------------------------------------------------------------ *)
(** ** pandas: cells, frames, and the operations the script uses *)

Module Pandas.

Import Datetime.

(** Exceptions.  [Unmodelled] is not a Python exception: the embedding stops
    there because it does not describe what pandas does on that input. *)
Inductive exn :=
| EmptyDataError
| ParserError
| KeyError (col : string)
| TypeError
| Unmodelled.

Definition result (A : Type) : Type := (exn + A)%type.

Definition ret {A} (a : A) : result A := inr a.
Definition raise {A} (e : exn) : result A := inl e.

Definition rbind {A B} (m : result A) (f : A -> result B) : result B :=
  match m with inl e => inl e | inr a => f a end.

Fixpoint rmap {A B} (f : A -> result B) (l : list A) : result (list B) :=
  match l with
  | [] => ret []
  | a :: r => rbind (f a) (fun b => rbind (rmap f r) (fun bs => ret (b :: bs)))
  end.

(** One value of a frame. *)
Inductive cell :=
| Str (s : string)
| Num (x : Q)
| Bool (b : bool)
| Stamp (t : datetime)
| NaN
| NaT.

Definition isna (c : cell) : bool :=
  match c with NaN | NaT => true | _ => false end.

Record DataFrame := mkframe {
  columns : list string;
  rows : list (list cell) }.

(** [pd.DataFrame(columns=cols)] *)
Definition new_frame (cols : list string) : DataFrame := mkframe cols [].

(** [pd.DataFrame([d])] for one dict [d], given as its items in order. *)
Definition from_record (d : list (string * cell)) : DataFrame :=
  mkframe (map fst d) [map snd d].

(** [df.empty]: some axis has length 0. *)
Definition empty (df : DataFrame) : bool :=
  match columns df, rows df with
  | [], _ | _, [] => true
  | _, _ => false
  end.

Fixpoint index_of (c : string) (cols : list string) : option nat :=
  match cols with
  | [] => None
  | x :: r => if String.eqb x c then Some O
              else option_map S (index_of c r)
  end.

Definition has_column (c : string) (cols : list string) : bool :=
  match index_of c cols with Some _ => true | None => false end.

(** The value of a row under a column name; a missing value is [NaN]. *)
Definition at_col (cols : list string) (c : string) (row : list cell) : cell :=
  match index_of c cols with
  | Some i => nth i row NaN
  | None => NaN
  end.

(** [df[c]] *)
Definition getitem (df : DataFrame) (c : string) : result (list cell) :=
  if has_column c (columns df)
  then ret (map (at_col (columns df) c) (rows df))
  else raise (KeyError c).

(** Rows laid out under another list of columns; absent values are [NaN]
    (pandas writes [NaT] in a datetime column; the two are read alike by
    everything below). *)
Definition reindex (cols' cols : list string) (row : list cell) : list cell :=
  map (fun c => at_col cols c row) cols'.

(** [pd.concat([a, b], ignore_index=True)]: the columns of [a], then those
    of [b] that [a] lacks; the rows of [a], then those of [b]. *)
Definition concat (a b : DataFrame) : DataFrame :=
  let cols := (columns a
               ++ filter (fun c => negb (has_column c (columns a))) (columns b))%list in
  mkframe cols
    (map (reindex cols (columns a)) (rows a)
     ++ map (reindex cols (columns b)) (rows b))%list.

Fixpoint replace_nth (i : nat) (v : cell) (row : list cell) : list cell :=
  match i, row with
  | O, _ :: r => v :: r
  | S i', x :: r => x :: replace_nth i' v r
  | _, [] => []
  end.

(** [df[c] = values], one value per row: replaces the column when the frame
    has it, appends it as the last column otherwise. *)
Definition setitem (df : DataFrame) (c : string) (values : list cell) : DataFrame :=
  match index_of c (columns df) with
  | Some i =>
      mkframe (columns df)
              (map (fun rv => replace_nth i (snd rv) (fst rv))
                   (combine (rows df) values))
  | None =>
      mkframe (columns df ++ [c])%list
              (map (fun rv => fst rv ++ [snd rv])%list
                   (combine (rows df) values))
  end.

(** [df.loc[mask]] and [df[mask]] for a boolean mask, one flag per row. *)
Definition loc (df : DataFrame) (mask : list bool) : DataFrame :=
  mkframe (columns df)
          (map fst (filter snd (combine (rows df) mask))).

(** [pd.to_datetime] on one text. *)
Definition to_datetime (s : string) : result datetime :=
  match strptime s with
  | Some t => ret t
  | None => raise Unmodelled
  end.

(** [pd.to_datetime] on a column. *)
Definition to_datetime_cell (c : cell) : result cell :=
  match c with
  | Str s => rbind (to_datetime s) (fun t => ret (Stamp t))
  | Stamp t => ret (Stamp t)
  | NaN | NaT => ret NaT
  | Num _ | Bool _ => raise Unmodelled
  end.

Definition to_datetime_col (l : list cell) : result (list cell) :=
  rmap to_datetime_cell l.

(** [s.dt.date], on a column made by [to_datetime_col]. *)
Definition dt_date (c : cell) : option date :=
  match c with Stamp t => Some (date_of t) | _ => None end.

(** Comparisons of a date column with a date; a missing date compares false. *)
Definition date_ge (d : date) (c : cell) : bool :=
  match dt_date c with Some x => date_leb d x | None => false end.

Definition date_le (d : date) (c : cell) : bool :=
  match dt_date c with Some x => date_leb x d | None => false end.

Definition date_eq (d : date) (c : cell) : bool :=
  match dt_date c with Some x => date_eqb x d | None => false end.

(** Smallest and largest instant of a datetime column, missing ones skipped. *)
Fixpoint stamp_min (l : list cell) : option datetime :=
  match l with
  | [] => None
  | Stamp t :: r =>
      match stamp_min r with
      | Some u => Some (if leb t u then t else u)
      | None => Some t
      end
  | _ :: r => stamp_min r
  end.

Fixpoint stamp_max (l : list cell) : option datetime :=
  match l with
  | [] => None
  | Stamp t :: r =>
      match stamp_max r with
      | Some u => Some (if leb u t then t else u)
      | None => Some t
      end
  | _ :: r => stamp_max r
  end.

(** What a cell adds to [s.sum()]: missing values are skipped, a flag counts
    as 0 or 1, text and instants cannot be summed to a number. *)
Definition summand (c : cell) : result Q :=
  match c with
  | Num x => ret x
  | Bool b => ret (if b then 1 else 0)%Q
  | NaN | NaT => ret 0%Q
  | Str _ | Stamp _ => raise TypeError
  end.

(** [s.sum()] *)
Fixpoint sum (l : list cell) : result Q :=
  match l with
  | [] => ret 0%Q
  | c :: r => rbind (summand c) (fun x => rbind (sum r) (fun y => ret (x + y)%Q))
  end.

(** Equality of group keys. *)
Definition key_eqb (a b : cell) : bool :=
  match a, b with
  | Str s, Str t => String.eqb s t
  | Num x, Num y => Qeq_bool x y
  | Bool x, Bool y => Bool.eqb x y
  | Bool x, Num y | Num y, Bool x => Qeq_bool (if x then 1 else 0) y
  | Stamp t, Stamp u => match compare t u with Eq => true | _ => false end
  | _, _ => false
  end.

Fixpoint add_to_group (k : cell) (v : Q) (g : list (cell * Q)) : list (cell * Q) :=
  match g with
  | [] => [(k, v)]
  | (k', s) :: g' =>
      if key_eqb k' k then (k', (s + v)%Q) :: g'
      else (k', s) :: add_to_group k v g'
  end.

(** [df.groupby(key)[val].sum()] on the two columns, row by row: a row whose
    key is missing is dropped; one running total per distinct key. *)
Fixpoint groupby_acc (g : list (cell * Q)) (kv : list (cell * cell))
  : result (list (cell * Q)) :=
  match kv with
  | [] => ret g
  | (k, v) :: r =>
      if isna k then groupby_acc g r
      else rbind (summand v) (fun x => groupby_acc (add_to_group k x g) r)
  end.

Definition groupby_sum (kv : list (cell * cell)) : result (list (cell * Q)) :=
  groupby_acc [] kv.

Fixpoint insert_desc (p : cell * Q) (l : list (cell * Q)) : list (cell * Q) :=
  match l with
  | [] => [p]
  | q :: r => if Qle_bool (snd q) (snd p) then p :: l else q :: insert_desc p r
  end.

(** [s.sort_values(ascending=False)].  pandas does not fix the order among
    equal totals; this sort keeps them in the order they come in. *)
Definition sort_values_desc (l : list (cell * Q)) : list (cell * Q) :=
  fold_right insert_desc [] l.

(** *** CSV files

    A file is the list of its lines, a line the list of its fields. *)

Inductive field :=
| Text (s : string)
| Number (x : Q).   (* the literal that [to_csv] writes for the float [x] *)

Definition csv := list (list field).

(** [STR_NA_VALUES]: the texts that [read_csv] takes for a missing value. *)
Definition na_values : list string :=
  [""; "#N/A"; "#N/A N/A"; "#NA"; "-1.#IND"; "-1.#QNAN"; "-NaN"; "-nan";
   "1.#IND"; "1.#QNAN"; "<NA>"; "N/A"; "NA"; "NULL"; "NaN"; "None";
   "n/a"; "nan"; "null"].

Definition is_na_text (s : string) : bool :=
  existsb (String.eqb s) na_values.

(** C [isspace] on ASCII. *)
Definition c_isspace (c : ascii) : bool :=
  let n := N_of_ascii c in ((9 <=? n) && (n <=? 13) || (n =? 32))%N.

Fixpoint skip_space (l : list ascii) : list ascii :=
  match l with
  | c :: r => if c_isspace c then skip_space r else l
  | [] => []
  end.

Fixpoint take_digits (l : list ascii) : list ascii * list ascii :=
  match l with
  | c :: r => if Py.isdigit c
              then let (d, t) := take_digits r in (c :: d, t)
              else ([], l)
  | [] => ([], [])
  end.

Definition take_sign (l : list ascii) : bool * list ascii :=
  match l with
  | c :: r => if (c =? "-")%char then (true, r)
              else if (c =? "+")%char then (false, r)
              else (false, l)
  | [] => (false, [])
  end.

Definition pow10 (e : Z) : Q :=
  if 0 <=? e then inject_Z (10 ^ e) else 1 # Z.to_pos (10 ^ (- e)).

(** The number a text denotes for the tokenizer's converters: blanks, a sign,
    digits with at most one point and at least one digit, an exponent
    [e] or [E] with its own sign and digits, blanks. *)
Definition number_of_text (s : string) : option Q :=
  let (neg, l1) := take_sign (skip_space (list_ascii_of_string s)) in
  let (ip, l2) := take_digits l1 in
  let (fp, l3) := match l2 with
                  | c :: r => if (c =? ".")%char then take_digits r else ([], l2)
                  | [] => ([], [])
                  end in
  match (ip ++ fp)%list with
  | [] => None
  | ds =>
      let m := Py.digits_val 0 ds in
      let (ex, l4) :=
        match l3 with
        | c :: r =>
            if (c =? "e")%char || (c =? "E")%char then
              let (eneg, r1) := take_sign r in
              let (ed, r2) := take_digits r1 in
              match ed with
              | [] => (0, l3)
              | _ => (if eneg then - Py.digits_val 0 ed else Py.digits_val 0 ed, r2)
              end
            else (0, l3)
        | [] => (0, [])
        end in
      match skip_space l4 with
      | [] => Some (inject_Z (if neg then - m else m)
                    * pow10 (ex - Z.of_nat (List.length fp)))%Q
      | _ => None
      end
  end.

Definition lower (c : ascii) : ascii :=
  let n := N_of_ascii c in
  if ((65 <=? n) && (n <=? 90))%N then ascii_of_N (n + 32) else c.

Fixpoint lower_str (s : string) : string :=
  match s with
  | String c r => String (lower c) (lower_str r)
  | EmptyString => EmptyString
  end.

Definition is_inf_text (s : string) : bool :=
  existsb (String.eqb (lower_str s))
          ["inf"; "+inf"; "-inf"; "infinity"; "+infinity"; "-infinity"].

Definition bool_of_text (s : string) : option bool :=
  if existsb (String.eqb s) ["True"; "TRUE"; "true"] then Some true
  else if existsb (String.eqb s) ["False"; "FALSE"; "false"] then Some false
  else None.

(** What [read_csv] takes one field for. *)
Inductive lexeme :=
| LNa
| LNum (x : Q)
| LInf
| LBool (b : bool)
| LText.

Definition lex_text (s : string) : lexeme :=
  if is_na_text s then LNa
  else match number_of_text s with
       | Some x => LNum x
       | None =>
           if is_inf_text s then LInf
           else match bool_of_text s with
                | Some b => LBool b
                | None => LText
                end
       end.

Definition lex (f : field) : lexeme :=
  match f with
  | Text s => lex_text s
  | Number x => LNum x
  end.

(** The dtype [read_csv] gives a column. *)
Inductive kind := KNum | KBool | KText.

Definition is_text_field (f : field) : bool :=
  match f with Text _ => true | Number _ => false end.

(** Numbers first, then flags, then text; missing values fit every kind.
    Not modelled: a numeric column with an infinity, and a text column that
    holds a float literal of [to_csv] (its digits are not in the model). *)
Definition column_kind (col : list field) : result kind :=
  let ls := map lex col in
  if forallb (fun l => match l with LNa | LNum _ => true | _ => false end) ls
  then ret KNum
  else if forallb (fun l => match l with LNa | LNum _ | LInf => true | _ => false end) ls
  then raise Unmodelled
  else if forallb (fun l => match l with LNa | LBool _ => true | _ => false end) ls
  then ret KBool
  else if forallb is_text_field col then ret KText
  else raise Unmodelled.

Definition convert (k : kind) (f : field) : cell :=
  match lex f, k, f with
  | LNa, _, _ => NaN
  | LNum x, KNum, _ => Num x
  | LBool b, KBool, _ => Bool b
  | _, _, Text s => Str s
  | _, _, Number x => Num x
  end.

Definition blank (line : list field) : bool :=
  match line with [] => true | _ => false end.

Definition header_name (f : field) : result string :=
  match f with
  | Text EmptyString => raise Unmodelled
  | Text s => ret s
  | Number _ => raise Unmodelled
  end.

Fixpoint distinct (l : list string) : bool :=
  match l with
  | [] => true
  | x :: r => negb (existsb (String.eqb x) r) && distinct r
  end.

Definition pad (n : nat) (line : list field) : list field :=
  (line ++ repeat (Text "") (n - List.length line))%list.

(** [pd.read_csv(file)]: the first line that is not blank names the columns;
    a shorter line is filled with missing values; a longer line is a parse
    error.  Not modelled: names that [read_csv] would rewrite (empty or
    repeated), and a first data line longer than the header, which pandas
    reads as carrying an index. *)
Definition read_csv (file : csv) : result DataFrame :=
  match filter (fun l => negb (blank l)) file with
  | [] => raise EmptyDataError
  | header :: data =>
      rbind (rmap header_name header) (fun names =>
      if negb (distinct names) then raise Unmodelled else
      let h := List.length names in
      match data with
      | first :: _ =>
          if (h <? List.length first)%nat then raise Unmodelled
          else if existsb (fun l => (h <? List.length l)%nat) data
          then raise ParserError
          else
            let table := map (pad h) data in
            rbind (rmap (fun j => column_kind (map (fun l => nth j l (Text "")) table))
                        (seq 0 h)) (fun kinds =>
            ret (mkframe names
                   (map (fun l => map (fun kf => convert (fst kf) (snd kf))
                                      (combine kinds l)) table)))
      | [] => ret (mkframe names [])
      end)
  end.

(** A column of dtype datetime64 all of whose instants are at midnight is
    written as dates by [to_csv]. *)
Definition dates_only (col : list cell) : bool :=
  forallb (fun c => match c with
                    | Stamp t => (hour t =? 0) && (minute t =? 0) && (second t =? 0)
                    | NaT | NaN => true
                    | _ => false
                    end) col.

Definition render (short : bool) (c : cell) : field :=
  match c with
  | Str s => Text s
  | Num x => Number x
  | Bool b => Text (if b then "True" else "False")
  | Stamp t => Text (if short then strftime_date (year t) (month t) (day t)
                     else strftime t)
  | NaN | NaT => Text ""
  end.

(** [df.to_csv(index=False)]: the column names, then one line per row. *)
Definition to_csv (df : DataFrame) : csv :=
  let shorts := map (fun j => dates_only (map (fun r => nth j r NaN) (rows df)))
                    (seq 0 (List.length (columns df))) in
  map Text (columns df)
  :: map (fun r => map (fun sc => render (fst sc) (snd sc)) (combine shorts r))
         (rows df).

(** [df.drop(columns=cs, errors="ignore")] *)
Definition drop_columns (cs : list string) (df : DataFrame) : DataFrame :=
  let keep := filter (fun c => negb (existsb (String.eqb c) cs)) (columns df) in
  mkframe keep (map (reindex keep (columns df)) (rows df)).

(** [s != x] for a text [x], cell by cell. *)
Definition ne_text (x : string) (c : cell) : bool :=
  match c with
  | Str s => negb (String.eqb s x)
  | _ => true
  end.

End Pandas.

(* ------------------------------------------------------------------ *)
(** ** The script *)

Module App.

Import Datetime Pandas.

(** [round(x, 0)] on an exact value: nearest integer, a tie to the even one. *)
Definition round_half_even (x : Q) : Z :=
  let f := Qfloor x in
  match Qcompare (x - inject_Z f) (1 # 2) with
  | Lt => f
  | Gt => f + 1
  | Eq => if Z.even f then f else f + 1
  end.

(** [round(x, 2)] *)
Definition round2 (x : Q) : Q := round_half_even (x * 100) # 100.

(** What the script shows.  The pictograms of the messages are left out and
    numbers are shown as they are, not formatted. *)
Inductive ui :=
| st_error (msg : string)
| st_import_failed (e : exn)
| st_success (msg : string)
| st_warning (msg : string)
| st_info (msg : string)
| st_metric (label : string) (value : Q)
| st_limit_metric (total : Q) (limit : Z)
| st_table (label : string) (t : list (cell * Q))
| st_dataframe (df : DataFrame)
| st_download (data : csv).

(** [st.session_state].  [sessions = None]: the key is not set yet.
    [live = Some t] stands for [live_running = True] with [live_start = t];
    the script reads [live_start] only while [live_running] holds.  The focus
    timer keeps its own two keys and touches nothing else; it is left out. *)
Record session_state := mkstate {
  sessions : option DataFrame;
  live : option datetime;
  daily_limit : Z }.

Definition initial_state : session_state := mkstate None None 240.

(** A step of the script: it may raise, it changes the session state (also
    when it raises later) and it shows things. *)
Definition M (A : Type) : Type :=
  session_state -> result A * session_state * list ui.

Definition pure {A} (a : A) : M A := fun s => (ret a, s, []).

Definition bind {A B} (m : M A) (f : A -> M B) : M B :=
  fun s =>
    match m s with
    | (inl e, s1, o1) => (inl e, s1, o1)
    | (inr a, s1, o1) =>
        match f a s1 with
        | (r, s2, o2) => (r, s2, (o1 ++ o2)%list)
        end
    end.

Definition lift {A} (r : result A) : M A := fun s => (r, s, []).

Definition show (u : ui) : M unit := fun s => (ret tt, s, [u]).

Definition set_sessions (df : DataFrame) : M unit :=
  fun s => (ret tt, mkstate (Some df) (live s) (daily_limit s), []).

Definition set_live (l : option datetime) : M unit :=
  fun s => (ret tt, mkstate (sessions s) l (daily_limit s), []).

Definition set_daily_limit (n : Z) : M unit :=
  fun s => (ret tt, mkstate (sessions s) (live s) n, []).

Definition get_live : M (option datetime) := fun s => (ret (live s), s, []).

Declare Scope app_scope.
Delimit Scope app_scope with app.
Notation "x <- m ;; k" := (bind m (fun x => k))
  (at level 61, m at next level, right associativity) : app_scope.
Notation "m ;; k" := (bind m (fun _ => k))
  (at level 61, right associativity) : app_scope.
Local Open Scope app_scope.

Definition when (b : bool) (m : M unit) : M unit := if b then m else pure tt.

Definition schema : list string :=
  ["id"; "start"; "end"; "app"; "category"; "notes"; "duration_min"].

(** [duration_minutes(start, end)] *)
Definition duration_minutes (start end_ : string) : result Q :=
  rbind (to_datetime end_) (fun te =>
  rbind (to_datetime start) (fun ts =>
  ret (total_seconds te ts / 60)%Q)).

(** [load_sessions()] *)
Definition load_sessions : M DataFrame :=
  fun s =>
    match sessions s with
    | Some df => (ret df, s, [])
    | None =>
        let df := new_frame schema in
        (ret df, mkstate (Some df) (live s) (daily_limit s), [])
    end.

(** [save_sessions(df)]: the state keeps a copy. *)
Definition save_sessions (df : DataFrame) : M unit := set_sessions df.

(** The dict [new] of [add_session], as its items in order. *)
Definition session_record (sid start end_ app category notes : string) (dur : Q)
  : list (string * cell) :=
  [("id", Str sid); ("start", Str start); ("end", Str end_);
   ("app", Str app); ("category", Str category);
   ("notes", Str notes); ("duration_min", Num dur)].

(** [add_session(start, end, app, category, notes)]; [sid] is the text of the
    UUID that [uuid.uuid4()] draws. *)
Definition add_session (sid start end_ app category notes : string) : M unit :=
  df <- load_sessions ;;
  d <- lift (duration_minutes start end_) ;;
  let dur := round2 d in
  let new := session_record sid start end_ app category notes dur in
  save_sessions (concat df (from_record new)).

(** [export_csv(df)] *)
Definition export_csv (df : DataFrame) : csv := to_csv df.

(** The options of the two category boxes. *)
Inductive category := Social | Study | Productivity | Entertainment | Other.

Definition category_name (c : category) : string :=
  match c with
  | Social => "Social"
  | Study => "Study"
  | Productivity => "Productivity"
  | Entertainment => "Entertainment"
  | Other => "Other"
  end.

Inductive button :=
| AddSession | StopLive | StartLive | ExportSessions | DeleteSession.

Definition button_eqb (a b : button) : bool :=
  match a, b with
  | AddSession, AddSession | StopLive, StopLive | StartLive, StartLive
  | ExportSessions, ExportSessions | DeleteSession, DeleteSession => true
  | _, _ => false
  end.

(** What one rerun reads from the page and from its environment; the fields
    carry the names of the script's variables where these are free. *)
Record inputs := mkinputs {
  clicked : option button;           (* the button whose click caused the rerun *)
  app_name : string;
  category_box : category;           (* category *)
  start_time : datetime;
  end_time : datetime;
  notes_area : string;               (* notes *)
  live_app : string;
  live_cat : category;
  date_range : option (date * date); (* None: the range the page proposes *)
  uploaded : option csv;
  limit_box : Z;                     (* daily_limit, as the number box gives it *)
  delete_id : string;
  now : datetime;                    (* datetime.now() *)
  uuid4 : string }.                  (* str(uuid.uuid4()) *)

Definition pressed (i : inputs) (b : button) : bool :=
  match clicked i with Some c => button_eqb c b | None => false end.

(** The "Add Session" button. *)
Definition add_session_button (i : inputs) : M unit :=
  when (pressed i AddSession)
    (if leb (end_time i) (start_time i)
     then show (st_error "End time must be after start time.")
     else
       add_session (uuid4 i) (strftime (start_time i)) (strftime (end_time i))
                   (app_name i) (category_name (category_box i)) (notes_area i) ;;
       show (st_success "Session added successfully!")).

(** The "Live Timer" block. *)
Definition live_timer (i : inputs) : M unit :=
  l <- get_live ;;
  match l with
  | Some t0 =>
      when (pressed i StopLive)
        (set_live None ;;
         add_session (uuid4 i) (strftime t0) (strftime (now i))
                     (live_app i) (category_name (live_cat i)) "Live session" ;;
         show (st_success "Live session stopped and saved."))
  | None =>
      when (pressed i StartLive)
        (set_live (Some (now i)) ;;
         show (st_info "Live tracking started!"))
  end ;;
  l' <- get_live ;;
  match l' with
  | Some t0 => show (st_metric "Live Time (mins)" (total_seconds (now i) t0 / 60)%Q)
  | None => pure tt
  end.

(** The frame that [load_sessions()] returned is the one the state holds, so
    [df[c] = values] changes the stored ledger in place. *)
Definition setitem_in_place (df : DataFrame) (c : string) (values : list cell)
  : M DataFrame :=
  let df' := setitem df c values in
  set_sessions df' ;; pure df'.

Definition midnight (d : date) : datetime :=
  mkdt (dyear d) (dmonth d) (dday d) 0 0 0 0.

Definition date_key (c : cell) : cell :=
  match dt_date c with Some d => Stamp (midnight d) | None => NaT end.

(** The three aggregates of "Usage Analytics" on a frame that carries the two
    helper columns: the total, the totals by app and the totals by category of
    the rows whose start date and end date lie in the range. *)
Definition analytics_view (df : DataFrame) (range : date * date)
  : result DataFrame :=
  rbind (getitem df "start_dt") (fun sd =>
  rbind (getitem df "end_dt") (fun ed =>
  ret (loc df (map (fun p => date_ge (fst range) (fst p)
                             && date_le (snd range) (snd p))
                   (combine sd ed))))).

Definition total_min (view : DataFrame) : result Q :=
  rbind (getitem view "duration_min") sum.

Definition grouped (view : DataFrame) (key : list cell)
  : result (list (cell * Q)) :=
  rbind (getitem view "duration_min") (fun dur =>
  rbind (groupby_sum (combine key dur)) (fun g =>
  ret (sort_values_desc g))).

Definition by_column (view : DataFrame) (c : string) : result (list (cell * Q)) :=
  rbind (getitem view c) (grouped view).

Definition by_app (view : DataFrame) := by_column view "app".
Definition by_cat (view : DataFrame) := by_column view "category".

(** The "Usage Analytics" block. *)
Definition usage_analytics (i : inputs) : M unit :=
  df <- load_sessions ;;
  if empty df
  then show (st_info "No sessions recorded yet. Add one to see analytics.")
  else
    sd <- lift (rbind (getitem df "start") to_datetime_col) ;;
    df1 <- setitem_in_place df "start_dt" sd ;;
    ed <- lift (rbind (getitem df1 "end") to_datetime_col) ;;
    df2 <- setitem_in_place df1 "end_dt" ed ;;
    proposed <- lift (rbind (getitem df2 "start_dt") (fun c1 =>
                      rbind (getitem df2 "end_dt") (fun c2 =>
                      match stamp_min c1, stamp_max c2 with
                      | Some a, Some b => ret (date_of a, date_of b)
                      | _, _ => raise Unmodelled
                      end))) ;;
    let range := match date_range i with Some r => r | None => proposed end in
    view <- lift (analytics_view df2 range) ;;
    total <- lift (total_min view) ;;
    show (st_metric "Total Screen Time (mins)" total) ;;
    apps <- lift (by_app view) ;;
    cats <- lift (by_cat view) ;;
    show (st_table "Top Apps" (firstn 10 apps)) ;;
    show (st_table "Usage by Category" cats) ;;
    days <- lift (rbind (getitem view "start_dt") (fun c =>
                  rbind (getitem view "duration_min") (fun dur =>
                  groupby_sum (combine (map date_key c) dur)))) ;;
    show (st_table "chart" days).

(** The "Import CSV file" uploader.  [except Exception] catches what
    [read_csv] and the rest of the [try] body raise. *)
Definition import_csv (i : inputs) : M unit :=
  match uploaded i with
  | None => pure tt
  | Some file =>
      match read_csv file with
      | inr imp =>
          cur <- load_sessions ;;
          save_sessions (concat cur imp) ;;
          show (st_success "Data imported successfully.")
      | inl Unmodelled => lift (raise Unmodelled)
      | inl e => show (st_import_failed e)
      end
  end.

(** The "Export Sessions as CSV" button. *)
Definition export_button (i : inputs) : M unit :=
  when (pressed i ExportSessions)
    (df <- load_sessions ;;
     if empty df then show (st_warning "No data to export.")
     else show (st_download (export_csv df))).

(** [df.loc[df["start_dt"].dt.date == today, "duration_min"].sum()] *)
Definition today_total (df : DataFrame) (today : date) : result Q :=
  rbind (getitem df "start_dt") (fun sd =>
  rbind (getitem (loc df (map (date_eq today) sd)) "duration_min") sum).

(** The two banners under "Today's Usage". *)
Definition limit_banner (total : Q) (limit : Z) : list ui :=
  if Qle_bool (inject_Z limit) total
  then [st_error "You have exceeded your daily limit!"]
  else if Qle_bool ((8 # 10) * inject_Z limit) total
  then [st_warning "You are close to your daily limit."]
  else [].

(** The "Daily Limit Alert" block. *)
Definition daily_limit_alert (i : inputs) : M unit :=
  set_daily_limit (limit_box i) ;;
  df <- load_sessions ;;
  when (negb (empty df))
    (let today := date_of (now i) in
     sd <- lift (rbind (getitem df "start") to_datetime_col) ;;
     df1 <- setitem_in_place df "start_dt" sd ;;
     total <- lift (today_total df1 today) ;;
     show (st_limit_metric total (limit_box i)) ;;
     (fun s => (ret tt, s, limit_banner total (limit_box i)))).

(** The "Recorded Sessions" table and the "Delete Session" button. *)
Definition sessions_table (i : inputs) : M unit :=
  df <- load_sessions ;;
  if empty df then show (st_info "No sessions available.")
  else
    show (st_dataframe (drop_columns ["start_dt"; "end_dt"] df)) ;;
    when (pressed i DeleteSession)
      (let x := Py.strip (delete_id i) in
       if Py.truthy x then
         ids <- lift (getitem df "id") ;;
         save_sessions (loc df (map (ne_text x) ids)) ;;
         show (st_success "Session deleted.")
       else show (st_warning "Please enter a valid session ID.")).

(** One rerun of the script, top to bottom. *)
Definition script (i : inputs) : M unit :=
  add_session_button i ;;
  live_timer i ;;
  usage_analytics i ;;
  import_csv i ;;
  export_button i ;;
  daily_limit_alert i ;;
  sessions_table i.

(** The ledger a state holds; before the key is set it is the empty one. *)
Definition ledger (s : session_state) : DataFrame :=
  match sessions s with Some df => df | None => new_frame schema end.

(** Running a step: the state and the output it leaves. *)
Definition state_after {A} (m : M A) (s : session_state) : session_state :=
  snd (fst (m s)).

Definition shown {A} (m : M A) (s : session_state) : list ui := snd (m s).

Definition outcome {A} (m : M A) (s : session_state) : result A :=
  fst (fst (m s)).

End App.

(* ------------------------------------------------------------------ *)
(** ** The focus timer and [now_str] *)

Module Focus.

Import Datetime Pandas.

(** [now_str()], on the reading [now] of the clock. *)
Definition now_str (now : datetime) : string := strftime now.

(** The two buttons of the "Focus Timer" block; the page shows the first
    while the timer is idle and the second while it runs. *)
Inductive focus_button := StartFocus | StopFocus.

(** What the block shows; the metric carries [mins] and [secs].  As in
    [App.ui], the pictograms of the messages are left out. *)
Inductive focus_ui :=
| f_info (msg : string)
| f_success (msg : string)
| f_balloons
| f_metric (mins secs : Z).

(** The two keys of the block in [st.session_state]: [Some e] stands for
    [focus_running = True] with [focus_end = e]; the script reads [focus_end]
    only while [focus_running] holds.  An instant is its count of
    microseconds ([to_micros]); [datetime + timedelta] adds to the count
    (the overflow past the year 9999 is not modelled). *)
Definition focus_state := option Z.

(** [timedelta(minutes=m)] in microseconds. *)
Definition minutes (m : Z) : Z := m * 60 * 1000000.

(** [int(x // 60)] and [int(x % 60)] for a positive number of seconds. *)
Definition whole_minutes (x : Q) : Z := Qfloor (x / 60).
Definition odd_seconds (x : Q) : Z :=
  Qfloor (x - 60 * inject_Z (whole_minutes x)).

(** The "Focus Timer" block.  [now_start] is the clock read when the start
    button is handled, [now_check] the clock read for the remaining time. *)
Definition focus_timer (clicked : option focus_button) (focus_mins : Z)
           (now_start now_check : datetime) (f : focus_state)
  : focus_state * list focus_ui :=
  let (f1, o1) :=
    match f, clicked with
    | None, Some StartFocus =>
        (Some (to_micros now_start + minutes focus_mins),
         [f_info "Focus session started!"])
    | Some _, Some StopFocus => (None, [f_success "Focus session stopped."])
    | _, _ => (f, [])
    end in
  match f1 with
  | Some e =>
      let remaining := (e - to_micros now_check) # 1000000 in
      if Qle_bool remaining 0
      then (None, o1 ++ [f_balloons; f_success "Focus session completed!"])%list
      else (Some e,
            o1 ++ [f_metric (whole_minutes remaining) (odd_seconds remaining)])%list
  | None => (None, o1)
  end.

End Focus.

(* ------------------------------------------------------------------ *)
(** ** Vocabulary of the statements, and sample inputs *)

Import Datetime Pandas App.
Local Open Scope app_scope.

(** *** Instants *)

(** The instant without its microseconds. *)
Definition whole_seconds (t : datetime) : datetime :=
  mkdt (year t) (month t) (day t) (hour t) (minute t) (second t) 0.

(** *** Frames *)

(** The value of record [n] of a frame under column [c]. *)
Definition value_at (df : DataFrame) (n : nat) (c : string) : cell :=
  at_col (columns df) c (nth n (rows df) []).

(** Every row has one value per column. *)
Definition rect (df : DataFrame) : Prop :=
  Forall (fun r => List.length r = List.length (columns df)) (rows df).

(** [setitem], column list and row by row. *)
Definition set_cols (cols : list string) (c : string) : list string :=
  match index_of c cols with Some _ => cols | None => (cols ++ [c])%list end.

Definition set_row (cols : list string) (c : string) (x : cell) (row : list cell)
  : list cell :=
  match index_of c cols with
  | Some i => replace_nth i x row
  | None => (row ++ [x])%list
  end.

(** The identifiers of the records of a frame, in order. *)
Definition ids (df : DataFrame) : list cell :=
  map (at_col (columns df) "id") (rows df).

(** A record carries the identifier [x]: its [id] is the text [x]. *)
Definition carries (x : string) (cols : list string) (row : list cell) : bool :=
  match at_col cols "id" row with
  | Str s => String.eqb s x
  | _ => false
  end.

(** How many records of a frame carry [x]. *)
Definition count_id (x : string) (df : DataFrame) : nat :=
  List.length (filter (carries x (columns df)) (rows df)).

(** The sum of a table of totals. *)
Definition totals_sum (g : list (cell * Q)) : Q :=
  fold_right (fun p acc => (snd p + acc)%Q) 0%Q g.

(** *** Today's usage *)

(** Today's total of a ledger, as the "Daily Limit Alert" block computes it:
    it reads the [start] texts, writes them as [start_dt], and sums
    [duration_min] over the rows whose [start_dt] is on [today]. *)
Definition todays_usage (df : DataFrame) (today : date) : result Q :=
  rbind (rbind (getitem df "start") to_datetime_col) (fun sd =>
  today_total (setitem df "start_dt" sd) today).

(** The instant that the [start] of a record names. *)
Definition stamp_of (cols : list string) (r : list cell) : cell :=
  match to_datetime_cell (at_col cols "start" r) with
  | inr c => c
  | inl _ => NaT
  end.

(** The record starts on the day [today]. *)
Definition starts_on (today : date) (cols : list string) (r : list cell) : bool :=
  date_eq today (stamp_of cols r).

(** *** Steps of the script *)

(** From a state in [P] the step either returns [a] in a state in [Q a], or
    raises in a state in [E]. *)
Definition hoare {A} (P : session_state -> Prop) (m : M A)
           (Q : A -> session_state -> Prop) (E : session_state -> Prop) : Prop :=
  forall s, P s ->
    match m s with
    | (inr a, s', _) => Q a s'
    | (inl _, s', _) => E s'
    end.

(** A step that leaves the session state as it is. *)
Definition readonly {A} (m : M A) : Prop := forall s, snd (fst (m s)) = s.

(** The frame is rectangular and its identifiers are pairwise distinct and
    all among [X]. *)
Definition distinct_within (X : list cell) (df : DataFrame) : Prop :=
  rect df /\ NoDup (ids df) /\ incl (ids df) X.

(** The ledger of the state is rectangular with distinct identifiers in [X]. *)
Definition keeps (X : list cell) (s : session_state) : Prop :=
  distinct_within X (ledger s).

(** The identifiers that the uploaded file brings, when it is read. *)
Definition imported_ids (i : inputs) : list cell :=
  match uploaded i with
  | Some file =>
      match read_csv file with
      | inr imp => ids imp
      | inl _ => []
      end
  | None => []
  end.

(** *** Steps of the script, with their exceptions *)

(** As [hoare], with the exception in the postcondition of a raise. *)
Definition hoarex {A} (P : session_state -> Prop) (m : M A)
           (Q : A -> session_state -> Prop)
           (E : exn -> session_state -> Prop) : Prop :=
  forall s, P s ->
    match m s with
    | (inr a, s', _) => Q a s'
    | (inl e, s', _) => E e s'
    end.

(** The only exceptions of a result are those in [ok]. *)
Definition raises_only {A} (ok : exn -> Prop) (r : result A) : Prop :=
  forall e, r = inl e -> ok e.

(** The frame is rectangular and has the seven columns of the script. *)
Definition well_formed (df : DataFrame) : Prop :=
  rect df /\ incl schema (columns df).

(** The exceptions of the data of a well-formed ledger: a value that cannot
    be summed, and what the embedding does not cover. *)
Definition data_error (e : exn) : Prop := e = TypeError \/ e = Unmodelled.

(** The two columns that the analytics and the daily limit write. *)
Definition helper (c : string) : bool :=
  String.eqb c "start_dt" || String.eqb c "end_dt".

(** [df] holds what [df0] holds, the helper columns apart: as many records,
    the same other columns, the same values under them. *)
Definition same_records (df0 df : DataFrame) : Prop :=
  rect df
  /\ List.length (rows df) = List.length (rows df0)
  /\ forall c, helper c = false ->
       has_column c (columns df) = has_column c (columns df0)
       /\ map (at_col (columns df) c) (rows df)
          = map (at_col (columns df0) c) (rows df0).

(** *** The proposed date range *)

(** The range that "Usage Analytics" proposes in its date box: the date of
    the earliest start and the date of the latest end. *)
Definition proposed_range (df : DataFrame) : result (date * date) :=
  rbind (getitem df "start_dt") (fun c1 =>
  rbind (getitem df "end_dt") (fun c2 =>
  match stamp_min c1, stamp_max c2 with
  | Some a, Some b => ret (date_of a, date_of b)
  | _, _ => raise Unmodelled
  end)).

(** The record has an instant under [start_dt] and under [end_dt]. *)
Definition dated (cols : list string) (r : list cell) : bool :=
  match at_col cols "start_dt" r, at_col cols "end_dt" r with
  | Stamp _, Stamp _ => true
  | _, _ => false
  end.

(** *** Usage tables *)

(** The key and the duration of each record of a view, for the key column
    [c]. *)
Definition keyed (view : DataFrame) (c : string) : list (cell * cell) :=
  map (fun r => (at_col (columns view) c r,
                 at_col (columns view) "duration_min" r))
      (rows view).

(** The durations of the records whose key is [k]. *)
Definition durations_of (k : cell) (kv : list (cell * cell)) : list cell :=
  map snd (filter (fun p => key_eqb (fst p) k) kv).

(** Every total of a table is at least the totals below it. *)
Definition descending (g : list (cell * Q)) : Prop :=
  ForallOrdPairs (fun p q => (snd q <= snd p)%Q) g.

(** No two entries of a table have the same key. *)
Definition keys_once (g : list (cell * Q)) : Prop :=
  ForallOrdPairs (fun a b => key_eqb a b = false) (map fst g).

(** What a table holds for the key [k]. *)
Definition total_of (k : cell) (g : list (cell * Q)) : Q :=
  totals_sum (filter (fun p => key_eqb (fst p) k) g).

(** The daily totals that the line chart draws. *)
Definition daily_chart (view : DataFrame) : result (list (cell * Q)) :=
  rbind (getitem view "start_dt") (fun c =>
  rbind (getitem view "duration_min") (fun dur =>
  groupby_sum (combine (map date_key c) dur))).

(** The blocks of the script above the table of recorded sessions. *)
Definition above_table (i : inputs) : M unit :=
  add_session_button i ;;
  live_timer i ;;
  usage_analytics i ;;
  import_csv i ;;
  export_button i ;;
  daily_limit_alert i.

(** A cell is the text [x]. *)
Definition is_text (x : string) (c : cell) : bool :=
  match c with Str s => String.eqb s x | _ => false end.

(** *** Reachable states *)

(** The states that reruns of the script reach from the initial one, each
    rerun with inputs that [ok] admits in the state it starts from. *)
Inductive reachable (ok : session_state -> inputs -> Prop) : session_state -> Prop :=
| reach_initial : reachable ok initial_state
| reach_rerun s i :
    reachable ok s -> ok s i -> reachable ok (state_after (script i) s).

(** [uuid.uuid4()] draws an identifier that no record carries. *)
Definition draws_fresh (s : session_state) (i : inputs) : Prop :=
  ~ In (Str (uuid4 i)) (ids (ledger s)).

(** The uploaded file is one that the model of [read_csv] covers, and its
    identifiers are distinct from one another, from those of the ledger, and
    from the one drawn in this rerun. *)
Definition imports_fresh (s : session_state) (i : inputs) : Prop :=
  (forall file, uploaded i = Some file -> read_csv file <> inl Unmodelled)
  /\ NoDup (imported_ids i)
  /\ forall c, In c (imported_ids i) ->
       c <> Str (uuid4 i) /\ ~ In c (ids (ledger s)).

(** *** Ledgers built by [add_session], and what is read back *)

(** One session as [add_session] records it. *)
Record entry := mkentry {
  e_id : string; e_start : string; e_end : string;
  e_app : string; e_category : string; e_notes : string;
  e_duration : Q }.

Definition row_of (e : entry) : list cell :=
  [Str (e_id e); Str (e_start e); Str (e_end e); Str (e_app e);
   Str (e_category e); Str (e_notes e); Num (e_duration e)].

Definition line_of (e : entry) : list field :=
  [Text (e_id e); Text (e_start e); Text (e_end e); Text (e_app e);
   Text (e_category e); Text (e_notes e); Number (e_duration e)].

(** The states built from the initial one by calls of [add_session]. *)
Inductive built : session_state -> Prop :=
| built_initial : built initial_state
| built_add s sid start end_ app cat notes d :
    built s -> duration_minutes start end_ = inr d ->
    built (state_after (add_session sid start end_ app cat notes) s).

(** A text that [read_csv] keeps as text or takes for a missing value: not a
    number, an infinity or a boolean. *)
Definition plain_text (s : string) : bool :=
  match lex_text s with
  | LText | LNa => true
  | _ => false
  end.

Definition plain_entry (e : entry) : bool :=
  plain_text (e_id e) && plain_text (e_start e) && plain_text (e_end e)
  && plain_text (e_app e) && plain_text (e_category e) && plain_text (e_notes e).

(** What a value of such a ledger is read back as. *)
Definition readback (c : cell) : cell :=
  match c with
  | Str s => if is_na_text s then NaN else Str s
  | _ => c
  end.

(** *** Sample inputs, files and states *)

Definition sample_uuid : string := "3f2b6c1e-8a4d-4c7e-9b1a-5d2e7f8a9c01".

Definition sample_inputs : inputs :=
  mkinputs None "browser" Social
           (mkdt 2024 1 1 9 0 0 0) (mkdt 2024 1 1 9 25 0 0) ""
           "Reading" Study None None 240 ""
           (mkdt 2024 1 1 10 0 0 0) sample_uuid.

Definition with_clicked (b : button) (i : inputs) : inputs :=
  mkinputs (Some b) (app_name i) (category_box i) (start_time i) (end_time i)
           (notes_area i) (live_app i) (live_cat i) (date_range i) (uploaded i)
           (limit_box i) (delete_id i) (now i) (uuid4 i).

Definition with_times (a b : datetime) (i : inputs) : inputs :=
  mkinputs (clicked i) (app_name i) (category_box i) a b
           (notes_area i) (live_app i) (live_cat i) (date_range i) (uploaded i)
           (limit_box i) (delete_id i) (now i) (uuid4 i).

Definition with_uploaded (f : csv) (i : inputs) : inputs :=
  mkinputs (clicked i) (app_name i) (category_box i) (start_time i) (end_time i)
           (notes_area i) (live_app i) (live_cat i) (date_range i) (Some f)
           (limit_box i) (delete_id i) (now i) (uuid4 i).

Definition with_uuid4 (u : string) (i : inputs) : inputs :=
  mkinputs (clicked i) (app_name i) (category_box i) (start_time i) (end_time i)
           (notes_area i) (live_app i) (live_cat i) (date_range i) (uploaded i)
           (limit_box i) (delete_id i) (now i) u.

Definition with_delete_id (x : string) (i : inputs) : inputs :=
  mkinputs (clicked i) (app_name i) (category_box i) (start_time i) (end_time i)
           (notes_area i) (live_app i) (live_cat i) (date_range i) (uploaded i)
           (limit_box i) x (now i) (uuid4 i).

Definition with_now (t : datetime) (i : inputs) : inputs :=
  mkinputs (clicked i) (app_name i) (category_box i) (start_time i) (end_time i)
           (notes_area i) (live_app i) (live_cat i) (date_range i) (uploaded i)
           (limit_box i) (delete_id i) t (uuid4 i).

Definition evening : inputs :=
  mkinputs None "browser" Social
           (mkdt 2024 1 1 9 0 0 0) (mkdt 2024 1 1 9 25 0 0) ""
           "Reading" Study None None 240 ""
           (mkdt 2024 1 1 20 0 0 0) sample_uuid.

(** A file whose third line has more fields than its header. *)
Definition ragged_file : csv :=
  [[Text "id"; Text "app"];
   [Text "a"; Text "browser"];
   [Text "b"; Text "mail"; Text "extra"]].

(** A file with the columns of the ledger and one record whose identifier
    begins with a blank. *)
Definition padded_id_file : csv :=
  [map Text schema;
   [Text " a"; Text "2024-01-01 09:00:00"; Text "2024-01-01 09:25:00";
    Text "browser"; Text "Social"; Text "imported"; Text "25.0"]].

(** A file with the columns of the ledger and one record without an app. *)
Definition missing_app_file : csv :=
  [map Text schema;
   [Text "x1"; Text "2024-01-01 09:00:00"; Text "2024-01-01 09:25:00";
    Text ""; Text "Social"; Text "imported"; Text "25.0"]].

(** A file with two of the columns of the script. *)
Definition two_column_file : csv :=
  [[Text "id"; Text "app"]; [Text "x1"; Text "mail"]].

(** The ledger after one session, 09:00 to 09:25, added to the empty one. *)
Definition one_session_state : session_state :=
  state_after (add_session sample_uuid "2024-01-01 09:00:00" "2024-01-01 09:25:00"
                           "browser" "Social" "")
              initial_state.

(** The ledger after one session with a note, added to the empty one. *)
Definition noted_state : session_state :=
  state_after (add_session sample_uuid "2024-01-01 09:00:00" "2024-01-01 09:25:00"
                           "browser" "Social" "reading the news")
              initial_state.

(** The state after a rerun that adds the session 09:00 to 09:25. *)
Definition analysed_state : session_state :=
  state_after (script (with_clicked AddSession sample_inputs)) initial_state.

(** The worked example of the limit: 25 minutes today, then three sessions of
    60 minutes, then one of 40 minutes. *)
Definition add_today (sid start end_ : string) (s : session_state) : session_state :=
  state_after (add_session sid start end_ "browser" "Social" "") s.

Definition usage_205 : session_state :=
  add_today "s4" "2024-01-01 14:00:00" "2024-01-01 15:00:00"
    (add_today "s3" "2024-01-01 12:00:00" "2024-01-01 13:00:00"
       (add_today "s2" "2024-01-01 10:00:00" "2024-01-01 11:00:00"
          one_session_state)).

Definition usage_245 : session_state :=
  add_today "s5" "2024-01-01 16:00:00" "2024-01-01 16:40:00" usage_205.

(** A file whose durations are not numbers, and the ledger with one session
    after its import. *)
Definition text_duration_file : csv :=
  [[Text "id"; Text "start"; Text "end"; Text "duration_min"];
   [Text "x1"; Text "2024-01-01 09:00:00"; Text "2024-01-01 09:25:00";
    Text "long"]].

Definition text_duration_state : session_state :=
  state_after (import_csv (with_uploaded text_duration_file sample_inputs))
              one_session_state.

(* ------------------------------------------------------------------ *)
(** ** Rounding *)

Section Rounding.

Lemma round_half_even_near (x : Q) :
  (Qabs (inject_Z (round_half_even x) - x) <= 1 # 2)%Q.
Proof.
  unfold round_half_even.
  pose proof (Qfloor_le x) as Hlo.
  pose proof (Qlt_floor x) as Hhi.
  rewrite inject_Z_plus in Hhi.
  change (inject_Z 1) with 1%Q in Hhi.
  apply Qabs_Qle_condition.
  destruct (Qcompare (x - inject_Z (Qfloor x)) (1 # 2)) eqn:E.
  - apply Qeq_alt in E.
    destruct (Z.even (Qfloor x));
      [| rewrite inject_Z_plus; change (inject_Z 1) with 1%Q]; split; lra.
  - apply Qlt_alt in E. split; lra.
  - apply Qgt_alt in E. rewrite inject_Z_plus.
    change (inject_Z 1) with 1%Q. split; lra.
Qed.

Lemma round2_near (x : Q) : (Qabs (round2 x - x) <= 1 # 200)%Q.
Proof.
  unfold round2.
  pose proof (round_half_even_near (x * 100)) as H.
  apply Qabs_Qle_condition in H.
  apply Qabs_Qle_condition.
  rewrite (Qmake_Qdiv (round_half_even (x * 100)) 100).
  change (inject_Z (Z.pos 100)) with (100 # 1)%Q.
  destruct H as [H1 H2].
  split.
  - apply Qle_minus_iff. apply Qle_minus_iff in H1.
    setoid_replace (inject_Z (round_half_even (x * 100)) / (100 # 1) - x + - - (1 # 200))%Q
      with ((inject_Z (round_half_even (x * 100)) - x * 100 + - - (1 # 2)) * (1 # 100))%Q
      by field.
    apply Qmult_le_0_compat; [exact H1 | discriminate].
  - apply Qle_minus_iff. apply Qle_minus_iff in H2.
    setoid_replace ((1 # 200) + - (inject_Z (round_half_even (x * 100)) / (100 # 1) - x))%Q
      with (((1 # 2) + - (inject_Z (round_half_even (x * 100)) - x * 100)) * (1 # 100))%Q
      by field.
    apply Qmult_le_0_compat; [exact H2 | discriminate].
Qed.

Lemma round_half_even_nonneg (x : Q) : (0 <= x)%Q -> 0 <= round_half_even x.
Proof.
  intros Hx. unfold round_half_even.
  assert (Hf : 0 <= Qfloor x).
  { change 0 with (Qfloor (inject_Z 0)) at 1.
    - apply Qfloor_resp_le. exact Hx. }
  destruct (Qcompare _ _); [destruct (Z.even _) | |]; lia.
Qed.

Lemma round2_nonneg (x : Q) : (0 <= x)%Q -> (0 <= round2 x)%Q.
Proof.
  intros Hx. unfold round2.
  assert (H : 0 <= round_half_even (x * 100)).
  { apply round_half_even_nonneg. apply Qmult_le_0_compat; [exact Hx | discriminate]. }
  unfold Qle. simpl. lia.
Qed.

End Rounding.

(* ------------------------------------------------------------------ *)
(** ** The calendar *)

Section Calendar.

Lemma days_before_year_succ y :
  days_before_year (y + 1)
  = days_before_year y + 365 + (if is_leap y then 1 else 0).
Proof.
  unfold days_before_year, is_leap.
  replace (y + 1 - 1) with y by lia.
  destruct (Z.eqb_spec (y mod 4) 0), (Z.eqb_spec (y mod 100) 0),
    (Z.eqb_spec (y mod 400) 0); simpl;
    Z.div_mod_to_equations; lia.
Qed.

Lemma days_before_year_mono y y' :
  y <= y' -> days_before_year y <= days_before_year y'.
Proof.
  unfold days_before_year. intros H. Z.div_mod_to_equations. lia.
Qed.

Ltac month_table :=
  unfold days_before_month, days_in_month;
  repeat match goal with
         | |- context [nth (Z.to_nat ?k) ?l 0] =>
             let v := eval vm_compute in (nth (Z.to_nat k) l 0) in
             change (nth (Z.to_nat k) l 0) with v
         | |- context [Z.eqb ?a 2] =>
             let v := eval vm_compute in (Z.eqb a 2) in
             change (Z.eqb a 2) with v
         | |- context [Z.ltb 2 ?a] =>
             let v := eval vm_compute in (Z.ltb 2 a) in
             change (Z.ltb 2 a) with v
         end;
  cbn [andb].

Lemma month_cases m : 1 <= m <= 12 ->
  m = 1 \/ m = 2 \/ m = 3 \/ m = 4 \/ m = 5 \/ m = 6 \/ m = 7 \/ m = 8
  \/ m = 9 \/ m = 10 \/ m = 11 \/ m = 12.
Proof. lia. Qed.

(** The months of a year follow one another without gaps. *)
Lemma days_before_month_next y m m' :
  1 <= m -> m < m' -> m' <= 12 ->
  days_before_month y m + days_in_month y m <= days_before_month y m'.
Proof.
  intros H1 H2 H3.
  destruct (month_cases m ltac:(lia)) as [->|[->|[->|[->|[->|[->|[->|[->|[->|[->|[->| ->]]]]]]]]]]];
  destruct (month_cases m' ltac:(lia)) as [->|[->|[->|[->|[->|[->|[->|[->|[->|[->|[->| ->]]]]]]]]]]];
  try lia; month_table; destruct (is_leap y); lia.
Qed.

Lemma days_in_year_bound y m d :
  1 <= m <= 12 -> 1 <= d <= days_in_month y m ->
  1 <= days_before_month y m + d <= 365 + (if is_leap y then 1 else 0).
Proof.
  intros Hm. 
  destruct (month_cases m Hm) as [->|[->|[->|[->|[->|[->|[->|[->|[->|[->|[->| ->]]]]]]]]]]];
  month_table; destruct (is_leap y); lia.
Qed.

Lemma valid_ranges t :
  valid t = true ->
  1 <= year t /\ 1 <= month t <= 12
  /\ 1 <= day t <= days_in_month (year t) (month t)
  /\ 0 <= hour t < 24 /\ 0 <= minute t < 60 /\ 0 <= second t < 60
  /\ 0 <= microsecond t < 1000000.
Proof.
  unfold valid. intros H.
  repeat (apply andb_prop in H; destruct H as [H ?]).
  repeat match goal with
         | H : (_ <=? _) = true |- _ => apply Z.leb_le in H
         | H : (_ <? _) = true |- _ => apply Z.ltb_lt in H
         end.
  lia.
Qed.

(** The order of valid instants is the order of their microsecond counts. *)
Lemma compare_to_micros a b :
  valid a = true -> valid b = true ->
  compare a b = (to_micros a ?= to_micros b).
Proof.
  intros Ha Hb.
  apply valid_ranges in Ha. apply valid_ranges in Hb.
  destruct Ha as (Hy & Hm & Hd & Hh & Hn & Hs & Hu).
  destruct Hb as (Hy' & Hm' & Hd' & Hh' & Hn' & Hs' & Hu').
  pose proof (days_in_year_bound _ _ _ Hm Hd) as Ba.
  pose proof (days_in_year_bound _ _ _ Hm' Hd') as Bb.
  unfold compare, fields, to_micros, to_seconds, toordinal, ymd2ord.
  cbn [lex_compare].
  destruct (Z.compare_spec (year a) (year b)) as [Ey|Ey|Ey].
  - rewrite Ey in *.
    destruct (Z.compare_spec (month a) (month b)) as [Em|Em|Em].
    + rewrite Em in *.
      destruct (Z.compare_spec (day a) (day b)) as [Ed|Ed|Ed].
      * rewrite Ed.
        destruct (Z.compare_spec (hour a) (hour b)) as [Eh|Eh|Eh].
        -- rewrite Eh.
           destruct (Z.compare_spec (minute a) (minute b)) as [En|En|En].
           ++ rewrite En.
              destruct (Z.compare_spec (second a) (second b)) as [Es|Es|Es].
              ** rewrite Es.
                 destruct (Z.compare_spec (microsecond a) (microsecond b));
                   symmetry;
                   [apply Z.compare_eq_iff | apply Z.compare_lt_iff
                    | apply Z.compare_gt_iff]; lia.
              ** symmetry. apply Z.compare_lt_iff. lia.
              ** symmetry. apply Z.compare_gt_iff. lia.
           ++ symmetry. apply Z.compare_lt_iff. lia.
           ++ symmetry. apply Z.compare_gt_iff. lia.
        -- symmetry. apply Z.compare_lt_iff. lia.
        -- symmetry. apply Z.compare_gt_iff. lia.
      * symmetry. apply Z.compare_lt_iff. lia.
      * symmetry. apply Z.compare_gt_iff. lia.
    + pose proof (days_before_month_next (year b) (month a) (month b)
                    ltac:(lia) Em ltac:(lia)).
      symmetry. apply Z.compare_lt_iff. lia.
    + pose proof (days_before_month_next (year b) (month b) (month a)
                    ltac:(lia) Em ltac:(lia)).
      symmetry. apply Z.compare_gt_iff. lia.
  - pose proof (days_before_year_succ (year a)).
    pose proof (days_before_year_mono (year a + 1) (year b) ltac:(lia)).
    symmetry. apply Z.compare_lt_iff. lia.
  - pose proof (days_before_year_succ (year b)).
    pose proof (days_before_year_mono (year b + 1) (year a) ltac:(lia)).
    symmetry. apply Z.compare_gt_iff. lia.
Qed.

Lemma digit_cases d : 0 <= d <= 9 ->
  d = 0 \/ d = 1 \/ d = 2 \/ d = 3 \/ d = 4 \/ d = 5 \/ d = 6 \/ d = 7
  \/ d = 8 \/ d = 9.
Proof. lia. Qed.

Lemma digit_chr_spec d :
  0 <= d <= 9 ->
  Py.isdigit (Py.digit_chr d) = true /\ Py.digit_val (Py.digit_chr d) = d.
Proof.
  intros H.
  destruct (digit_cases d H) as [->|[->|[->|[->|[->|[->|[->|[->|[->| ->]]]]]]]]];
    split; reflexivity.
Qed.

Lemma digit_range n k : 0 <= n / k mod 10 <= 9.
Proof. pose proof (Z.mod_pos_bound (n / k) 10 ltac:(lia)). lia. Qed.

(** The text that [strftime] writes is read back as the instant it was
    written from, to the second. *)
Lemma strptime_strftime t :
  valid t = true -> 1000 <= year t ->
  strptime (strftime t) = Some (whole_seconds t).
Proof.
  intros Hv Hy. pose proof (valid_ranges t Hv) as (_ & Hm & Hd & Hh & Hn & Hs & Hu).
  assert (Hy9 : year t <= 9999).
  { unfold valid in Hv. repeat (apply andb_prop in Hv; destruct Hv as [Hv ?]).
    now apply Z.leb_le. }
  assert (Hd31 : day t <= 31).
  { destruct Hd as [_ Hd]. revert Hd.
    destruct (month_cases _ Hm) as [->|[->|[->|[->|[->|[->|[->|[->|[->|[->|[->| ->]]]]]]]]]]];
      month_table; destruct (is_leap (year t)); lia. }
  unfold strftime, strftime_date, pad4, pad2, strptime.
  cbn [append list_ascii_of_string].
  repeat match goal with
         | |- context [Py.digit_chr ?e] =>
             let Hi := fresh "Hi" in
             let Hv := fresh "Hv" in
             destruct (digit_chr_spec e) as [Hi Hv];
             [ pose proof (Z.mod_pos_bound e 10 ltac:(lia));
               first [ apply digit_range
                     | match e with ?n mod 10 =>
                         pose proof (Z.mod_pos_bound n 10 ltac:(lia)); lia end ]
             | generalize dependent (Py.digit_chr e); intros ]
         end.
  cbn [forallb Py.digits_val].
  repeat match goal with H : Py.isdigit _ = true |- _ => rewrite H; clear H end.
  repeat match goal with H : Py.digit_val _ = _ |- _ => rewrite H; clear H end.
  cbn [andb Ascii.eqb Bool.eqb].
  replace (10 * (10 * (10 * (10 * 0 + year t / 1000 mod 10) + year t / 100 mod 10)
                 + year t / 10 mod 10) + year t mod 10) with (year t)
    by (Z.div_mod_to_equations; lia).
  replace (10 * (10 * 0 + month t / 10 mod 10) + month t mod 10) with (month t)
    by (Z.div_mod_to_equations; lia).
  replace (10 * (10 * 0 + day t / 10 mod 10) + day t mod 10) with (day t)
    by (Z.div_mod_to_equations; lia).
  replace (10 * (10 * 0 + hour t / 10 mod 10) + hour t mod 10) with (hour t)
    by (Z.div_mod_to_equations; lia).
  replace (10 * (10 * 0 + minute t / 10 mod 10) + minute t mod 10) with (minute t)
    by (Z.div_mod_to_equations; lia).
  replace (10 * (10 * 0 + second t / 10 mod 10) + second t mod 10) with (second t)
    by (Z.div_mod_to_equations; lia).
  fold (whole_seconds t).
  assert (Hw : valid (whole_seconds t) = true).
  { unfold valid in *. cbn [whole_seconds year month day hour minute second microsecond] in *.
    repeat (apply andb_prop in Hv; destruct Hv as [Hv ?]).
    repeat (apply andb_true_intro; split); try assumption; reflexivity. }
  now rewrite Hw.
Qed.

Lemma strptime_valid s t : strptime s = Some t -> valid t = true.
Proof.
  unfold strptime.
  destruct (list_ascii_of_string s) as [|y1 [|y2 [|y3 [|y4 [|s1 [|m1 [|m2 [|s2
    [|d1 [|d2 [|s3 [|h1 [|h2 [|s4 [|n1 [|n2 [|s5 [|c1 [|c2 [|x r]]]]]]]]]]]]]]]]]]]];
    try discriminate.
  destruct (_ && _); [|discriminate].
  match goal with |- (if valid ?u then _ else _) = _ -> _ =>
    destruct (valid u) eqn:E; [|discriminate] end.
  intros H. injection H as <-. exact E.
Qed.

(** For instants read from texts, [end > start] in Python's order says that
    the elapsed time is positive. *)
Lemma after_positive ts te :
  valid ts = true -> valid te = true ->
  leb te ts = false <-> (0 < total_seconds te ts)%Q.
Proof.
  intros Hs He. unfold leb. rewrite (compare_to_micros te ts He Hs).
  unfold total_seconds, Qlt. cbn [Qnum Qden].
  destruct (Z.compare_spec (to_micros te) (to_micros ts)) as [E|E|E];
    split; intros H; try discriminate; try reflexivity; lia.
Qed.

End Calendar.

(* ------------------------------------------------------------------ *)
(** ** Frames: columns, rows and values *)

Section FrameFacts.

Lemma index_of_Some c cols i :
  index_of c cols = Some i ->
  (i < List.length cols)%nat /\ nth i cols EmptyString = c.
Proof.
  revert i. induction cols as [|x r IH]; simpl; intros i H; [discriminate|].
  destruct (String.eqb x c) eqn:E.
  - injection H as <-. apply String.eqb_eq in E. split; [lia | exact E].
  - destruct (index_of c r) as [j|]; [|discriminate].
    injection H as <-. destruct (IH j eq_refl). split; [lia | assumption].
Qed.

Lemma has_column_In c cols : has_column c cols = true <-> In c cols.
Proof.
  unfold has_column. induction cols as [|x r IH]; simpl.
  - split; [discriminate | contradiction].
  - destruct (String.eqb x c) eqn:E.
    + apply String.eqb_eq in E. split; auto.
    + apply String.eqb_neq in E.
      destruct (index_of c r); simpl in *; split; intros H.
      * right. apply IH. reflexivity.
      * reflexivity.
      * discriminate.
      * destruct H as [H|H]; [contradiction | apply IH in H; discriminate].
Qed.

Lemma at_col_absent cols c row : ~ In c cols -> at_col cols c row = NaN.
Proof.
  intros H. unfold at_col.
  destruct (index_of c cols) eqn:E; [|reflexivity].
  exfalso. apply H. apply has_column_In. unfold has_column. now rewrite E.
Qed.

Lemma at_col_reindex cols' cols c row :
  In c cols' -> at_col cols' c (reindex cols' cols row) = at_col cols c row.
Proof.
  intros H. apply has_column_In in H. unfold has_column in H.
  unfold at_col at 1.
  destruct (index_of c cols') as [i|] eqn:E; [|discriminate].
  destruct (index_of_Some _ _ _ E) as [Hi Hn].
  unfold reindex.
  rewrite (nth_indep _ NaN (at_col cols EmptyString row))
    by (rewrite length_map; exact Hi).
  rewrite (map_nth (fun c0 => at_col cols c0 row)). now rewrite Hn.
Qed.

Lemma concat_columns_In a b c :
  In c (columns (concat a b)) <-> In c (columns a) \/ In c (columns b).
Proof.
  unfold concat; simpl. rewrite in_app_iff, filter_In. split.
  - intros [H|[H _]]; auto.
  - intros [H|H]; [auto|].
    destruct (has_column c (columns a)) eqn:E.
    + left. now apply has_column_In.
    + right. now split.
Qed.

Lemma concat_rows_length a b :
  List.length (rows (concat a b))
  = (List.length (rows a) + List.length (rows b))%nat.
Proof. unfold concat; simpl. now rewrite length_app, !length_map. Qed.

Lemma concat_value_left a b n c :
  (n < List.length (rows a))%nat -> value_at (concat a b) n c = value_at a n c.
Proof.
  intros Hn. unfold value_at.
  destruct (in_dec string_dec c (columns (concat a b))) as [Hc|Hc].
  - unfold concat in *; simpl in *.
    set (cols := (columns a ++ _)%list) in *.
    rewrite app_nth1 by (rewrite length_map; exact Hn).
    rewrite (nth_indep _ [] (reindex cols (columns a) []))
      by (rewrite length_map; exact Hn).
    rewrite (map_nth (reindex cols (columns a))).
    now apply at_col_reindex.
  - rewrite (at_col_absent _ _ _ Hc).
    symmetry. apply at_col_absent. intros H. apply Hc.
    apply concat_columns_In. now left.
Qed.

Lemma concat_value_right a b n c :
  (n < List.length (rows b))%nat ->
  value_at (concat a b) (List.length (rows a) + n) c = value_at b n c.
Proof.
  intros Hn. unfold value_at.
  destruct (in_dec string_dec c (columns (concat a b))) as [Hc|Hc].
  - unfold concat in *; simpl in *.
    set (cols := (columns a ++ _)%list) in *.
    rewrite app_nth2 by (rewrite length_map; lia).
    rewrite length_map.
    replace (List.length (rows a) + n - List.length (rows a))%nat with n by lia.
    rewrite (nth_indep _ [] (reindex cols (columns b) []))
      by (rewrite length_map; exact Hn).
    rewrite (map_nth (reindex cols (columns b))).
    now apply at_col_reindex.
  - rewrite (at_col_absent _ _ _ Hc).
    symmetry. apply at_col_absent. intros H. apply Hc.
    apply concat_columns_In. now right.
Qed.

End FrameFacts.

(* ------------------------------------------------------------------ *)
(** ** Adding a session *)

Section AddSession.

Lemma duration_minutes_parsed start end_ ts te :
  strptime start = Some ts -> strptime end_ = Some te ->
  duration_minutes start end_ = inr (total_seconds te ts / 60)%Q.
Proof.
  intros Hs He. unfold duration_minutes, to_datetime. now rewrite Hs, He.
Qed.

(** What a call of [add_session] does when the two texts are read. *)
Lemma add_session_run s sid start end_ app cat notes d :
  duration_minutes start end_ = inr d ->
  add_session sid start end_ app cat notes s
  = (inr tt,
     mkstate (Some (concat (ledger s)
                      (from_record
                         (session_record sid start end_ app cat notes (round2 d)))))
             (live s) (daily_limit s),
     []).
Proof.
  intros Hd. unfold add_session, bind, load_sessions, lift, save_sessions,
    set_sessions, ledger.
  destruct (sessions s); simpl; rewrite Hd; reflexivity.
Qed.

Lemma ledger_stored df l d : ledger (mkstate (Some df) l d) = df.
Proof. reflexivity. Qed.

End AddSession.

(** C1.  For texts [start] and [end_] that name instants with [end_] strictly
    after [start] (in Python's order of datetimes), [add_session] returns
    normally and appends exactly one record: the ledger is one record longer,
    the records it had keep every value, and the new last record carries the
    identifier, the two texts, the app, the category, the notes, and a
    [duration_min] that is not negative and lies within 0.005 of
    [(end - start)] in minutes. *)
Theorem add_session_appends_record
  (s : session_state) (sid start end_ app cat notes : string) (ts te : datetime) :
  strptime start = Some ts ->
  strptime end_ = Some te ->
  leb te ts = false ->
  let m := add_session sid start end_ app cat notes in
  let old := ledger s in
  let new := ledger (state_after m s) in
  let n := List.length (rows old) in
  outcome m s = inr tt
  /\ List.length (rows new) = S n
  /\ (forall k c, (k < n)%nat -> value_at new k c = value_at old k c)
  /\ value_at new n "id" = Str sid
  /\ value_at new n "start" = Str start
  /\ value_at new n "end" = Str end_
  /\ value_at new n "app" = Str app
  /\ value_at new n "category" = Str cat
  /\ value_at new n "notes" = Str notes
  /\ exists dur,
       value_at new n "duration_min" = Num dur
       /\ (0 <= dur)%Q
       /\ (Qabs (dur - total_seconds te ts / 60) <= 1 # 200)%Q.
Proof.
  intros Hs He Hafter m old new n.
  assert (Hpos : (0 < total_seconds te ts)%Q).
  { apply after_positive; [apply (strptime_valid _ _ Hs)
                          | apply (strptime_valid _ _ He) | exact Hafter]. }
  pose proof (add_session_run s sid start end_ app cat notes _
                (duration_minutes_parsed _ _ _ _ Hs He)) as Hrun.
  subst m old new n. unfold outcome, state_after. rewrite Hrun.
  cbn [fst snd]. rewrite !ledger_stored.
  set (old := ledger s).
  set (r := from_record _).
  assert (Hr : forall c, value_at (concat old r) (List.length (rows old)) c
                         = value_at r 0 c).
  { intros c. rewrite <- (Nat.add_0_r (List.length (rows old))) at 1.
    apply concat_value_right. simpl. lia. }
  split; [reflexivity|].
  split; [rewrite concat_rows_length; simpl; lia|].
  split; [intros k c Hk; now apply concat_value_left|].
  rewrite !Hr.
  repeat (split; [reflexivity|]).
  exists (round2 (total_seconds te ts / 60)).
  split; [reflexivity|].
  split.
  - apply round2_nonneg. apply Qlt_le_weak.
    apply Qlt_shift_div_l; [reflexivity | now rewrite Qmult_0_l].
  - apply round2_near.
Qed.

(** C1 at 09:00 to 09:25: the record carries 25.00 minutes. *)
Lemma add_session_appends_record_witness :
  let m := add_session "3f2b6c1e-8a4d-4c7e-9b1a-5d2e7f8a9c01"
             "2024-01-01 09:00:00" "2024-01-01 09:25:00" "browser" "Social" "" in
  App.outcome m initial_state = inr tt
  /\ List.length (rows (ledger (state_after m initial_state))) = 1%nat
  /\ value_at (ledger (state_after m initial_state)) 0 "duration_min"
     = Num (2500 # 100).
Proof.
  pose proof (add_session_appends_record initial_state
                "3f2b6c1e-8a4d-4c7e-9b1a-5d2e7f8a9c01"
                "2024-01-01 09:00:00" "2024-01-01 09:25:00" "browser" "Social" ""
                (mkdt 2024 1 1 9 0 0 0) (mkdt 2024 1 1 9 25 0 0)
                eq_refl eq_refl eq_refl) as H.
  cbv zeta in H. destruct H as (H1 & H2 & _).
  split; [exact H1|]. split; [exact H2|]. reflexivity.
Defined.

(** C2.  When the "Add Session" button is pressed with an end time that is
    not after the start time, the handler returns normally, shows the
    validation error and leaves the session state as it was: the ledger keeps
    its records and its length, no record is made. *)
Theorem add_session_button_rejects (s : session_state) (i : inputs) :
  clicked i = Some AddSession ->
  leb (end_time i) (start_time i) = true ->
  add_session_button i s
  = (inr tt, s, [st_error "End time must be after start time."])
  /\ ledger (state_after (add_session_button i) s) = ledger s
  /\ List.length (rows (ledger (state_after (add_session_button i) s)))
     = List.length (rows (ledger s)).
Proof.
  intros Hc Hle.
  assert (H : add_session_button i s
              = (inr tt, s, [st_error "End time must be after start time."])).
  { unfold add_session_button, pressed, when. rewrite Hc, Hle. reflexivity. }
  unfold state_after. rewrite H. auto.
Qed.

(** The other branch of the handler: with datetimes of the years 1000 to
    9999 and the end time after the start time, the record is made from the
    two instants to the second. *)
Lemma add_session_button_accepts (s : session_state) (i : inputs) :
  clicked i = Some AddSession ->
  leb (end_time i) (start_time i) = false ->
  valid (start_time i) = true -> valid (end_time i) = true ->
  1000 <= year (start_time i) -> 1000 <= year (end_time i) ->
  add_session_button i s
  = (inr tt,
     mkstate
       (Some (concat (ledger s)
                (from_record
                   (session_record (uuid4 i)
                      (strftime (start_time i)) (strftime (end_time i))
                      (app_name i) (category_name (category_box i)) (notes_area i)
                      (round2 (total_seconds (whole_seconds (end_time i))
                                             (whole_seconds (start_time i)) / 60))))))
       (live s) (daily_limit s),
     [st_success "Session added successfully!"]).
Proof.
  intros Hc Hle Hvs Hve Hys Hye.
  unfold add_session_button, pressed, when. rewrite Hc, Hle. cbn [button_eqb].
  unfold bind.
  rewrite (add_session_run s _ _ _ _ _ _ _
             (duration_minutes_parsed _ _ _ _
                (strptime_strftime _ Hvs Hys) (strptime_strftime _ Hve Hye))).
  reflexivity.
Qed.

(** C2 with an end time equal to the start time, on the empty ledger. *)
Lemma add_session_button_rejects_witness :
  let i := with_clicked AddSession
             (with_times (mkdt 2024 1 1 9 0 0 0) (mkdt 2024 1 1 9 0 0 0)
                         sample_inputs) in
  add_session_button i initial_state
  = (inr tt, initial_state, [st_error "End time must be after start time."]).
Proof.
  exact (proj1 (add_session_button_rejects initial_state
                  (with_clicked AddSession
                     (with_times (mkdt 2024 1 1 9 0 0 0) (mkdt 2024 1 1 9 0 0 0)
                                 sample_inputs))
                  eq_refl eq_refl)).
Defined.

(** C7.  When [read_csv] raises on the uploaded file, the import block
    returns normally, shows the failure, and leaves the session state, and so
    the ledger, exactly as it was. *)
Theorem import_failure_keeps_ledger
  (s : session_state) (i : inputs) (file : csv) (e : exn) :
  uploaded i = Some file ->
  read_csv file = inl e ->
  e <> Unmodelled ->
  import_csv i s = (inr tt, s, [st_import_failed e])
  /\ ledger (state_after (import_csv i) s) = ledger s.
Proof.
  intros Hu Hr He.
  assert (H : import_csv i s = (inr tt, s, [st_import_failed e])).
  { unfold import_csv. rewrite Hu, Hr. destruct e; try reflexivity. now elim He. }
  unfold state_after. rewrite H. auto.
Qed.

(** C7 on a ragged file and on an empty one. *)
Lemma import_failure_keeps_ledger_witness :
  import_csv (with_uploaded ragged_file sample_inputs) initial_state
  = (inr tt, initial_state, [st_import_failed ParserError])
  /\ import_csv (with_uploaded [] sample_inputs) initial_state
     = (inr tt, initial_state, [st_import_failed EmptyDataError]).
Proof.
  split.
  - refine (proj1 (import_failure_keeps_ledger initial_state
                     (with_uploaded ragged_file sample_inputs) ragged_file
                     ParserError eq_refl eq_refl _)).
    discriminate.
  - refine (proj1 (import_failure_keeps_ledger initial_state
                     (with_uploaded [] sample_inputs) [] EmptyDataError
                     eq_refl eq_refl _)).
    discriminate.
Defined.

(* ------------------------------------------------------------------ *)
(** ** The daily limit *)

Section DailyLimit.

Lemma Qle_bool_false x y : Qle_bool x y = false -> (y < x)%Q.
Proof.
  intros H. apply Qnot_le_lt. intros Hle.
  apply Qle_bool_iff in Hle. congruence.
Qed.

End DailyLimit.



(* ------------------------------------------------------------------ *)
(** ** Deleting a session *)

Section Delete.

Lemma loc_as_filter df (f : list cell -> bool) :
  loc df (map f (rows df)) = mkframe (columns df) (filter f (rows df)).
Proof.
  unfold loc. f_equal.
  induction (rows df) as [|r l IH]; simpl; [reflexivity|].
  destruct (f r); simpl; now rewrite IH.
Qed.

Lemma filter_none {A} (p : A -> bool) (l : list A) :
  List.length (filter p l) = 0%nat -> filter (fun a => negb (p a)) l = l.
Proof.
  induction l as [|a r IH]; simpl; [reflexivity|].
  destruct (p a); simpl; [discriminate|]. intros H. now rewrite IH.
Qed.

Lemma filter_one {A} (p : A -> bool) (l : list A) :
  List.length (filter p l) = 1%nat ->
  exists before a after,
    l = (before ++ a :: after)%list /\ p a = true
    /\ filter (fun y => negb (p y)) l = (before ++ after)%list.
Proof.
  induction l as [|a r IH]; simpl; [discriminate|].
  destruct (p a) eqn:E; simpl; intros H.
  - exists [], a, r. simpl. repeat split; [exact E|].
    apply filter_none. lia.
  - destruct (IH H) as (b & y & c & -> & Hy & Hf).
    exists (a :: b), y, c. simpl. repeat split; [exact Hy|]. now rewrite Hf.
Qed.

Lemma ne_text_carries x cols r :
  ne_text x (at_col cols "id" r) = negb (carries x cols r).
Proof. unfold carries, ne_text. now destruct (at_col cols "id" r). Qed.

Lemma frame_eta df : mkframe (columns df) (rows df) = df.
Proof. now destruct df. Qed.

Lemma load_sessions_run s :
  load_sessions s
  = (inr (ledger s), mkstate (Some (ledger s)) (live s) (daily_limit s), []).
Proof.
  unfold load_sessions, ledger. destruct s as [[df|] l d]; reflexivity.
Qed.

(** The frame the "Delete Session" handler stores for the looked-up text [x]. *)
Lemma sessions_table_delete s i :
  clicked i = Some DeleteSession ->
  Py.truthy (Py.strip (delete_id i)) = true ->
  empty (ledger s) = false ->
  has_column "id" (columns (ledger s)) = true ->
  outcome (sessions_table i) s = inr tt
  /\ ledger (state_after (sessions_table i) s)
     = mkframe (columns (ledger s))
         (filter (fun r => negb (carries (Py.strip (delete_id i))
                                         (columns (ledger s)) r))
                 (rows (ledger s))).
Proof.
  intros Hc Ht He Hid.
  unfold outcome, state_after, sessions_table, bind.
  rewrite load_sessions_run, He. cbn [show when pressed].
  unfold pressed. rewrite Hc. cbn [button_eqb when]. rewrite Ht.
  unfold lift, getitem. rewrite Hid. cbn.
  rewrite map_map.
  rewrite (loc_as_filter (ledger s)
             (fun r => ne_text (Py.strip (delete_id i))
                               (at_col (columns (ledger s)) "id" r))).
  split; [reflexivity|]. f_equal.
  apply filter_ext. intros r. apply ne_text_carries.
Qed.

Lemma sessions_table_empty s i :
  empty (ledger s) = true ->
  outcome (sessions_table i) s = inr tt
  /\ ledger (state_after (sessions_table i) s) = ledger s.
Proof.
  intros He. unfold outcome, state_after, sessions_table, bind.
  rewrite load_sessions_run, He. cbn. auto.
Qed.

Lemma empty_no_rows df :
  empty df = true -> columns df <> [] -> rows df = [].
Proof.
  unfold empty. destruct (columns df); [congruence|].
  destruct (rows df); [reflexivity | discriminate].
Qed.

End Delete.

Section DeleteBlank.

Lemma sessions_table_blank s i :
  clicked i = Some DeleteSession ->
  Py.truthy (Py.strip (delete_id i)) = false ->
  outcome (sessions_table i) s = inr tt
  /\ ledger (state_after (sessions_table i) s) = ledger s.
Proof.
  intros Hc Ht.
  destruct (empty (ledger s)) eqn:He; [now apply sessions_table_empty|].
  unfold outcome, state_after, sessions_table, bind.
  rewrite load_sessions_run, He. cbn [show when pressed].
  unfold pressed. rewrite Hc. cbn [button_eqb when]. rewrite Ht.
  cbn. auto.
Qed.

Lemma truthy_nonempty x : x <> "" -> Py.truthy x = true.
Proof. destruct x; [congruence | reflexivity]. Qed.

End DeleteBlank.




(* ------------------------------------------------------------------ *)
(** ** Export *)

Section ExportFacts.

Lemma export_csv_header df : hd [] (export_csv df) = map Text (columns df).
Proof. reflexivity. Qed.

Lemma export_csv_lines df :
  List.length (export_csv df) = S (List.length (rows df)).
Proof. unfold export_csv, to_csv. simpl. now rewrite length_map. Qed.

End ExportFacts.

(** C8, evaluated.  A session is added in one rerun; in the next rerun the
    export button is pressed.  The ledger as [add_session] stores it exports
    under the seven columns of the schema, but the "Usage Analytics" block
    runs before the export block in every rerun and writes [start_dt] and
    [end_dt] into the stored ledger, so the file that is offered for download
    has nine columns.  It has one line per record after the header. *)
Theorem export_after_analytics_has_helper_columns :
  let s1 := state_after (script (with_clicked AddSession sample_inputs))
                        initial_state in
  let out := shown (script (with_clicked ExportSessions sample_inputs)) s1 in
  hd [] (export_csv (ledger one_session_state)) = map Text schema
  /\ exists data,
       In (st_download data) out
       /\ hd [] data = map Text (schema ++ ["start_dt"; "end_dt"])%list
       /\ hd [] data <> map Text schema
       /\ List.length data = 2%nat.
Proof.
  split; [reflexivity|].
  eexists. split.
  - vm_compute. do 4 right. left. reflexivity.
  - split; [reflexivity|]. split; [discriminate | reflexivity].
Qed.

(* ------------------------------------------------------------------ *)
(** ** Aggregates *)

Section Aggregates.

Lemma totals_sum_add_to_group k v g :
  (totals_sum (add_to_group k v g) == totals_sum g + v)%Q.
Proof.
  induction g as [|[k' s] g IH]; simpl.
  - ring.
  - destruct (key_eqb k' k); simpl; [ring | rewrite IH; ring].
Qed.

Lemma groupby_acc_total kv : forall g t,
  (forall p, In p kv -> isna (fst p) = false) ->
  sum (map snd kv) = inr t ->
  exists g', groupby_acc g kv = inr g'
             /\ (totals_sum g' == totals_sum g + t)%Q.
Proof.
  induction kv as [|[k v] r IH]; simpl; intros g t Hk Hs.
  - injection Hs as <-. exists g. split; [reflexivity | ring].
  - pose proof (Hk (k, v) (or_introl eq_refl)) as Hkv. simpl in Hkv.
    rewrite Hkv. unfold rbind in Hs |- *.
    destruct (summand v) as [e|x]; [discriminate|].
    destruct (sum (map snd r)) as [e|y] eqn:Er; [discriminate|].
    injection Hs as <-.
    destruct (IH (add_to_group k x g) y) as (g' & Hg & Ht);
      [intros p Hp; apply Hk; now right | reflexivity |].
    exists g'. split; [exact Hg|].
    rewrite Ht, totals_sum_add_to_group. ring.
Qed.

Lemma totals_sum_insert_desc p l :
  (totals_sum (insert_desc p l) == snd p + totals_sum l)%Q.
Proof.
  induction l as [|q r IH]; simpl; [ring|].
  destruct (Qle_bool (snd q) (snd p)); simpl; [ring | rewrite IH; ring].
Qed.

Lemma totals_sum_sort_values_desc l :
  (totals_sum (sort_values_desc l) == totals_sum l)%Q.
Proof.
  unfold sort_values_desc.
  induction l as [|p r IH]; simpl; [reflexivity|].
  now rewrite totals_sum_insert_desc, IH.
Qed.

Lemma combine_map_map {A B C} (f : A -> B) (g : A -> C) (l : list A) :
  combine (map f l) (map g l) = map (fun x => (f x, g x)) l.
Proof. induction l; simpl; [reflexivity | now f_equal]. Qed.

Lemma getitem_present df c :
  has_column c (columns df) = true ->
  getitem df c = inr (map (at_col (columns df) c) (rows df)).
Proof. intros H. unfold getitem. now rewrite H. Qed.

(** The totals by a key column add up to the total when no selected record
    lacks the key. *)
Lemma by_column_total view c t :
  has_column c (columns view) = true ->
  (forall r, In r (rows view) -> isna (at_col (columns view) c r) = false) ->
  total_min view = inr t ->
  exists g, by_column view c = inr g /\ (totals_sum g == t)%Q.
Proof.
  intros Hc Hk Ht.
  unfold total_min, rbind in Ht.
  destruct (getitem view "duration_min") as [e|dur] eqn:Ed; [discriminate|].
  assert (Hd : dur = map (at_col (columns view) "duration_min") (rows view)).
  { unfold getitem in Ed.
    destruct (has_column "duration_min" (columns view)); [|discriminate].
    now injection Ed as <-. }
  unfold by_column, grouped. rewrite (getitem_present _ _ Hc). cbn [rbind].
  rewrite Ed. cbn [rbind]. subst dur. rewrite combine_map_map.
  destruct (groupby_acc_total
              (map (fun r => (at_col (columns view) c r,
                              at_col (columns view) "duration_min" r))
                   (rows view)) [] t) as (g & Hg & Hs).
  - intros p Hp. apply in_map_iff in Hp. destruct Hp as (r & <- & Hr).
    now apply Hk.
  - now rewrite map_map.
  - unfold groupby_sum. rewrite Hg. cbn [ret].
    exists (sort_values_desc g). split; [reflexivity|].
    rewrite totals_sum_sort_values_desc, Hs. simpl. ring.
Qed.

Lemma analytics_view_columns df range view :
  analytics_view df range = inr view -> columns view = columns df.
Proof.
  unfold analytics_view, rbind.
  destruct (getitem df "start_dt"); [discriminate|].
  destruct (getitem df "end_dt"); [discriminate|].
  intros H. now injection H as <-.
Qed.

End Aggregates.




(* ------------------------------------------------------------------ *)
(** ** Rectangular frames and column assignment *)

Section SetItem.

Lemma setitem_unfold df c v :
  setitem df c v
  = mkframe (set_cols (columns df) c)
            (map (fun rv => set_row (columns df) c (snd rv) (fst rv))
                 (combine (rows df) v)).
Proof.
  unfold setitem, set_cols, set_row. now destruct (index_of c (columns df)).
Qed.

Lemma index_of_None c cols : index_of c cols = None -> ~ In c cols.
Proof.
  intros H Hin. apply has_column_In in Hin. unfold has_column in Hin.
  now rewrite H in Hin.
Qed.

Lemma index_of_app_l c cols extra i :
  index_of c cols = Some i -> index_of c (cols ++ extra) = Some i.
Proof.
  revert i. induction cols as [|x r IH]; simpl; intros i H; [discriminate|].
  destruct (String.eqb x c); [exact H|].
  destruct (index_of c r) as [j|]; [|discriminate].
  now rewrite (IH j eq_refl).
Qed.

Lemma index_of_app_r c cols c2 :
  index_of c cols = None ->
  index_of c (cols ++ [c2])
  = if String.eqb c2 c then Some (List.length cols) else None.
Proof.
  induction cols as [|x r IH]; simpl; intros H.
  - now destruct (String.eqb c2 c).
  - destruct (String.eqb x c); [discriminate|].
    destruct (index_of c r); [discriminate|].
    rewrite (IH eq_refl). now destruct (String.eqb c2 c).
Qed.

Lemma length_replace_nth i x row :
  List.length (replace_nth i x row) = List.length row.
Proof.
  revert i. induction row as [|y r IH]; intros [|i]; simpl; auto.
Qed.

Lemma nth_replace_nth_same i x row :
  (i < List.length row)%nat -> nth i (replace_nth i x row) NaN = x.
Proof.
  revert i. induction row as [|y r IH]; intros [|i]; simpl; intros H;
    try lia; [reflexivity | apply IH; lia].
Qed.

Lemma nth_replace_nth_other i j x row :
  i <> j -> nth j (replace_nth i x row) NaN = nth j row NaN.
Proof.
  revert i j. induction row as [|y r IH]; intros [|i] [|j] H; simpl;
    try reflexivity; try congruence.
  apply IH. congruence.
Qed.

Lemma at_col_set_row cols c c' x row :
  List.length row = List.length cols ->
  at_col (set_cols cols c) c' (set_row cols c x row)
  = if String.eqb c c' then x else at_col cols c' row.
Proof.
  intros Hlen. unfold set_cols, set_row, at_col.
  destruct (index_of c cols) as [i|] eqn:Ei.
  - destruct (index_of_Some _ _ _ Ei) as [Hi Hn].
    destruct (String.eqb c c') eqn:E.
    + apply String.eqb_eq in E. subst c'. rewrite Ei.
      apply nth_replace_nth_same. lia.
    + apply String.eqb_neq in E.
      destruct (index_of c' cols) as [j|] eqn:Ej; [|reflexivity].
      destruct (index_of_Some _ _ _ Ej) as [Hj Hm].
      apply nth_replace_nth_other. congruence.
  - destruct (index_of c' cols) as [j|] eqn:Ej.
    + destruct (index_of_Some _ _ _ Ej) as [Hj Hm].
      rewrite (index_of_app_l _ _ _ _ Ej).
      destruct (String.eqb c c') eqn:E.
      * apply String.eqb_eq in E. subst c'. congruence.
      * apply app_nth1. lia.
    + rewrite (index_of_app_r _ _ c Ej).
      destruct (String.eqb c c'); [|reflexivity].
      rewrite app_nth2 by lia. rewrite Hlen, Nat.sub_diag. reflexivity.
Qed.

Lemma length_set_row cols c x row :
  List.length row = List.length cols ->
  List.length (set_row cols c x row) = List.length (set_cols cols c).
Proof.
  intros H. unfold set_row, set_cols.
  destruct (index_of c cols).
  - now rewrite length_replace_nth.
  - rewrite !length_app. simpl. lia.
Qed.

Lemma rmap_length {A B} (f : A -> result B) l l' :
  rmap f l = inr l' -> List.length l' = List.length l.
Proof.
  revert l'. induction l as [|a r IH]; simpl; intros l' H.
  - now injection H as <-.
  - unfold rbind in H. destruct (f a); [discriminate|].
    destruct (rmap f r) as [|bs]; [discriminate|].
    injection H as <-. simpl. now rewrite (IH bs eq_refl).
Qed.

Lemma rmap_values {A B} (f : A -> result B) (d : B) l l' :
  rmap f l = inr l' ->
  l' = map (fun a => match f a with inr b => b | inl _ => d end) l.
Proof.
  revert l'. induction l as [|a r IH]; simpl; intros l' H.
  - now injection H as <-.
  - unfold rbind in H. destruct (f a); [discriminate|].
    destruct (rmap f r) as [|bs]; [discriminate|].
    injection H as <-. now rewrite (IH bs eq_refl).
Qed.

(** The column [c'] of a frame after [df[c] = v]. *)
Lemma setitem_column df c v c' :
  rect df -> List.length v = List.length (rows df) ->
  map (at_col (columns (setitem df c v)) c') (rows (setitem df c v))
  = if String.eqb c c' then v
    else map (at_col (columns df) c') (rows df).
Proof.
  intros Hr Hl. rewrite setitem_unfold. cbn [columns rows].
  unfold rect in Hr. revert v Hl.
  induction Hr as [|r l Hrow Hrest IH]; intros [|x v] Hl; simpl in *;
    try discriminate.
  - now destruct (String.eqb c c').
  - rewrite (at_col_set_row _ _ _ _ _ Hrow).
    specialize (IH v ltac:(lia)).
    destruct (String.eqb c c'); now rewrite IH.
Qed.

Lemma setitem_rows_length df c v :
  List.length v = List.length (rows df) ->
  List.length (rows (setitem df c v)) = List.length (rows df).
Proof.
  intros H. rewrite setitem_unfold. cbn [rows].
  rewrite length_map, length_combine. lia.
Qed.

Lemma setitem_rect df c v : rect df -> rect (setitem df c v).
Proof.
  intros Hr. rewrite setitem_unfold. unfold rect in *. cbn [columns rows].
  apply Forall_forall. intros r Hin.
  apply in_map_iff in Hin. destruct Hin as ([r0 x] & <- & Hin).
  apply in_combine_l in Hin. simpl.
  apply length_set_row. rewrite Forall_forall in Hr. now apply Hr.
Qed.

Lemma setitem_has_column df c v c' :
  has_column c' (columns (setitem df c v))
  = (String.eqb c c' || has_column c' (columns df))%bool.
Proof.
  rewrite setitem_unfold. cbn [columns]. unfold set_cols, has_column.
  destruct (index_of c (columns df)) as [i|] eqn:Ei.
  - destruct (String.eqb c c') eqn:E; [|reflexivity].
    apply String.eqb_eq in E. subst c'. now rewrite Ei.
  - destruct (index_of c' (columns df)) as [j|] eqn:Ej.
    + rewrite (index_of_app_l _ _ _ _ Ej). now rewrite orb_true_r.
    + rewrite (index_of_app_r _ _ c Ej). now destruct (String.eqb c c').
Qed.

Lemma concat_rect a b : rect (concat a b).
Proof.
  unfold rect, concat. cbn [columns rows].
  apply Forall_forall. intros r Hin. apply in_app_or in Hin.
  destruct Hin as [Hin|Hin]; apply in_map_iff in Hin;
    destruct Hin as (r0 & <- & _); unfold reindex; now rewrite length_map.
Qed.

Lemma loc_rect df mask : rect df -> rect (loc df mask).
Proof.
  unfold rect, loc. cbn [columns rows]. intros Hr.
  apply Forall_forall. intros r Hin.
  apply in_map_iff in Hin. destruct Hin as ([r0 b] & <- & Hin).
  apply filter_In in Hin. destruct Hin as [Hin _].
  apply in_combine_l in Hin. rewrite Forall_forall in Hr. now apply Hr.
Qed.

End SetItem.

(* ------------------------------------------------------------------ *)
(** ** Today's usage *)

Section TodaysUsage.

Lemma map_select {A B} (f : A -> B) (l : list A) (m : list bool) :
  map f (map fst (filter snd (combine l m)))
  = map fst (filter snd (combine (map f l) m)).
Proof.
  revert m. induction l as [|a r IH]; intros [|b m]; simpl; try reflexivity.
  destruct b; simpl; now rewrite IH.
Qed.

Lemma select_by_predicate {A B} (g : A -> B) (p : A -> bool) (l : list A) :
  map fst (filter snd (combine (map g l) (map p l))) = map g (filter p l).
Proof.
  induction l as [|a r IH]; simpl; [reflexivity|].
  destruct (p a); simpl; now rewrite IH.
Qed.

Lemma todays_usage_rows df today sd :
  rect df ->
  has_column "start" (columns df) = true ->
  has_column "duration_min" (columns df) = true ->
  to_datetime_col (map (at_col (columns df) "start") (rows df)) = inr sd ->
  todays_usage df today
  = sum (map (at_col (columns df) "duration_min")
             (filter (starts_on today (columns df)) (rows df))).
Proof.
  intros Hr Hs Hd Hsd.
  pose proof (rmap_length _ _ _ Hsd) as Hlen. rewrite length_map in Hlen.
  unfold todays_usage. rewrite (getitem_present _ _ Hs). cbn [rbind].
  rewrite Hsd. cbn [rbind]. unfold today_total.
  rewrite getitem_present by (now rewrite setitem_has_column).
  rewrite (setitem_column df "start_dt" sd "start_dt" Hr Hlen).
  rewrite String.eqb_refl. cbn [rbind].
  rewrite getitem_present
    by (cbn [loc columns]; rewrite setitem_has_column, Hd; apply orb_true_r).
  cbn [rbind loc columns rows]. f_equal.
  rewrite map_select.
  rewrite (setitem_column df "start_dt" sd "duration_min" Hr Hlen).
  change (String.eqb "start_dt" "duration_min") with false. cbv iota.
  rewrite (rmap_values _ NaT _ _ Hsd), map_map.
  rewrite map_map.
  apply (select_by_predicate (at_col (columns df) "duration_min")
                             (fun r => date_eq today (stamp_of (columns df) r))).
Qed.

Lemma concat_column a b c :
  map (at_col (columns (concat a b)) c) (rows (concat a b))
  = (map (at_col (columns a) c) (rows a)
     ++ map (at_col (columns b) c) (rows b))%list.
Proof.
  destruct (in_dec string_dec c (columns (concat a b))) as [Hc|Hc].
  - unfold concat in *. cbn [columns rows] in *.
    rewrite map_app, !map_map. f_equal; apply map_ext; intros r;
      now apply at_col_reindex.
  - assert (Ha : ~ In c (columns a))
      by (intros H; apply Hc, concat_columns_In; now left).
    assert (Hb : ~ In c (columns b))
      by (intros H; apply Hc, concat_columns_In; now right).
    rewrite (map_ext _ (fun _ => NaN) (fun r => at_col_absent _ _ r Hc)).
    rewrite (map_ext _ (fun _ => NaN) (fun r => at_col_absent _ _ r Ha)).
    rewrite (map_ext _ (fun _ => NaN) (fun r => at_col_absent _ _ r Hb)).
    unfold concat. cbn [rows]. rewrite map_app, !map_map.
    reflexivity.
Qed.

Lemma rmap_app {A B} (f : A -> result B) l1 l2 r1 r2 :
  rmap f l1 = inr r1 -> rmap f l2 = inr r2 ->
  rmap f (l1 ++ l2) = inr (r1 ++ r2)%list.
Proof.
  revert r1. induction l1 as [|a l IH]; simpl; intros r1 H1 H2.
  - now injection H1 as <-.
  - unfold rbind in *. destruct (f a); [discriminate|].
    destruct (rmap f l) as [|bs]; [discriminate|].
    injection H1 as <-. now rewrite (IH bs eq_refl H2).
Qed.

Lemma sum_snoc l x t :
  sum l = inr t ->
  exists t', sum (l ++ [Num x]) = inr t' /\ (t' == t + x)%Q.
Proof.
  revert t. induction l as [|c r IH]; simpl; intros t H.
  - injection H as <-. eexists. split; [reflexivity | ring].
  - unfold rbind in *. destruct (summand c) as [|v]; [discriminate|].
    destruct (sum r) as [|y]; [discriminate|]. injection H as <-.
    destruct (IH y eq_refl) as (t' & -> & Ht).
    eexists. split; [reflexivity|]. rewrite Ht. ring.
Qed.

Lemma filter_map_comm {A B} (p : B -> bool) (f : A -> B) (l : list A) :
  filter p (map f l) = map f (filter (fun a => p (f a)) l).
Proof.
  induction l as [|a r IH]; simpl; [reflexivity|].
  destruct (p (f a)); simpl; now rewrite IH.
Qed.

End TodaysUsage.

Section TodaysUsageAdd.

Variables (L : DataFrame) (sid start end_ app cat notes : string) (dur : Q).
Variable ts : datetime.
Hypothesis start_read : strptime start = Some ts.
Hypothesis has_start : has_column "start" (columns L) = true.
Hypothesis has_duration : has_column "duration_min" (columns L) = true.

Let rec := from_record (session_record sid start end_ app cat notes dur).
Let L' := concat L rec.

Lemma added_has_column c :
  has_column c (columns L) = true -> In c (columns L').
Proof.
  intros H. apply concat_columns_In. left. now apply has_column_In.
Qed.

Lemma added_starts_on today r :
  starts_on today (columns L') (reindex (columns L') (columns L) r)
  = starts_on today (columns L) r.
Proof.
  unfold starts_on, stamp_of.
  now rewrite (at_col_reindex _ _ _ _ (added_has_column _ has_start)).
Qed.

Lemma concat_rows a b :
  rows (concat a b)
  = (map (reindex (columns (concat a b)) (columns a)) (rows a)
     ++ map (reindex (columns (concat a b)) (columns b)) (rows b))%list.
Proof. reflexivity. Qed.

Lemma added_selection today :
  map (at_col (columns L') "duration_min")
      (filter (starts_on today (columns L')) (rows L'))
  = (map (at_col (columns L) "duration_min")
         (filter (starts_on today (columns L)) (rows L))
     ++ if date_eqb (date_of ts) today then [Num dur] else [])%list.
Proof.
  pose proof (added_has_column _ has_start) as Hs.
  pose proof (added_has_column _ has_duration) as Hd.
  pose proof added_starts_on as Hon.
  unfold L' in *. rewrite concat_rows.
  set (cols' := columns (concat L rec)) in *.
  rewrite filter_app, map_app. f_equal.
  - rewrite filter_map_comm, map_map.
    rewrite (filter_ext _ _ (Hon today)).
    apply map_ext. intros r. now apply at_col_reindex.
  - change (rows rec) with [map snd (session_record sid start end_ app cat notes dur)].
    cbn [map filter].
    unfold starts_on at 1, stamp_of.
    rewrite (at_col_reindex _ _ _ _ Hs).
    change (at_col (columns rec) "start" _) with (Str start).
    unfold to_datetime_cell, to_datetime. rewrite start_read. cbn [rbind ret].
    change (date_eq today (Stamp ts)) with (date_eqb (date_of ts) today).
    destruct (date_eqb (date_of ts) today); [|reflexivity].
    cbn [map]. now rewrite (at_col_reindex _ _ _ _ Hd).
Qed.

Lemma added_starts_read sd :
  to_datetime_col (map (at_col (columns L) "start") (rows L)) = inr sd ->
  to_datetime_col (map (at_col (columns L') "start") (rows L'))
  = inr (sd ++ [Stamp ts])%list.
Proof.
  intros H. unfold L'. rewrite concat_column.
  apply rmap_app; [exact H|].
  cbn. unfold to_datetime. now rewrite start_read.
Qed.

End TodaysUsageAdd.

Section DailyLimitBlock.

Lemma todays_usage_starts df today t :
  has_column "start" (columns df) = true ->
  todays_usage df today = inr t ->
  exists sd,
    to_datetime_col (map (at_col (columns df) "start") (rows df)) = inr sd.
Proof.
  intros Hs H. unfold todays_usage in H.
  rewrite (getitem_present _ _ Hs) in H. cbn [rbind] in H.
  destruct (to_datetime_col _) as [e|sd]; [discriminate|]. now exists sd.
Qed.

Lemma bind_inr {A B} (m : M A) (f : A -> M B) s a s1 o1 r s2 o2 :
  m s = (inr a, s1, o1) -> f a s1 = (r, s2, o2) ->
  bind m f s = (r, s2, (o1 ++ o2)%list).
Proof. intros Hm Hf. unfold bind. now rewrite Hm, Hf. Qed.

Lemma bind_inl {A B} (m : M A) (f : A -> M B) s e s1 o1 :
  m s = (inl e, s1, o1) -> bind m f s = (inl e, s1, o1).
Proof. intros Hm. unfold bind. now rewrite Hm. Qed.

Lemma ledger_same_sessions s l d :
  ledger (mkstate (sessions s) l d) = ledger s.
Proof. reflexivity. Qed.

(** What the "Daily Limit Alert" block shows on a ledger that is not empty:
    today's total next to the limit, then the banner. *)
Lemma daily_limit_alert_shows s i t :
  empty (ledger s) = false ->
  todays_usage (ledger s) (date_of (now i)) = inr t ->
  shown (daily_limit_alert i) s
  = st_limit_metric t (limit_box i) :: limit_banner t (limit_box i)
  /\ outcome (daily_limit_alert i) s = inr tt.
Proof.
  intros He Ht.
  unfold todays_usage in Ht.
  destruct (rbind (getitem (ledger s) "start") to_datetime_col) as [e|sd] eqn:Esd;
    [discriminate|].
  cbn [rbind] in Ht.
  assert (H : exists s' o,
             daily_limit_alert i s = (inr tt, s', o)
             /\ o = st_limit_metric t (limit_box i)
                    :: limit_banner t (limit_box i)).
  { do 2 eexists. split.
    - unfold daily_limit_alert.
      eapply bind_inr; [reflexivity|].
      eapply bind_inr; [apply load_sessions_run|].
      rewrite !ledger_same_sessions, He. cbn [negb when].
      eapply bind_inr; [unfold lift; rewrite Esd; reflexivity|].
      eapply bind_inr; [reflexivity|].
      eapply bind_inr; [unfold lift; rewrite Ht; reflexivity|].
      eapply bind_inr; reflexivity.
    - reflexivity. }
  destruct H as (s' & o & H & ->). unfold shown, outcome. rewrite H. auto.
Qed.

End DailyLimitBlock.



Example limit_block_example :
  (exists t, shown (daily_limit_alert evening) one_session_state
             = [st_limit_metric t 240] /\ (t == 25)%Q)
  /\ (exists t, shown (daily_limit_alert evening) usage_205
                = [st_limit_metric t 240;
                   st_warning "You are close to your daily limit."]
                /\ (t == 205)%Q)
  /\ (exists t, shown (daily_limit_alert evening) usage_245
                = [st_limit_metric t 240;
                   st_error "You have exceeded your daily limit!"]
                /\ (t == 245)%Q).
Proof.
  repeat split; eexists; (split; [vm_compute; reflexivity | reflexivity]).
Qed.

(* ------------------------------------------------------------------ *)
(** ** A program logic for the steps of the script *)

Section ProgramLogic.

Context {A B : Type}.

Lemma hoare_bind (P : session_state -> Prop) (m : M A) (f : A -> M B) Q R E :
  hoare P m Q E -> (forall a, hoare (Q a) (f a) R E) ->
  hoare P (bind m f) R E.
Proof.
  intros Hm Hf s HP. specialize (Hm s HP). unfold bind.
  destruct (m s) as [[[e|a] s1] o1]; [exact Hm|].
  specialize (Hf a s1 Hm). destruct (f a s1) as [[[e|b] s2] o2]; exact Hf.
Qed.

Lemma hoare_conseq (P P' : session_state -> Prop) (m : M A)
      (Q Q' : A -> session_state -> Prop) (E E' : session_state -> Prop) :
  hoare P m Q E ->
  (forall s, P' s -> P s) -> (forall a s, Q a s -> Q' a s) ->
  (forall s, E s -> E' s) ->
  hoare P' m Q' E'.
Proof.
  intros H HP HQ HE s Hs. specialize (H s (HP s Hs)).
  destruct (m s) as [[[e|a] s1] o1]; auto.
Qed.

Lemma hoare_lift (P : session_state -> Prop) (r : result A) E :
  (forall s, P s -> E s) ->
  hoare P (lift r) (fun a s => P s /\ r = inr a) E.
Proof. intros HE s HP. unfold lift. destruct r; auto. Qed.

Lemma hoare_pure (P : session_state -> Prop) (a : A) E :
  hoare P (pure a) (fun _ s => P s) E.
Proof. intros s HP. exact HP. Qed.

Lemma hoare_state_after (P R : session_state -> Prop) (m : M A) Q E :
  hoare P m Q E -> (forall a s, Q a s -> R s) -> (forall s, E s -> R s) ->
  forall s, P s -> R (state_after m s).
Proof.
  intros H HQ HE s HP. specialize (H s HP). unfold state_after.
  destruct (m s) as [[[e|a] s1] o1]; simpl; eauto.
Qed.

End ProgramLogic.

Section ProgramLogicSteps.

Lemma hoare_show (P : session_state -> Prop) u E :
  hoare P (show u) (fun _ s => P s) E.
Proof. intros s HP. exact HP. Qed.

Lemma hoare_when (P : session_state -> Prop) (b : bool) (m : M unit) Q E :
  (b = true -> hoare P m Q E) -> (b = false -> forall s, P s -> Q tt s) ->
  hoare P (when b m) Q E.
Proof.
  intros Ht Hf. destruct b; simpl.
  - now apply Ht.
  - intros s HP. now apply Hf.
Qed.

(** A predicate on the ledger alone is kept by [load_sessions], which hands
    out the ledger of the state. *)
Lemma hoare_load_sessions (I : DataFrame -> Prop) E :
  hoare (fun s => I (ledger s)) load_sessions
        (fun df s => I (ledger s) /\ ledger s = df) E.
Proof.
  intros s HI. rewrite load_sessions_run. rewrite ledger_stored. auto.
Qed.

Lemma hoare_set_sessions (P : session_state -> Prop) (I : DataFrame -> Prop) df E :
  I df -> hoare P (set_sessions df) (fun _ s => I (ledger s) /\ ledger s = df) E.
Proof. intros HI s _. simpl. auto. Qed.

Lemma hoare_set_live (I : DataFrame -> Prop) l E :
  hoare (fun s => I (ledger s)) (set_live l) (fun _ s => I (ledger s)) E.
Proof. intros s HI. exact HI. Qed.

Lemma hoare_get_live (P : session_state -> Prop) E :
  hoare P get_live (fun _ s => P s) E.
Proof. intros s HP. exact HP. Qed.

Lemma hoare_set_daily_limit (I : DataFrame -> Prop) n E :
  hoare (fun s => I (ledger s)) (set_daily_limit n) (fun _ s => I (ledger s)) E.
Proof. intros s HI. exact HI. Qed.

End ProgramLogicSteps.

(* ------------------------------------------------------------------ *)
(** ** Identifiers *)

Section Identifiers.

Lemma distinct_within_mono X X' df :
  incl X X' -> distinct_within X df -> distinct_within X' df.
Proof.
  intros Hi (Hr & Hn & Hs). repeat split; try assumption.
  intros c Hc. auto.
Qed.

Lemma ids_concat a b : ids (concat a b) = (ids a ++ ids b)%list.
Proof. apply concat_column. Qed.

Lemma distinct_within_concat X a b :
  distinct_within X a -> NoDup (ids b) ->
  (forall c, In c (ids b) -> ~ In c X) ->
  distinct_within (X ++ ids b) (concat a b).
Proof.
  intros (Hr & Hn & Hs) Hb Hd. split; [apply concat_rect|].
  rewrite ids_concat. split.
  - apply NoDup_app; try assumption.
    intros c Hc Hcb. apply (Hd c Hcb). auto.
  - apply incl_app_app; [assumption | apply incl_refl].
Qed.

Lemma ids_setitem df c v :
  rect df -> List.length v = List.length (rows df) ->
  String.eqb c "id" = false ->
  ids (setitem df c v) = ids df.
Proof.
  intros Hr Hl Hc. unfold ids.
  rewrite (setitem_column df c v "id" Hr Hl). now rewrite Hc.
Qed.

Lemma distinct_within_setitem X df c v :
  List.length v = List.length (rows df) ->
  String.eqb c "id" = false ->
  distinct_within X df -> distinct_within X (setitem df c v).
Proof.
  intros Hl Hc (Hr & Hn & Hs). split; [now apply setitem_rect|].
  now rewrite (ids_setitem df c v Hr Hl Hc).
Qed.

Lemma select_In {A} (l : list A) (m : list bool) x :
  In x (map fst (filter snd (combine l m))) -> In x l.
Proof.
  revert m. induction l as [|a r IH]; intros [|b m]; simpl; try contradiction.
  destruct b; simpl; [intros [H|H]; eauto | eauto].
Qed.

Lemma select_NoDup {A} (l : list A) (m : list bool) :
  NoDup l -> NoDup (map fst (filter snd (combine l m))).
Proof.
  intros H. revert m. induction H as [|a r Ha Hr IH]; intros [|b m]; simpl;
    try constructor.
  destruct b; simpl; [|apply IH].
  constructor; [|apply IH]. intros Hin. apply Ha. eapply select_In; eauto.
Qed.

Lemma distinct_within_loc X df mask :
  distinct_within X df -> distinct_within X (loc df mask).
Proof.
  intros (Hr & Hn & Hs). split; [now apply loc_rect|].
  unfold ids, loc. cbn [columns rows]. rewrite map_select. split.
  - now apply select_NoDup.
  - intros c Hc. apply Hs. eapply select_In; eauto.
Qed.

Lemma to_datetime_col_length df c sd :
  rbind (getitem df c) to_datetime_col = inr sd ->
  List.length sd = List.length (rows df).
Proof.
  unfold getitem. destruct (has_column c (columns df)); [|discriminate].
  cbn [rbind ret]. intros H. apply rmap_length in H. now rewrite length_map in H.
Qed.

End Identifiers.

(* ------------------------------------------------------------------ *)
(** ** The blocks of the script keep the identifiers distinct *)

Section Readonly.

Context {A B : Type}.

Lemma readonly_lift (r : result A) : readonly (lift r).
Proof. intros s. reflexivity. Qed.

Lemma readonly_pure (a : A) : readonly (pure a).
Proof. intros s. reflexivity. Qed.

Lemma readonly_bind (m : M A) (f : A -> M B) :
  readonly m -> (forall a, readonly (f a)) -> readonly (bind m f).
Proof.
  intros Hm Hf s. unfold bind. specialize (Hm s).
  destruct (m s) as [[[e|a] s1] o1]; simpl in *; [exact Hm|].
  subst s1. specialize (Hf a s). destruct (f a s) as [[r s2] o2]. exact Hf.
Qed.

Lemma hoare_readonly (P : session_state -> Prop) (m : M A)
      (Q : A -> session_state -> Prop) E :
  readonly m -> (forall a s, P s -> Q a s) -> (forall s, P s -> E s) ->
  hoare P m Q E.
Proof.
  intros Hm HQ HE s HP. specialize (Hm s).
  destruct (m s) as [[[e|a] s1] o1]; simpl in *; subst s1; auto.
Qed.

End Readonly.

Lemma readonly_show u : readonly (show u).
Proof. intros s. reflexivity. Qed.

Ltac readonly_steps :=
  repeat first
    [ apply readonly_show | apply readonly_lift | apply readonly_pure
    | apply readonly_bind; [| intros ?] ].

Section ContinuationRules.

Context {B : Type}.
Variables (R : B -> session_state -> Prop) (E : session_state -> Prop).

Lemma hoare_bind_lift {A} (P : session_state -> Prop) (r : result A)
      (f : A -> M B) :
  (forall s, P s -> E s) ->
  (forall a, r = inr a -> hoare P (f a) R E) ->
  hoare P (bind (lift r) f) R E.
Proof.
  intros HE Hf s HP. unfold bind, lift.
  destruct r as [e|a]; [now apply HE|].
  specialize (Hf a eq_refl s HP). destruct (f a s) as [[[e|b] s2] o2]; exact Hf.
Qed.

Lemma hoare_bind_show (P : session_state -> Prop) u (f : unit -> M B) :
  hoare P (f tt) R E -> hoare P (bind (show u) f) R E.
Proof.
  intros Hf s HP. unfold bind, show, ret.
  specialize (Hf s HP). destruct (f tt s) as [[[e|b] s2] o2]; exact Hf.
Qed.

Lemma hoare_bind_load (I : DataFrame -> Prop) (f : DataFrame -> M B) :
  (forall df, hoare (fun s => I (ledger s) /\ ledger s = df) (f df) R E) ->
  hoare (fun s => I (ledger s)) (bind load_sessions f) R E.
Proof.
  intros Hf. eapply hoare_bind; [apply (hoare_load_sessions I)|]. exact Hf.
Qed.

Lemma hoare_bind_setitem X df c v (f : DataFrame -> M B) :
  String.eqb c "id" = false ->
  List.length v = List.length (rows df) ->
  (forall df', hoare (fun s => keeps X s /\ ledger s = df') (f df') R E) ->
  hoare (fun s => keeps X s /\ ledger s = df)
        (bind (setitem_in_place df c v) f) R E.
Proof.
  intros Hc Hl Hf.
  apply hoare_bind with (Q := fun df' s => keeps X s /\ ledger s = df');
    [|exact Hf].
  intros s [HK <-]. cbn. unfold keeps. rewrite ledger_stored.
  split; [now apply distinct_within_setitem | reflexivity].
Qed.

End ContinuationRules.

Section Blocks.

Variable X : list cell.

Lemma add_session_fail s sid start end_ app cat notes e :
  duration_minutes start end_ = inl e ->
  add_session sid start end_ app cat notes s
  = (inl e, mkstate (Some (ledger s)) (live s) (daily_limit s), []).
Proof.
  intros Hd. unfold add_session, bind. rewrite load_sessions_run.
  unfold lift. rewrite Hd. reflexivity.
Qed.

Lemma hoare_add_session sid start end_ app cat notes :
  ~ In (Str sid) X ->
  hoare (keeps X) (add_session sid start end_ app cat notes)
        (fun _ => keeps (Str sid :: X)) (keeps (Str sid :: X)).
Proof.
  intros Hfresh s HK. unfold keeps in *.
  destruct (duration_minutes start end_) as [e|d] eqn:Ed.
  - rewrite (add_session_fail _ _ _ _ _ _ _ _ Ed). rewrite ledger_stored.
    apply (distinct_within_mono X); [apply incl_tl, incl_refl | exact HK].
  - rewrite (add_session_run _ _ _ _ _ _ _ _ Ed). rewrite ledger_stored.
    apply (distinct_within_mono (X ++ [Str sid])).
    { intros c Hc. apply in_app_or in Hc. destruct Hc as [Hc|[<-|[]]];
        [now right | now left]. }
    apply (distinct_within_concat X (ledger s)
             (from_record (session_record sid start end_ app cat notes (round2 d)))
             HK).
    + repeat constructor. intros [].
    + intros c [<-|[]]. exact Hfresh.
Qed.

Lemma hoare_usage_analytics i :
  hoare (keeps X) (usage_analytics i) (fun _ => keeps X) (keeps X).
Proof.
  unfold usage_analytics. apply (hoare_bind_load _ _ (distinct_within X)).
  intros df. destruct (empty df).
  { intros s [HK _]. exact HK. }
  apply hoare_bind_lift; [now intros s [HK _]|]. intros sd Hsd.
  apply hoare_bind_setitem;
    [reflexivity | now apply to_datetime_col_length in Hsd |]. intros df1.
  apply hoare_bind_lift; [now intros s [HK _]|]. intros ed Hed.
  apply hoare_bind_setitem;
    [reflexivity | now apply to_datetime_col_length in Hed |]. intros df2.
  apply hoare_readonly; [readonly_steps | now intros _ s [HK _] | now intros s [HK _]].
Qed.

Lemma hoare_export_button i :
  hoare (keeps X) (export_button i) (fun _ => keeps X) (keeps X).
Proof.
  unfold export_button. apply hoare_when; [intros _ | now intros _ s HK].
  apply (hoare_bind_load _ _ (distinct_within X)). intros df.
  destruct (empty df); intros s [HK _]; exact HK.
Qed.

Lemma hoare_daily_limit_alert i :
  hoare (keeps X) (daily_limit_alert i) (fun _ => keeps X) (keeps X).
Proof.
  unfold daily_limit_alert.
  eapply hoare_bind; [apply (hoare_set_daily_limit (distinct_within X))|].
  intros []. cbv beta.
  apply (hoare_bind_load _ _ (distinct_within X)). intros df.
  apply hoare_when; [intros _ | now intros _ s [HK _]].
  apply hoare_bind_lift; [now intros s [HK _]|]. intros sd Hsd.
  apply hoare_bind_setitem;
    [reflexivity | now apply to_datetime_col_length in Hsd |]. intros df1.
  apply hoare_bind_lift; [now intros s [HK _]|]. intros total _.
  apply hoare_bind_show. intros s [HK _]. exact HK.
Qed.

Lemma hoare_sessions_table i :
  hoare (keeps X) (sessions_table i) (fun _ => keeps X) (keeps X).
Proof.
  unfold sessions_table. apply (hoare_bind_load _ _ (distinct_within X)).
  intros df. destruct (empty df).
  { intros s [HK _]. exact HK. }
  apply hoare_bind_show.
  apply hoare_when; [intros _ | now intros _ s [HK _]].
  destruct (Py.truthy (Py.strip (delete_id i))).
  - apply hoare_bind_lift; [now intros s [HK _]|]. intros l _.
    intros s [HK <-]. cbn. unfold keeps. rewrite ledger_stored.
    now apply distinct_within_loc.
  - intros s [HK _]. exact HK.
Qed.

End Blocks.

Section Script.

Variables (X0 : list cell) (i : inputs).
Hypothesis fresh : ~ In (Str (uuid4 i)) X0.
Hypothesis imported_distinct : NoDup (imported_ids i).
Hypothesis imported_new :
  forall c, In c (imported_ids i) -> c <> Str (uuid4 i) /\ ~ In c X0.

Let X1 := Str (uuid4 i) :: X0.
Let Xf := (X1 ++ imported_ids i)%list.

Lemma keeps_X0_X1 s : keeps X0 s -> keeps X1 s.
Proof. apply distinct_within_mono. apply incl_tl, incl_refl. Qed.

Lemma keeps_X1_Xf s : keeps X1 s -> keeps Xf s.
Proof. apply distinct_within_mono. apply incl_appl, incl_refl. Qed.

Lemma pressed_one a b :
  pressed i a = true -> a <> b -> pressed i b = false.
Proof.
  unfold pressed. destruct (clicked i) as [c|]; [|discriminate].
  destruct c, a, b; simpl; congruence.
Qed.

Lemma hoare_add_session_button :
  hoare (keeps X0) (add_session_button i)
        (fun _ s => keeps X1 s /\ (pressed i AddSession = false -> keeps X0 s))
        (keeps X1).
Proof.
  unfold add_session_button. apply hoare_when.
  - intros Hp. destruct (leb (end_time i) (start_time i)).
    + intros s HK. split; [now apply keeps_X0_X1 | congruence].
    + eapply hoare_bind; [apply hoare_add_session; exact fresh|].
      intros [] s HK. split; [exact HK | congruence].
  - intros _ s HK. split; [now apply keeps_X0_X1 | auto].
Qed.

Lemma hoare_live_timer :
  hoare (fun s => keeps X1 s /\ (pressed i AddSession = false -> keeps X0 s))
        (live_timer i) (fun _ => keeps X1) (keeps X1).
Proof.
  unfold live_timer.
  eapply hoare_bind; [apply hoare_get_live|]. intros l.
  apply hoare_bind with (Q := fun _ => keeps X1).
  - destruct l as [t0|].
    + apply hoare_when; [intros Hp | now intros _ s [HK _]].
      assert (Ha : pressed i AddSession = false)
        by (apply (pressed_one StopLive); [exact Hp | discriminate]).
      apply hoare_bind with (Q := fun _ => keeps X0).
      * intros s [_ HK]. exact (HK Ha).
      * intros []. eapply hoare_bind; [apply hoare_add_session; exact fresh|].
        intros [] s HK. exact HK.
    + apply hoare_when; [intros _ | now intros _ s [HK _]].
      apply hoare_bind with (Q := fun _ => keeps X1).
      * intros s [HK _]. exact HK.
      * intros [] s HK. exact HK.
  - intros []. apply hoare_readonly; [|auto|auto].
    apply readonly_bind; [intros s; reflexivity|].
    intros [t|]; readonly_steps.
Qed.

Lemma hoare_import_csv :
  hoare (keeps X1) (import_csv i) (fun _ => keeps Xf) (keeps Xf).
Proof.
  pose proof imported_distinct as Hd. pose proof imported_new as Hn.
  unfold import_csv. subst Xf. unfold imported_ids in *.
  destruct (uploaded i) as [file|].
  - destruct (read_csv file) as [e|imp].
    + destruct e; intros s HK; apply (distinct_within_mono X1);
        try exact HK; apply incl_appl, incl_refl.
    + apply (hoare_bind_load _ _ (distinct_within X1)). intros cur.
      intros s [HK <-]. cbn. unfold keeps. rewrite ledger_stored.
      apply (distinct_within_concat X1 (ledger s) imp HK Hd).
      intros c Hc [Hx|Hx].
      * destruct (Hn c Hc) as [H _]. congruence.
      * destruct (Hn c Hc) as [_ H]. contradiction.
  - intros s HK. apply (distinct_within_mono X1); [apply incl_appl, incl_refl | exact HK].
Qed.

Lemma hoare_script :
  hoare (keeps X0) (script i) (fun _ => keeps Xf) (keeps Xf).
Proof.
  unfold script.
  eapply hoare_bind.
  { eapply hoare_conseq; [apply hoare_add_session_button | auto | |].
    - intros a s H. exact H.
    - apply keeps_X1_Xf. }
  intros []. eapply hoare_bind.
  { eapply hoare_conseq; [apply hoare_live_timer | auto | |].
    - intros a s H. exact H.
    - apply keeps_X1_Xf. }
  intros []. eapply hoare_bind.
  { eapply hoare_conseq; [apply (hoare_usage_analytics X1) | auto | |].
    - intros a s H. exact H.
    - apply keeps_X1_Xf. }
  intros []. eapply hoare_bind; [apply hoare_import_csv|].
  intros []. eapply hoare_bind; [apply (hoare_export_button Xf)|].
  intros []. eapply hoare_bind; [apply (hoare_daily_limit_alert Xf)|].
  intros []. apply (hoare_sessions_table Xf).
Qed.

End Script.

(* ------------------------------------------------------------------ *)
(** ** Reachable states *)




(* ------------------------------------------------------------------ *)
(** ** Export and import *)

Section RoundTrip.

Lemma built_entries s :
  built s -> exists es, ledger s = mkframe schema (map row_of es).
Proof.
  induction 1 as [|s sid start end_ app cat notes d Hs [es IH] Hd].
  - exists []. reflexivity.
  - exists (es ++ [mkentry sid start end_ app cat notes (round2 d)])%list.
    unfold state_after. rewrite (add_session_run _ _ _ _ _ _ _ _ Hd).
    cbn [fst snd]. rewrite ledger_stored, IH.
    unfold concat. cbn [columns rows from_record].
    change (schema ++ filter _ _)%list with schema.
    f_equal. rewrite map_app, map_map. reflexivity.
Qed.

Lemma to_csv_entries es :
  to_csv (mkframe schema (map row_of es)) = map Text schema :: map line_of es.
Proof.
  unfold to_csv. cbn [columns rows]. f_equal.
  rewrite map_map. apply map_ext. intros e.
  cbn [List.length schema seq map].
  set (c0 := dates_only _). set (c1 := dates_only _). set (c2 := dates_only _).
  set (c3 := dates_only _). set (c4 := dates_only _). set (c5 := dates_only _).
  set (c6 := dates_only _). reflexivity.
Qed.

Lemma lex_text_plain s :
  plain_text s = true ->
  lex_text s = if is_na_text s then LNa else LText.
Proof.
  unfold plain_text, lex_text. destruct (is_na_text s); [reflexivity|].
  destruct (number_of_text s); [discriminate|].
  destruct (is_inf_text s); [discriminate|].
  destruct (bool_of_text s); [discriminate | reflexivity].
Qed.

(** The dtype of a column of plain texts, and what its fields become. *)
Lemma column_kind_texts (f : entry -> string) es :
  (forall e, In e es -> plain_text (f e) = true) ->
  exists k, column_kind (map (fun e => Text (f e)) es) = inr k
            /\ forall e, In e es -> convert k (Text (f e)) = readback (Str (f e)).
Proof.
  intros Hp. unfold column_kind. rewrite !map_map. cbn [lex].
  set (ls := map (fun e => lex_text (f e)) es).
  assert (Hls : Forall (fun l => l = LNa \/ l = LText) ls).
  { apply Forall_forall. intros l Hl. apply in_map_iff in Hl.
    destruct Hl as (e & <- & He). rewrite (lex_text_plain _ (Hp e He)).
    destruct (is_na_text (f e)); auto. }
  assert (H2 : forallb (fun l => match l with LNa | LNum _ | LInf => true | _ => false end) ls
               = forallb (fun l => match l with LNa | LNum _ => true | _ => false end) ls).
  { clear -Hls. induction Hls as [|l r [->| ->] _ IH]; simpl; auto. }
  assert (H3 : forallb (fun l => match l with LNa | LBool _ => true | _ => false end) ls
               = forallb (fun l => match l with LNa | LNum _ => true | _ => false end) ls).
  { clear -Hls. induction Hls as [|l r [->| ->] _ IH]; simpl; auto. }
  rewrite H2, H3.
  destruct (forallb (fun l => match l with LNa | LNum _ => true | _ => false end) ls)
    eqn:E1.
  - exists KNum. split; [reflexivity|]. intros e He.
    rewrite forallb_forall in E1.
    specialize (E1 (lex_text (f e))
                 (in_map (fun e => lex_text (f e)) es e He)).
    unfold convert, readback. cbn [lex].
    rewrite (lex_text_plain _ (Hp e He)) in E1 |- *.
    destruct (is_na_text (f e)); [reflexivity | discriminate].
  - assert (Ht : forallb is_text_field (map (fun e => Text (f e)) es) = true).
    { apply forallb_forall. intros x Hx. apply in_map_iff in Hx.
      destruct Hx as (e & <- & _). reflexivity. }
    rewrite Ht. exists KText. split; [reflexivity|]. intros e He.
    unfold convert, readback. cbn [lex].
    rewrite (lex_text_plain _ (Hp e He)).
    destruct (is_na_text (f e)); reflexivity.
Qed.

Lemma column_kind_numbers (g : entry -> Q) es :
  column_kind (map (fun e => Number (g e)) es) = inr KNum.
Proof.
  unfold column_kind. rewrite map_map. cbn [lex].
  replace (forallb _ (map (fun e => LNum (g e)) es)) with true; [reflexivity|].
  symmetry. apply forallb_forall. intros l Hl. apply in_map_iff in Hl.
  destruct Hl as (e & <- & _). reflexivity.
Qed.

End RoundTrip.

Section RoundTripRead.

Lemma filter_map_all {A B} (p : B -> bool) (f : A -> B) (l : list A) :
  (forall a, p (f a) = true) -> filter p (map f l) = map f l.
Proof.
  intros H. induction l as [|a r IH]; simpl; [reflexivity|].
  now rewrite H, IH.
Qed.

Lemma existsb_map_none {A B} (p : B -> bool) (f : A -> B) (l : list A) :
  (forall a, p (f a) = false) -> existsb p (map f l) = false.
Proof.
  intros H. induction l as [|a r IH]; simpl; [reflexivity|].
  now rewrite H, IH.
Qed.

Lemma plain_entry_fields e :
  plain_entry e = true ->
  plain_text (e_id e) = true /\ plain_text (e_start e) = true
  /\ plain_text (e_end e) = true /\ plain_text (e_app e) = true
  /\ plain_text (e_category e) = true /\ plain_text (e_notes e) = true.
Proof.
  unfold plain_entry. intros H.
  repeat (apply andb_prop in H; destruct H as [H ?]). auto 10.
Qed.

Lemma first_line_check {R} (data : list (list field)) (h : nat) (X Y Z : R) :
  (forall l, In l data -> (List.length l <= h)%nat) ->
  (data = [] -> Y = Z) ->
  match data with
  | first :: _ => if (h <? List.length first)%nat then X else Y
  | [] => Z
  end = Y.
Proof.
  intros Hl He. destruct data as [|first rest]; [symmetry; now apply He|].
  specialize (Hl first (or_introl eq_refl)).
  destruct (Nat.ltb_spec h (List.length first)); [lia | reflexivity].
Qed.

(** What [read_csv] makes of the export of a ledger of plain entries. *)
Lemma read_csv_entries es :
  (forall e, In e es -> plain_entry e = true) ->
  read_csv (map Text schema :: map line_of es)
  = inr (mkframe schema (map (fun e => map readback (row_of e)) es)).
Proof.
  intros Hp.
  destruct (column_kind_texts e_id es) as (k0 & Hk0 & Hc0);
    [intros e He; apply (plain_entry_fields e (Hp e He))|].
  destruct (column_kind_texts e_start es) as (k1 & Hk1 & Hc1);
    [intros e He; apply (plain_entry_fields e (Hp e He))|].
  destruct (column_kind_texts e_end es) as (k2 & Hk2 & Hc2);
    [intros e He; apply (plain_entry_fields e (Hp e He))|].
  destruct (column_kind_texts e_app es) as (k3 & Hk3 & Hc3);
    [intros e He; apply (plain_entry_fields e (Hp e He))|].
  destruct (column_kind_texts e_category es) as (k4 & Hk4 & Hc4);
    [intros e He; apply (plain_entry_fields e (Hp e He))|].
  destruct (column_kind_texts e_notes es) as (k5 & Hk5 & Hc5);
    [intros e He; apply (plain_entry_fields e (Hp e He))|].
  pose proof (column_kind_numbers e_duration es) as Hk6.
  unfold read_csv.
  change (filter (fun l => negb (blank l)) (map Text schema :: map line_of es))
    with (map Text schema :: filter (fun l => negb (blank l)) (map line_of es)).
  rewrite filter_map_all by reflexivity.
  change (rmap header_name (map Text schema)) with (@inr exn _ schema).
  cbn [rbind]. change (distinct schema) with true. cbn [negb].
  change (List.length schema) with 7%nat.
  rewrite (first_line_check (map line_of es) 7).
  2:{ intros l Hl. apply in_map_iff in Hl. destruct Hl as (e & <- & _).
      simpl. lia. }
  2:{ intros He. destruct es; [reflexivity | discriminate]. }
  rewrite existsb_map_none by reflexivity.
  rewrite (map_map line_of (pad 7)).
  rewrite (map_ext (fun e => pad 7 (line_of e)) line_of) by reflexivity.
  cbn [seq rmap]. rewrite !map_map.
  change (fun x => nth 0 (line_of x) (Text "")) with (fun x => Text (e_id x)).
  change (fun x => nth 1 (line_of x) (Text "")) with (fun x => Text (e_start x)).
  change (fun x => nth 2 (line_of x) (Text "")) with (fun x => Text (e_end x)).
  change (fun x => nth 3 (line_of x) (Text "")) with (fun x => Text (e_app x)).
  change (fun x => nth 4 (line_of x) (Text "")) with (fun x => Text (e_category x)).
  change (fun x => nth 5 (line_of x) (Text "")) with (fun x => Text (e_notes x)).
  change (fun x => nth 6 (line_of x) (Text "")) with (fun x => Number (e_duration x)).
  rewrite Hk0, Hk1, Hk2, Hk3, Hk4, Hk5, Hk6. cbn [rbind ret].
  unfold ret. rewrite map_map. do 2 f_equal. apply map_ext_in. intros e He.
  cbn [line_of combine map fst snd row_of].
  rewrite (Hc0 e He), (Hc1 e He), (Hc2 e He), (Hc3 e He), (Hc4 e He), (Hc5 e He).
  reflexivity.
Qed.

End RoundTripRead.

Section RoundTripImport.

Lemma import_csv_run s i file imp :
  uploaded i = Some file -> read_csv file = inr imp ->
  import_csv i s
  = (inr tt,
     mkstate (Some (concat (ledger s) imp)) (live s) (daily_limit s),
     [st_success "Data imported successfully."]).
Proof.
  intros Hu Hr. unfold import_csv. rewrite Hu, Hr.
  unfold bind. rewrite load_sessions_run. reflexivity.
Qed.

Lemma concat_onto_empty es (f : entry -> list cell) :
  (forall e, exists a b c d g h k, f e = [a; b; c; d; g; h; k]) ->
  concat (new_frame schema) (mkframe schema (map f es))
  = mkframe schema (map f es).
Proof.
  intros Hf. unfold concat. cbn [columns rows new_frame map app].
  change (schema ++ filter _ _)%list with schema. f_equal.
  rewrite map_map. apply map_ext. intros e.
  destruct (Hf e) as (a & b & c & d & g & h & k & ->). reflexivity.
Qed.

Lemma map_readback_id r :
  (forall t, In (Str t) r -> is_na_text t = false) -> map readback r = r.
Proof.
  induction r as [|c r IH]; simpl; intros H; [reflexivity|].
  rewrite IH by (intros t Ht; apply H; now right).
  destruct c; try reflexivity. simpl. now rewrite (H s (or_introl eq_refl)).
Qed.

Lemma plain_row_entry e :
  (forall t, In (Str t) (row_of e) -> plain_text t = true) ->
  plain_entry e = true.
Proof.
  intros H. unfold plain_entry.
  rewrite !(H _) by (simpl; auto 10). reflexivity.
Qed.

End RoundTripImport.

(** C6, as the code has it.  [read_csv] takes the empty text and the other
    missing-value tokens for a missing value.  For every ledger built by
    [add_session] from the empty one, none of whose texts is a number, an
    infinity or a boolean for [read_csv]: importing its export into an empty
    ledger returns normally and gives the same columns and the same number of
    records, each value read back as itself except that a text which is a
    missing-value token comes back as [NaN]; when no text of the ledger is
    such a token, the ledger that comes back is the one that was exported. *)
Theorem export_import_roundtrip (s s0 : session_state) (i : inputs) :
  built s ->
  Forall (fun r => forall t, In (Str t) r -> plain_text t = true)
         (rows (ledger s)) ->
  ledger s0 = new_frame schema ->
  uploaded i = Some (export_csv (ledger s)) ->
  let m := import_csv i in
  let back := ledger (state_after m s0) in
  outcome m s0 = inr tt
  /\ columns back = columns (ledger s)
  /\ List.length (rows back) = List.length (rows (ledger s))
  /\ rows back = map (map readback) (rows (ledger s))
  /\ (Forall (fun r => forall t, In (Str t) r -> is_na_text t = false)
             (rows (ledger s)) ->
      back = ledger s).
Proof.
  intros Hb Hp H0 Hu m back. subst m back.
  destruct (built_entries s Hb) as (es & Hes). rewrite Hes in *.
  cbn [columns rows] in *.
  assert (Hpe : forall e, In e es -> plain_entry e = true).
  { intros e He. apply plain_row_entry. rewrite Forall_forall in Hp.
    apply Hp. now apply in_map. }
  unfold export_csv in Hu. rewrite to_csv_entries in Hu.
  pose proof (import_csv_run s0 i _ _ Hu (read_csv_entries es Hpe)) as Hrun.
  unfold outcome, state_after. rewrite Hrun. cbn [fst snd].
  rewrite ledger_stored, H0.
  rewrite (concat_onto_empty es (fun e => map readback (row_of e)))
    by (intros e; repeat eexists).
  cbn [columns rows]. rewrite !length_map, map_map.
  repeat split.
  intros Hna. f_equal. apply map_ext_in. intros e He.
  apply map_readback_id. rewrite Forall_forall in Hna. apply Hna.
  now apply in_map.
Qed.

(** C6 on a one-session ledger with a note: it comes back as it
    was. *)
Lemma export_import_roundtrip_witness :
  let i := with_uploaded (export_csv (ledger noted_state)) sample_inputs in
  outcome (import_csv i) initial_state = inr tt
  /\ ledger (state_after (import_csv i) initial_state) = ledger noted_state.
Proof.
  intros i.
  assert (Hb : built noted_state).
  { unfold noted_state. eapply built_add; [apply built_initial | reflexivity]. }
  assert (Hp : Forall (fun r => forall t, In (Str t) r -> plain_text t = true)
                      (rows (ledger noted_state))).
  { repeat constructor. intros t Ht. simpl in Ht.
    repeat (destruct Ht as [Ht|Ht];
            [try discriminate; injection Ht as <-; reflexivity|]).
    destruct Ht. }
  assert (Hn : Forall (fun r => forall t, In (Str t) r -> is_na_text t = false)
                      (rows (ledger noted_state))).
  { repeat constructor. intros t Ht. simpl in Ht.
    repeat (destruct Ht as [Ht|Ht];
            [try discriminate; injection Ht as <-; reflexivity|]).
    destruct Ht. }
  destruct (export_import_roundtrip noted_state initial_state i Hb Hp
              eq_refl eq_refl) as (Ho & _ & _ & _ & Hback).
  split; [exact Ho | exact (Hback Hn)].
Defined.

(** C6 fails in general: the ledger after one session with the default, empty
    notes is exported and imported into the empty ledger.  The import
    succeeds, but the record's notes come back as [NaN], not as the empty
    text: the ledger is not reproduced. *)
Lemma roundtrip_empty_notes_counterexample :
  let original := ledger one_session_state in
  let i := with_uploaded (export_csv original) sample_inputs in
  let back := ledger (state_after (import_csv i) initial_state) in
  built one_session_state
  /\ outcome (import_csv i) initial_state = inr tt
  /\ value_at original 0 "notes" = Str ""
  /\ value_at back 0 "notes" = NaN
  /\ back <> original.
Proof.
  split.
  { unfold one_session_state. eapply built_add; [apply built_initial | reflexivity]. }
  split; [reflexivity|]. split; [reflexivity|]. split; [reflexivity|].
  vm_compute. discriminate.
Qed.

(* ------------------------------------------------------------------ *)
(** ** The focus timer *)

Section FocusTimer.

Import Focus.

Lemma inject_Z_lt_inv a b : (inject_Z a < inject_Z b)%Q -> a < b.
Proof. unfold Qlt. simpl. lia. Qed.

(** Minutes and seconds of a positive number of seconds. *)
Lemma minutes_seconds_split (x : Q) :
  (0 < x)%Q ->
  0 <= whole_minutes x /\ 0 <= odd_seconds x <= 59
  /\ (inject_Z (60 * whole_minutes x + odd_seconds x) <= x)%Q
  /\ (x < inject_Z (60 * whole_minutes x + odd_seconds x) + 1)%Q.
Proof.
  intros Hx. unfold odd_seconds. set (m := whole_minutes x).
  assert (Hm1 : (inject_Z m <= x / 60)%Q) by apply Qfloor_le.
  assert (Hm2 : (x / 60 < inject_Z m + 1)%Q).
  { pose proof (Qlt_floor (x / 60)) as H. rewrite inject_Z_plus in H. exact H. }
  assert (Hx60 : (x == (x / 60) * 60)%Q) by (field).
  set (y := (x - 60 * inject_Z m)%Q).
  assert (Hy1 : (0 <= y)%Q) by (unfold y; lra).
  assert (Hy2 : (y < 60)%Q) by (unfold y; lra).
  assert (Hs1 : (inject_Z (Qfloor y) <= y)%Q) by apply Qfloor_le.
  assert (Hs2 : (y < inject_Z (Qfloor y) + 1)%Q).
  { pose proof (Qlt_floor y) as H. rewrite inject_Z_plus in H. exact H. }
  assert (Hm0 : 0 <= m).
  { change 0 with (Qfloor 0). apply Qfloor_resp_le.
    apply Qle_shift_div_l; [reflexivity | lra]. }
  assert (Hs0 : 0 <= Qfloor y).
  { change 0 with (Qfloor 0). now apply Qfloor_resp_le. }
  assert (Hs59 : Qfloor y < 60).
  { apply inject_Z_lt_inv. change (inject_Z 60) with 60%Q. lra. }
  split; [exact Hm0|]. split; [lia|].
  rewrite inject_Z_plus, inject_Z_mult. change (inject_Z 60) with 60%Q.
  unfold y in *. split; lra.
Qed.

Lemma remaining_positive e n :
  n < e -> Qle_bool ((e - n) # 1000000) 0 = false.
Proof.
  intros H. destruct (Qle_bool _ _) eqn:E; [|reflexivity].
  apply Qle_bool_iff in E. unfold Qle in E. simpl in E. lia.
Qed.

Lemma remaining_elapsed e n :
  e <= n -> Qle_bool ((e - n) # 1000000) 0 = true.
Proof. intros H. apply Qle_bool_iff. unfold Qle. simpl. lia. Qed.

End FocusTimer.

(** X1.  While the focus timer runs and its target is still ahead, a rerun
    without the stop button keeps the timer running and shows the remaining
    time as whole minutes and seconds: the seconds lie between 0 and 59 and
    [60 * mins + secs] is the remaining time rounded down to a second. *)
Theorem focus_timer_shows_remaining
  (e focus_mins : Z) (now_start now_check : datetime) :
  to_micros now_check < e ->
  exists mins secs,
    Focus.focus_timer None focus_mins now_start now_check (Some e)
    = (Some e, [Focus.f_metric mins secs])
    /\ 0 <= mins /\ 0 <= secs <= 59
    /\ (inject_Z (60 * mins + secs) <= (e - to_micros now_check) # 1000000)%Q
    /\ ((e - to_micros now_check) # 1000000 < inject_Z (60 * mins + secs) + 1)%Q.
Proof.
  intros H.
  exists (Focus.whole_minutes ((e - to_micros now_check) # 1000000)),
         (Focus.odd_seconds ((e - to_micros now_check) # 1000000)).
  split.
  - unfold Focus.focus_timer. cbv zeta. rewrite (remaining_positive _ _ H).
    reflexivity.
  - apply minutes_seconds_split. unfold Qlt. simpl. lia.
Qed.

(** X1 with 24 minutes 59.5 seconds to go. *)
Lemma focus_timer_shows_remaining_witness :
  exists mins secs,
    Focus.focus_timer None 25 (mkdt 2024 1 1 9 0 0 0) (mkdt 2024 1 1 9 0 0 500000)
                      (Some (to_micros (mkdt 2024 1 1 9 25 0 0)))
    = (Some (to_micros (mkdt 2024 1 1 9 25 0 0)), [Focus.f_metric mins secs])
    /\ 0 <= mins /\ 0 <= secs <= 59.
Proof.
  destruct (focus_timer_shows_remaining
              (to_micros (mkdt 2024 1 1 9 25 0 0)) 25
              (mkdt 2024 1 1 9 0 0 0) (mkdt 2024 1 1 9 0 0 500000))
    as (mins & secs & Hrun & Hm & Hs & _); [vm_compute; reflexivity|].
  exists mins, secs. auto.
Defined.

(** X2.  A focus session started at [t0] for [m] minutes has its target at
    [t0 + m] minutes, whatever the duration box holds in later reruns.  A
    later rerun without a button ends the session with the completion
    message exactly when the clock has reached the target, and keeps it
    running before; the stop button ends it with the stop message only, also
    when the target has passed. *)
Theorem focus_session_lifecycle
  (m m' : Z) (t0 t0' n t : datetime) :
  to_micros t0' < to_micros t0 + Focus.minutes m ->
  let target := to_micros t0 + Focus.minutes m in
  let started := fst (Focus.focus_timer (Some Focus.StartFocus) m t0 t0' None) in
  started = Some target
  /\ (target <= to_micros t ->
      Focus.focus_timer None m' n t started
      = (None, [Focus.f_balloons; Focus.f_success "Focus session completed!"]))
  /\ (to_micros t < target ->
      fst (Focus.focus_timer None m' n t started) = Some target)
  /\ Focus.focus_timer (Some Focus.StopFocus) m' n t started
     = (None, [Focus.f_success "Focus session stopped."]).
Proof.
  intros H target started.
  assert (Hs : started = Some target).
  { subst started target. unfold Focus.focus_timer. cbv beta iota zeta.
    now rewrite (remaining_positive _ _ H). }
  rewrite Hs. split; [reflexivity|]. split; [|split].
  - intros Ht. unfold Focus.focus_timer. cbv zeta.
    now rewrite (remaining_elapsed _ _ Ht).
  - intros Ht. unfold Focus.focus_timer. cbv zeta.
    now rewrite (remaining_positive _ _ Ht).
  - reflexivity.
Qed.

(** X2 for 25 minutes from 09:00: complete at 09:25, running at 09:24. *)
Lemma focus_session_lifecycle_witness :
  let t0 := mkdt 2024 1 1 9 0 0 0 in
  let started := fst (Focus.focus_timer (Some Focus.StartFocus) 25 t0 t0 None) in
  Focus.focus_timer None 5 t0 (mkdt 2024 1 1 9 25 0 0) started
  = (None, [Focus.f_balloons; Focus.f_success "Focus session completed!"])
  /\ fst (Focus.focus_timer None 5 t0 (mkdt 2024 1 1 9 24 0 0) started)
     = Some (to_micros (mkdt 2024 1 1 9 25 0 0)).
Proof.
  pose proof (focus_session_lifecycle 25 5 (mkdt 2024 1 1 9 0 0 0)
                (mkdt 2024 1 1 9 0 0 0) (mkdt 2024 1 1 9 0 0 0)
                (mkdt 2024 1 1 9 25 0 0) ltac:(vm_compute; reflexivity))
    as (_ & Hdone & _).
  pose proof (focus_session_lifecycle 25 5 (mkdt 2024 1 1 9 0 0 0)
                (mkdt 2024 1 1 9 0 0 0) (mkdt 2024 1 1 9 0 0 0)
                (mkdt 2024 1 1 9 24 0 0) ltac:(vm_compute; reflexivity))
    as (_ & _ & Hrun & _).
  split.
  - apply Hdone. vm_compute. discriminate.
  - rewrite Hrun; [reflexivity | vm_compute; reflexivity].
Defined.

(** X3.  The text that [now_str] writes for a clock reading of the years
    1000 to 9999 is read by [pd.to_datetime] as that reading to the second. *)
Theorem now_str_read_back (now : datetime) :
  valid now = true -> 1000 <= year now ->
  to_datetime (Focus.now_str now) = inr (whole_seconds now)
  /\ String.length (Focus.now_str now) = 19%nat.
Proof.
  intros Hv Hy. split.
  - unfold to_datetime, Focus.now_str. now rewrite (strptime_strftime _ Hv Hy).
  - reflexivity.
Qed.

(** X3 at 2024-02-29 23:59:58.75. *)
Lemma now_str_read_back_witness :
  to_datetime (Focus.now_str (mkdt 2024 2 29 23 59 58 750000))
  = inr (mkdt 2024 2 29 23 59 58 0).
Proof.
  exact (proj1 (now_str_read_back (mkdt 2024 2 29 23 59 58 750000)
                  eq_refl ltac:(simpl; lia))).
Defined.

(* ------------------------------------------------------------------ *)
(** ** The recorded duration *)

Section RecordedDuration.

Lemma round_half_even_comp x y :
  (x == y)%Q -> round_half_even x = round_half_even y.
Proof.
  intros H. unfold round_half_even.
  rewrite (Qfloor_comp _ _ H).
  assert (Hc : Qcompare (x - inject_Z (Qfloor y)) (1 # 2)
               = Qcompare (y - inject_Z (Qfloor y)) (1 # 2)).
  { apply Qcompare_comp; [now rewrite H | reflexivity]. }
  now rewrite Hc.
Qed.

(** Thirds are never halfway between two integers. *)
Lemma round_half_even_thirds (a : Z) :
  round_half_even (a # 3) = (2 * a + 3) / 6.
Proof.
  unfold round_half_even.
  change (Qfloor (a # 3)) with (a / 3).
  destruct (Qcompare ((a # 3) - inject_Z (a / 3)) (1 # 2)) eqn:E.
  - apply Qeq_alt in E. unfold Qeq in E. simpl in E.
    exfalso. Z.div_mod_to_equations. lia.
  - apply Qlt_alt in E. unfold Qlt in E. simpl in E.
    Z.div_mod_to_equations. lia.
  - apply Qgt_alt in E. unfold Qlt in E. simpl in E.
    Z.div_mod_to_equations. lia.
Qed.

Lemma strptime_whole s t : strptime s = Some t -> microsecond t = 0.
Proof.
  unfold strptime.
  destruct (list_ascii_of_string s) as [|y1 [|y2 [|y3 [|y4 [|s1 [|m1 [|m2 [|s2
    [|d1 [|d2 [|s3 [|h1 [|h2 [|s4 [|n1 [|n2 [|s5 [|c1 [|c2 [|x r]]]]]]]]]]]]]]]]]]]];
    try discriminate.
  destruct (_ && _); [|discriminate].
  match goal with |- (if valid ?u then _ else _) = _ -> _ =>
    destruct (valid u); [|discriminate] end.
  intros H. injection H as <-. reflexivity.
Qed.

Lemma total_seconds_whole ts te :
  microsecond ts = 0 -> microsecond te = 0 ->
  (total_seconds te ts == inject_Z (to_seconds te - to_seconds ts))%Q.
Proof.
  intros Hs He. unfold total_seconds, to_micros. rewrite Hs, He.
  unfold Qeq, inject_Z. simpl. lia.
Qed.

(** The two decimals of a whole number of seconds, in minutes. *)
Lemma round2_seconds (x : Q) (n : Z) :
  (x == inject_Z n)%Q -> round2 (x / 60) = ((10 * n + 3) / 6) # 100.
Proof.
  intros Hx. unfold round2.
  assert (H : (x / 60 * 100 == (5 * n) # 3)%Q).
  { rewrite Hx, (Qmake_Qdiv (5 * n) 3), inject_Z_mult.
    change (inject_Z 5) with 5%Q. change (inject_Z (Z.pos 3)) with 3%Q. field. }
  rewrite (round_half_even_comp _ _ H), round_half_even_thirds.
  do 2 f_equal. lia.
Qed.

Lemma to_seconds_whole t : to_seconds (whole_seconds t) = to_seconds t.
Proof. reflexivity. Qed.

Lemma whole_seconds_whole t : microsecond (whole_seconds t) = 0.
Proof. reflexivity. Qed.

(** A later instant does not lie in an earlier second. *)
Lemma after_seconds ts te :
  valid ts = true -> valid te = true -> leb te ts = false ->
  0 <= to_seconds te - to_seconds ts.
Proof.
  intros Hs He H. unfold leb in H.
  rewrite (compare_to_micros te ts He Hs) in H.
  pose proof (valid_ranges _ Hs) as (_ & _ & _ & _ & _ & _ & Hus).
  pose proof (valid_ranges _ He) as (_ & _ & _ & _ & _ & _ & Hue).
  unfold to_micros in H.
  destruct (Z.compare_spec (to_seconds te * 1000000 + microsecond te)
                           (to_seconds ts * 1000000 + microsecond ts));
    try discriminate. lia.
Qed.

End RecordedDuration.

(** X4.  For two timestamp texts that are [n] seconds apart, the duration
    that [add_session] records, [round(duration_minutes(start, end), 2)], is
    [floor((10 n + 3) / 6)] hundredths of a minute: it lies within 1/300 of
    a minute of [n / 60], and it is exactly [n / 60] when [n] is a multiple
    of 3, so for every whole number of minutes. *)
Theorem recorded_duration_closed_form (start end_ : string) (ts te : datetime) :
  strptime start = Some ts -> strptime end_ = Some te ->
  let n := to_seconds te - to_seconds ts in
  exists d,
    duration_minutes start end_ = inr d
    /\ round2 d = ((10 * n + 3) / 6) # 100
    /\ (Qabs (round2 d - (n # 60)) <= 1 # 300)%Q
    /\ (n mod 3 = 0 -> (round2 d == n # 60)%Q).
Proof.
  intros Hs He n.
  exists (total_seconds te ts / 60)%Q.
  split; [now apply duration_minutes_parsed|].
  assert (Hr : round2 (total_seconds te ts / 60) = ((10 * n + 3) / 6) # 100).
  { apply round2_seconds.
    apply (total_seconds_whole ts te (strptime_whole _ _ Hs)
                               (strptime_whole _ _ He)). }
  rewrite Hr. clearbody n. split; [reflexivity|].
  pose proof (Z.div_mod (10 * n + 3) 6 ltac:(lia)) as Hk.
  pose proof (Z.mod_pos_bound (10 * n + 3) 6 ltac:(lia)) as Hm.
  set (k := (10 * n + 3) / 6) in *. clearbody k.
  set (r := (10 * n + 3) mod 6) in *. clearbody r.
  split.
  - apply Qabs_Qle_condition. unfold Qle, Qminus, Qplus, Qopp. simpl. lia.
  - intros H3. unfold Qeq. simpl. Z.div_mod_to_equations. lia.
Qed.

(** X4 for 25 minutes and for 100 seconds. *)
Lemma recorded_duration_closed_form_witness :
  (exists d, duration_minutes "2024-01-01 09:00:00" "2024-01-01 09:25:00" = inr d
             /\ round2 d = 2500 # 100)
  /\ (exists d, duration_minutes "2024-01-01 09:00:00" "2024-01-01 09:01:40" = inr d
                /\ round2 d = 167 # 100).
Proof.
  split.
  - destruct (recorded_duration_closed_form
                "2024-01-01 09:00:00" "2024-01-01 09:25:00"
                (mkdt 2024 1 1 9 0 0 0) (mkdt 2024 1 1 9 25 0 0) eq_refl eq_refl)
      as (d & Hd & Hr & _).
    exists d. split; [exact Hd | exact Hr].
  - destruct (recorded_duration_closed_form
                "2024-01-01 09:00:00" "2024-01-01 09:01:40"
                (mkdt 2024 1 1 9 0 0 0) (mkdt 2024 1 1 9 1 40 0) eq_refl eq_refl)
      as (d & Hd & Hr & _).
    exists d. split; [exact Hd | exact Hr].
Defined.


(* ------------------------------------------------------------------ *)
(** ** The button records whole seconds *)

(** X5.  The "Add Session" handler compares the two instants as they are,
    microseconds included, and records them cut to the second.  For an end
    time after the start time (years 1000 to 9999) it shows the success
    message and appends a record with the two texts of [strftime] and, for
    [n] whole seconds between the two seconds, [floor((10 n + 3) / 6)]
    hundredths of a minute; [n] is not negative, and when the two instants
    lie in the same second the accepted session is recorded with 0 minutes. *)
Theorem add_session_button_whole_seconds (s : session_state) (i : inputs) :
  clicked i = Some AddSession ->
  valid (start_time i) = true -> valid (end_time i) = true ->
  1000 <= year (start_time i) -> 1000 <= year (end_time i) ->
  leb (end_time i) (start_time i) = false ->
  let n := to_seconds (end_time i) - to_seconds (start_time i) in
  let new := ledger (state_after (add_session_button i) s) in
  let k := List.length (rows (ledger s)) in
  shown (add_session_button i) s = [st_success "Session added successfully!"]
  /\ 0 <= n
  /\ List.length (rows new) = S k
  /\ value_at new k "start" = Str (strftime (start_time i))
  /\ value_at new k "end" = Str (strftime (end_time i))
  /\ value_at new k "duration_min" = Num (((10 * n + 3) / 6) # 100)
  /\ (n = 0 -> value_at new k "duration_min" = Num (0 # 100)).
Proof.
  intros Hc Hvs Hve Hys Hye Hle n new k.
  pose proof (add_session_button_accepts s i Hc Hle Hvs Hve Hys Hye) as Hrun.
  assert (Hd : round2 (total_seconds (whole_seconds (end_time i))
                                     (whole_seconds (start_time i)) / 60)
               = ((10 * n + 3) / 6) # 100).
  { apply round2_seconds.
    now rewrite (total_seconds_whole _ _ (whole_seconds_whole _)
                                     (whole_seconds_whole _)). }
  rewrite Hd in Hrun.
  subst new k. unfold shown, state_after. rewrite Hrun. cbn [fst snd].
  rewrite ledger_stored.
  set (r := from_record _).
  assert (Hr : forall c, value_at (concat (ledger s) r)
                                  (List.length (rows (ledger s))) c
                         = value_at r 0 c).
  { intros c. rewrite <- (Nat.add_0_r (List.length (rows (ledger s)))) at 1.
    apply concat_value_right. simpl. lia. }
  split; [reflexivity|].
  split; [now apply after_seconds|].
  split; [rewrite concat_rows_length; simpl; lia|].
  rewrite !Hr.
  repeat (split; [reflexivity|]).
  intros H0. subst r. rewrite H0. reflexivity.
Qed.

(** X5 for half a second within 09:00:00. *)
Lemma add_session_button_whole_seconds_witness :
  let i := with_clicked AddSession
             (with_times (mkdt 2024 1 1 9 0 0 0) (mkdt 2024 1 1 9 0 0 500000)
                         sample_inputs) in
  leb (end_time i) (start_time i) = false
  /\ value_at (ledger (state_after (add_session_button i) initial_state)) 0
              "duration_min" = Num (0 # 100).
Proof.
  intros i. split; [reflexivity|].
  pose proof (add_session_button_whole_seconds initial_state i eq_refl eq_refl
                eq_refl ltac:(simpl; lia) ltac:(simpl; lia) eq_refl) as H.
  cbv zeta in H. destruct H as (_ & _ & _ & _ & _ & _ & H0).
  apply H0. reflexivity.
Defined.

(* ------------------------------------------------------------------ *)
(** ** The live timer *)

Section LiveTimer.

Lemma live_timer_start s i :
  live s = None -> clicked i = Some StartLive ->
  live_timer i s
  = (inr tt, mkstate (sessions s) (Some (now i)) (daily_limit s),
     [st_info "Live tracking started!";
      st_metric "Live Time (mins)" (total_seconds (now i) (now i) / 60)%Q]).
Proof.
  intros Hl Hc. unfold live_timer, bind, get_live, pressed.
  rewrite Hl, Hc. reflexivity.
Qed.

Lemma live_timer_stop s i t0 d :
  live s = Some t0 -> clicked i = Some StopLive ->
  duration_minutes (strftime t0) (strftime (now i)) = inr d ->
  live_timer i s
  = (inr tt,
     mkstate (Some (concat (ledger s)
                      (from_record
                         (session_record (uuid4 i) (strftime t0) (strftime (now i))
                            (live_app i) (category_name (live_cat i))
                            "Live session" (round2 d)))))
             None (daily_limit s),
     [st_success "Live session stopped and saved."]).
Proof.
  intros Hl Hc Hd. unfold live_timer, bind, get_live, pressed.
  rewrite Hl, Hc. cbn [button_eqb when set_live ret].
  rewrite (add_session_run _ _ _ _ _ _ _ _ Hd).
  reflexivity.
Qed.

End LiveTimer.

(** X6.  A live session.  The start button, pressed while no live session
    runs, stores the clock reading and leaves the ledger alone.  The stop
    button, pressed in a state that still holds that reading [t0], ends the
    live session and appends one record: the identifier drawn in this rerun,
    the texts of [t0] and of the clock now, the activity and category that
    the boxes hold at the stop, the notes "Live session", and for [n] whole
    seconds between the two [floor((10 n + 3) / 6)] hundredths of a minute.
    The order of the two readings is not checked.  No live time is shown in
    the rerun of the stop. *)
Theorem live_session_recorded (s0 s : session_state) (i0 i : inputs) :
  live s0 = None -> clicked i0 = Some StartLive ->
  live s = live (state_after (live_timer i0) s0) ->
  clicked i = Some StopLive ->
  valid (now i0) = true -> valid (now i) = true ->
  1000 <= year (now i0) -> 1000 <= year (now i) ->
  let n := to_seconds (now i) - to_seconds (now i0) in
  let new := ledger (state_after (live_timer i) s) in
  let k := List.length (rows (ledger s)) in
  ledger (state_after (live_timer i0) s0) = ledger s0
  /\ live s = Some (now i0)
  /\ outcome (live_timer i) s = inr tt
  /\ shown (live_timer i) s = [st_success "Live session stopped and saved."]
  /\ live (state_after (live_timer i) s) = None
  /\ List.length (rows new) = S k
  /\ (forall j c, (j < k)%nat -> value_at new j c = value_at (ledger s) j c)
  /\ value_at new k "id" = Str (uuid4 i)
  /\ value_at new k "start" = Str (strftime (now i0))
  /\ value_at new k "end" = Str (strftime (now i))
  /\ value_at new k "app" = Str (live_app i)
  /\ value_at new k "category" = Str (category_name (live_cat i))
  /\ value_at new k "notes" = Str "Live session"
  /\ value_at new k "duration_min" = Num (((10 * n + 3) / 6) # 100).
Proof.
  intros Hl0 Hc0 Hl Hc Hv0 Hv Hy0 Hy n new k.
  unfold state_after in Hl. rewrite (live_timer_start s0 i0 Hl0 Hc0) in Hl.
  cbn [fst snd live] in Hl.
  pose proof (duration_minutes_parsed _ _ _ _
                (strptime_strftime _ Hv0 Hy0) (strptime_strftime _ Hv Hy)) as Hd.
  pose proof (live_timer_stop s i (now i0) _ Hl Hc Hd) as Hrun.
  assert (Hr2 : round2 (total_seconds (whole_seconds (now i))
                                      (whole_seconds (now i0)) / 60)
                = ((10 * n + 3) / 6) # 100).
  { apply round2_seconds.
    now rewrite (total_seconds_whole _ _ (whole_seconds_whole _)
                                     (whole_seconds_whole _)). }
  rewrite Hr2 in Hrun.
  subst new k. unfold outcome, shown, state_after.
  rewrite Hrun, (live_timer_start s0 i0 Hl0 Hc0). cbn [fst snd live].
  rewrite ledger_stored.
  set (r := from_record _).
  assert (Hr : forall c, value_at (concat (ledger s) r)
                                  (List.length (rows (ledger s))) c
                         = value_at r 0 c).
  { intros c. rewrite <- (Nat.add_0_r (List.length (rows (ledger s)))) at 1.
    apply concat_value_right. simpl. lia. }
  split; [reflexivity|].
  split; [exact Hl|].
  split; [reflexivity|]. split; [reflexivity|]. split; [reflexivity|].
  split; [rewrite concat_rows_length; simpl; lia|].
  split; [intros j c Hj; now apply concat_value_left|].
  rewrite !Hr. repeat split; reflexivity.
Qed.

(** X6 for a live session from 10:00:00 to 10:25:00 on the empty ledger. *)
Lemma live_session_recorded_witness :
  let i0 := with_clicked StartLive sample_inputs in
  let s := state_after (live_timer i0) initial_state in
  let i := with_clicked StopLive
             (with_now (mkdt 2024 1 1 10 25 0 0) sample_inputs) in
  live (state_after (live_timer i) s) = None
  /\ value_at (ledger (state_after (live_timer i) s)) 0 "duration_min"
     = Num (2500 # 100).
Proof.
  intros i0 s i.
  pose proof (live_session_recorded initial_state s i0 i eq_refl eq_refl eq_refl
                eq_refl eq_refl eq_refl ltac:(simpl; lia) ltac:(simpl; lia)) as H.
  cbv zeta in H.
  destruct H as (_ & _ & _ & _ & Hlive & _ & _ & _ & _ & _ & _ & _ & _ & Hdur).
  split; [exact Hlive | exact Hdur].
Defined.
(* ------------------------------------------------------------------ *)
(** ** Exceptions, and a program logic that tracks them *)

Section Exceptions.

Context {A B : Type}.
Variable ok : exn -> Prop.

Lemma raises_only_ret (a : A) : raises_only ok (ret a).
Proof. intros e H. discriminate. Qed.

Lemma raises_only_rbind (m : result A) (f : A -> result B) :
  raises_only ok m -> (forall a, m = inr a -> raises_only ok (f a)) ->
  raises_only ok (rbind m f).
Proof.
  intros Hm Hf e H. destruct m as [e'|a]; simpl in H.
  - apply Hm. injection H as <-. reflexivity.
  - now apply (Hf a eq_refl).
Qed.

End Exceptions.

Section ExceptionsOf.

Variable ok : exn -> Prop.

Lemma raises_only_getitem df c :
  (has_column c (columns df) = false -> ok (KeyError c)) ->
  raises_only ok (getitem df c).
Proof.
  intros H e He. unfold getitem in He.
  destruct (has_column c (columns df)); [discriminate|].
  injection He as <-. now apply H.
Qed.

Lemma raises_only_to_datetime_col l :
  ok Unmodelled -> raises_only ok (to_datetime_col l).
Proof.
  intros Hu. unfold to_datetime_col.
  induction l as [|c l IH]; [apply raises_only_ret|].
  cbn [rmap]. apply raises_only_rbind.
  - intros e He. destruct c as [s| | |t| |]; simpl in He; try discriminate;
      try (injection He as <-; exact Hu).
    unfold to_datetime in He. destruct (strptime s); simpl in He;
      [discriminate | injection He as <-; exact Hu].
  - intros b _. apply raises_only_rbind; [exact IH|].
    intros bs _. apply raises_only_ret.
Qed.

Lemma raises_only_summand c : ok TypeError -> raises_only ok (summand c).
Proof.
  intros Ht e He. destruct c; simpl in He; try discriminate;
    injection He as <-; exact Ht.
Qed.

Lemma raises_only_sum l : ok TypeError -> raises_only ok (sum l).
Proof.
  intros Ht. induction l as [|c l IH]; [apply raises_only_ret|].
  cbn [sum]. apply raises_only_rbind; [now apply raises_only_summand|].
  intros x _. apply raises_only_rbind; [exact IH|].
  intros y _. apply raises_only_ret.
Qed.

Lemma raises_only_groupby_acc kv :
  ok TypeError -> forall g, raises_only ok (groupby_acc g kv).
Proof.
  intros Ht. induction kv as [|[k v] kv IH]; intros g; [apply raises_only_ret|].
  cbn [groupby_acc]. destruct (isna k); [apply IH|].
  apply raises_only_rbind; [now apply raises_only_summand|].
  intros x _. apply IH.
Qed.

End ExceptionsOf.

Section ProgramLogicExn.

Context {A B : Type}.

Lemma hoarex_bind (P : session_state -> Prop) (m : M A) (f : A -> M B) Q R E :
  hoarex P m Q E -> (forall a, hoarex (Q a) (f a) R E) ->
  hoarex P (bind m f) R E.
Proof.
  intros Hm Hf s HP. specialize (Hm s HP). unfold bind.
  destruct (m s) as [[[e|a] s1] o1]; [exact Hm|].
  specialize (Hf a s1 Hm). destruct (f a s1) as [[[e|b] s2] o2]; exact Hf.
Qed.

Lemma hoarex_conseq (P P' : session_state -> Prop) (m : M A)
      (Q Q' : A -> session_state -> Prop) (E E' : exn -> session_state -> Prop) :
  hoarex P m Q E ->
  (forall s, P' s -> P s) -> (forall a s, Q a s -> Q' a s) ->
  (forall e s, E e s -> E' e s) ->
  hoarex P' m Q' E'.
Proof.
  intros H HP HQ HE s Hs. specialize (H s (HP s Hs)).
  destruct (m s) as [[[e|a] s1] o1]; auto.
Qed.

(** A fact that the precondition gives may be used for the step. *)
Lemma hoarex_fact (F : Prop) (P : session_state -> Prop) (m : M A) Q E :
  (forall s, P s -> F) -> (F -> hoarex P m Q E) -> hoarex P m Q E.
Proof. intros HF H s HP. exact (H (HF s HP) s HP). Qed.

Lemma hoarex_state_after (P R : session_state -> Prop) (m : M A) Q E :
  hoarex P m Q E -> (forall a s, Q a s -> R s) -> (forall e s, E e s -> R s) ->
  forall s, P s -> R (state_after m s).
Proof.
  intros H HQ HE s HP. specialize (H s HP). unfold state_after.
  destruct (m s) as [[[e|a] s1] o1]; simpl; eauto.
Qed.

Lemma hoarex_outcome (P : session_state -> Prop) (m : M A) Q
      (ok : exn -> Prop) (I : session_state -> Prop) :
  hoarex P m Q (fun e s => I s /\ ok e) ->
  forall s, P s -> raises_only ok (outcome m s).
Proof.
  intros H s HP e He. specialize (H s HP). unfold outcome in He.
  destruct (m s) as [[[e'|a] s1] o1]; simpl in He; [|discriminate].
  injection He as <-. apply H.
Qed.

End ProgramLogicExn.

(** The steps of the script under an invariant [I] of the ledger and a class
    [ok] of exceptions. *)
Section StepsExn.

Context {B : Type}.
Variables (I : DataFrame -> Prop) (ok : exn -> Prop).
Variable R : B -> session_state -> Prop.

Let E : exn -> session_state -> Prop := fun e s => I (ledger s) /\ ok e.

Lemma hoarex_bind_lift {A} (P : session_state -> Prop) (r : result A)
      (f : A -> M B) :
  (forall s, P s -> I (ledger s)) ->
  raises_only ok r ->
  (forall a, r = inr a -> hoarex P (f a) R E) ->
  hoarex P (bind (lift r) f) R E.
Proof.
  intros HI Hr Hf s HP. unfold bind, lift.
  destruct r as [e|a].
  - split; [now apply HI | now apply Hr].
  - specialize (Hf a eq_refl s HP). destruct (f a s) as [[[e|b] s2] o2]; exact Hf.
Qed.

Lemma hoarex_bind_show (P : session_state -> Prop) u (f : unit -> M B) :
  hoarex P (f tt) R E -> hoarex P (bind (show u) f) R E.
Proof.
  intros Hf s HP. unfold bind, show, ret.
  specialize (Hf s HP). destruct (f tt s) as [[[e|b] s2] o2]; exact Hf.
Qed.

Lemma hoarex_bind_load (f : DataFrame -> M B) :
  (forall df, I df -> hoarex (fun s => ledger s = df) (f df) R E) ->
  hoarex (fun s => I (ledger s)) (bind load_sessions f) R E.
Proof.
  intros Hf s HI. unfold bind. rewrite load_sessions_run.
  specialize (Hf (ledger s) HI _
                (ledger_stored (ledger s) (live s) (daily_limit s))).
  destruct (f (ledger s) _) as [[[e|b] s2] o2]; exact Hf.
Qed.

Lemma hoarex_bind_setitem df c v (f : DataFrame -> M B) :
  hoarex (fun s => ledger s = setitem df c v) (f (setitem df c v)) R E ->
  hoarex (fun s => ledger s = df) (bind (setitem_in_place df c v) f) R E.
Proof.
  intros Hf s Hs. unfold bind, setitem_in_place, set_sessions, pure, ret.
  cbn. specialize (Hf _ (ledger_stored (setitem df c v) (live s) (daily_limit s))).
  destruct (f _ _) as [[[e|b] s2] o2]; exact Hf.
Qed.

End StepsExn.

(* ------------------------------------------------------------------ *)
(** ** The blocks of the script under an invariant of the ledger *)

(** The blocks that write only helper columns, under any invariant of the
    ledger that such writes keep. *)
Section HelperBlocks.

Variables (I : DataFrame -> Prop) (ok : exn -> Prop).
Hypothesis I_setitem :
  forall df c v, I df -> helper c = true ->
    List.length v = List.length (rows df) -> I (setitem df c v).
Hypothesis I_column :
  forall df c, I df -> In c schema ->
    has_column c (columns df) = false -> ok (KeyError c).
Hypothesis ok_type : ok TypeError.
Hypothesis ok_unmodelled : ok Unmodelled.

Let E : exn -> session_state -> Prop := fun e s => I (ledger s) /\ ok e.
Let Q : unit -> session_state -> Prop := fun _ s => I (ledger s).

Lemma raises_only_column df df' c :
  I df -> columns df' = columns df -> In c schema ->
  raises_only ok (getitem df' c).
Proof.
  intros HI Hc Hin. apply raises_only_getitem. rewrite Hc. now apply I_column.
Qed.

Lemma raises_only_present df c :
  has_column c (columns df) = true -> raises_only ok (getitem df c).
Proof. intros H. apply raises_only_getitem. congruence. Qed.

Lemma raises_only_read df c :
  I df -> In c schema ->
  raises_only ok (rbind (getitem df c) to_datetime_col).
Proof.
  intros HI Hin. apply raises_only_rbind.
  - now apply (raises_only_column df).
  - intros l _. now apply raises_only_to_datetime_col.
Qed.

Lemma raises_only_total df view :
  I df -> columns view = columns df -> raises_only ok (total_min view).
Proof.
  intros HI Hc. unfold total_min. apply raises_only_rbind.
  - apply (raises_only_column df); [assumption | assumption | simpl; tauto].
  - intros l _. now apply raises_only_sum.
Qed.

Lemma raises_only_grouped df view key :
  I df -> columns view = columns df -> raises_only ok (grouped view key).
Proof.
  intros HI Hc. unfold grouped. apply raises_only_rbind.
  - apply (raises_only_column df); [assumption | assumption | simpl; tauto].
  - intros dur _. apply raises_only_rbind.
    + now apply raises_only_groupby_acc.
    + intros g _. apply raises_only_ret.
Qed.

Lemma raises_only_by_column df view c :
  I df -> columns view = columns df -> In c schema ->
  raises_only ok (by_column view c).
Proof.
  intros HI Hc Hin. unfold by_column. apply raises_only_rbind.
  - now apply (raises_only_column df).
  - intros key _. now apply (raises_only_grouped df).
Qed.

Lemma hoarex_usage_analytics i :
  hoarex (fun s => I (ledger s)) (usage_analytics i) Q E.
Proof.
  unfold usage_analytics. apply hoarex_bind_load. intros df HI.
  destruct (empty df).
  { intros s Hs. cbn. subst Q. cbn. now rewrite Hs. }
  apply hoarex_bind_lift;
    [intros s Hs; now rewrite Hs
    | apply raises_only_read; [exact HI | simpl; tauto] |].
  intros sd Hsd. apply hoarex_bind_setitem.
  assert (HI1 : I (setitem df "start_dt" sd)).
  { apply I_setitem; [exact HI | reflexivity
                      | now apply to_datetime_col_length in Hsd]. }
  set (df1 := setitem df "start_dt" sd) in *.
  apply hoarex_bind_lift;
    [intros s Hs; now rewrite Hs
    | apply raises_only_read; [exact HI1 | simpl; tauto] |].
  intros ed Hed. apply hoarex_bind_setitem.
  assert (HI2 : I (setitem df1 "end_dt" ed)).
  { apply I_setitem; [exact HI1 | reflexivity
                      | now apply to_datetime_col_length in Hed]. }
  assert (Hsc : has_column "start_dt" (columns (setitem df1 "end_dt" ed)) = true).
  { rewrite setitem_has_column. subst df1. rewrite setitem_has_column.
    reflexivity. }
  assert (Hec : has_column "end_dt" (columns (setitem df1 "end_dt" ed)) = true).
  { rewrite setitem_has_column. reflexivity. }
  set (df2 := setitem df1 "end_dt" ed) in *.
  assert (HP : forall s, ledger s = df2 -> I (ledger s))
    by (intros s Hs; now rewrite Hs).
  apply hoarex_bind_lift; [exact HP | |].
  { apply raises_only_rbind; [now apply raises_only_present|]. intros c1 _.
    apply raises_only_rbind; [now apply raises_only_present|]. intros c2 _.
    destruct (stamp_min c1), (stamp_max c2);
      try apply raises_only_ret; intros e He; injection He as <-;
      exact ok_unmodelled. }
  intros proposed _.
  apply hoarex_bind_lift; [exact HP | |].
  { unfold analytics_view.
    apply raises_only_rbind; [now apply raises_only_present|]. intros c1 _.
    apply raises_only_rbind; [now apply raises_only_present|]. intros c2 _.
    apply raises_only_ret. }
  intros view Hview. apply analytics_view_columns in Hview.
  apply hoarex_bind_lift; [exact HP | now apply (raises_only_total df2) |].
  intros total _. apply hoarex_bind_show.
  apply hoarex_bind_lift;
    [exact HP | apply (raises_only_by_column df2); [assumption..| simpl; tauto] |].
  intros apps _.
  apply hoarex_bind_lift;
    [exact HP | apply (raises_only_by_column df2); [assumption..| simpl; tauto] |].
  intros cats _. apply hoarex_bind_show. apply hoarex_bind_show.
  apply hoarex_bind_lift; [exact HP | |].
  { apply raises_only_rbind.
    - apply raises_only_present. now rewrite Hview.
    - intros c _. apply raises_only_rbind.
      + apply (raises_only_column df2); [assumption | assumption | simpl; tauto].
      + intros dur _. now apply raises_only_groupby_acc. }
  intros days _ s Hs. cbn. subst Q. cbn. now apply HP.
Qed.

Lemma hoarex_daily_limit_alert i :
  hoarex (fun s => I (ledger s)) (daily_limit_alert i) Q E.
Proof.
  unfold daily_limit_alert.
  apply hoarex_bind with (Q := fun _ s => I (ledger s)).
  { intros s HI. exact HI. }
  intros []. apply hoarex_bind_load. intros df HI.
  destruct (empty df); cbn [negb when].
  { intros s Hs. cbn. subst Q. cbn. now rewrite Hs. }
  apply hoarex_bind_lift;
    [intros s Hs; now rewrite Hs
    | apply raises_only_read; [exact HI | simpl; tauto] |].
  intros sd Hsd. apply hoarex_bind_setitem.
  assert (HI1 : I (setitem df "start_dt" sd)).
  { apply I_setitem; [exact HI | reflexivity
                      | now apply to_datetime_col_length in Hsd]. }
  assert (Hsc : has_column "start_dt" (columns (setitem df "start_dt" sd)) = true).
  { rewrite setitem_has_column. reflexivity. }
  set (df1 := setitem df "start_dt" sd) in *.
  assert (HP : forall s, ledger s = df1 -> I (ledger s))
    by (intros s Hs; now rewrite Hs).
  apply hoarex_bind_lift; [exact HP | |].
  { unfold today_total.
    apply raises_only_rbind; [now apply raises_only_present|]. intros c1 _.
    apply raises_only_rbind.
    - apply (raises_only_column df1); [assumption | reflexivity | simpl; tauto].
    - intros l _. now apply raises_only_sum. }
  intros total _. apply hoarex_bind_show.
  intros s Hs. cbn. subst Q. cbn. now apply HP.
Qed.

Lemma hoarex_export_button i :
  hoarex (fun s => I (ledger s)) (export_button i) Q E.
Proof.
  unfold export_button. destruct (pressed i ExportSessions); cbn [when].
  - apply hoarex_bind_load. intros df HI.
    destruct (empty df); intros s Hs; cbn; subst Q; cbn; now rewrite Hs.
  - intros s HI. exact HI.
Qed.

End HelperBlocks.

(** One rerun of the script, under an invariant of the ledger that the
    writes of this rerun keep. *)
Section ScriptExn.

Variables (I : DataFrame -> Prop) (ok : exn -> Prop) (i : inputs).
Hypothesis I_setitem :
  forall df c v, I df -> helper c = true ->
    List.length v = List.length (rows df) -> I (setitem df c v).
Hypothesis I_column :
  forall df c, I df -> In c schema ->
    has_column c (columns df) = false -> ok (KeyError c).
Hypothesis ok_type : ok TypeError.
Hypothesis ok_unmodelled : ok Unmodelled.
Hypothesis I_concat :
  pressed i AddSession = true \/ pressed i StopLive = true
  \/ uploaded i <> None ->
  forall df b, I df -> I (concat df b).
Hypothesis I_loc :
  pressed i DeleteSession = true -> forall df mask, I df -> I (loc df mask).

Let E : exn -> session_state -> Prop := fun e s => I (ledger s) /\ ok e.
Let Q : unit -> session_state -> Prop := fun _ s => I (ledger s).

Lemma raises_only_duration_minutes start end_ :
  raises_only ok (duration_minutes start end_).
Proof.
  assert (H : forall s, raises_only ok (to_datetime s)).
  { intros s e He. unfold to_datetime in He.
    destruct (strptime s); [discriminate | injection He as <-; assumption]. }
  unfold duration_minutes.
  apply raises_only_rbind; [apply H|]. intros te _.
  apply raises_only_rbind; [apply H|]. intros ts _. apply raises_only_ret.
Qed.

Lemma hoarex_add_session sid start end_ app cat notes :
  (forall df b, I df -> I (concat df b)) ->
  hoarex (fun s => I (ledger s)) (add_session sid start end_ app cat notes) Q E.
Proof.
  intros Hc. unfold add_session. apply hoarex_bind_load. intros df HI.
  apply hoarex_bind_lift;
    [intros s Hs; now rewrite Hs | apply raises_only_duration_minutes |].
  intros d _ s _. cbn. subst Q. cbn. now apply Hc.
Qed.

Lemma hoarex_add_session_button :
  hoarex (fun s => I (ledger s)) (add_session_button i) Q E.
Proof.
  unfold add_session_button. destruct (pressed i AddSession) eqn:Hp; cbn [when].
  - destruct (leb (end_time i) (start_time i)).
    + intros s HI. exact HI.
    + eapply hoarex_bind; [apply hoarex_add_session; apply I_concat; tauto|].
      intros [] s HI. exact HI.
  - intros s HI. exact HI.
Qed.

Lemma hoarex_live_timer :
  hoarex (fun s => I (ledger s)) (live_timer i) Q E.
Proof.
  unfold live_timer.
  apply hoarex_bind with (Q := fun _ s => I (ledger s));
    [intros s HI; exact HI|]. intros l.
  apply hoarex_bind with (Q := fun _ s => I (ledger s)).
  - destruct l as [t0|].
    + destruct (pressed i StopLive) eqn:Hp; cbn [when];
        [|intros s HI; exact HI].
      apply hoarex_bind with (Q := fun _ s => I (ledger s));
        [intros s HI; exact HI|]. intros [].
      eapply hoarex_bind; [apply hoarex_add_session; apply I_concat; tauto|].
      intros [] s HI. exact HI.
    + destruct (pressed i StartLive); cbn [when]; intros s HI; exact HI.
  - intros []. apply hoarex_bind with (Q := fun _ s => I (ledger s));
      [intros s HI; exact HI|].
    intros [t|] s HI; exact HI.
Qed.

Lemma hoarex_import_csv :
  hoarex (fun s => I (ledger s)) (import_csv i) Q E.
Proof.
  unfold import_csv. destruct (uploaded i) as [file|] eqn:Hu;
    [|intros s HI; exact HI].
  destruct (read_csv file) as [e|imp].
  - destruct e; intros s HI; try exact HI. split; [exact HI | exact ok_unmodelled].
  - apply hoarex_bind_load. intros cur HI s _. cbn. subst Q. cbn.
    apply I_concat; [right; right; congruence | exact HI].
Qed.

Lemma hoarex_sessions_table :
  hoarex (fun s => I (ledger s)) (sessions_table i) Q E.
Proof.
  clear I_concat. unfold sessions_table. apply hoarex_bind_load. intros df HI.
  assert (HP : forall s, ledger s = df -> I (ledger s))
    by (intros s Hs; now rewrite Hs).
  destruct (empty df); [intros s Hs; now apply HP|].
  apply hoarex_bind_show.
  destruct (pressed i DeleteSession) eqn:Hp; cbn [when];
    [|intros s Hs; now apply HP].
  destruct (Py.truthy (Py.strip (delete_id i))); [|intros s Hs; now apply HP].
  apply hoarex_bind_lift; [exact HP | |].
  { apply (raises_only_column I ok I_column df); [exact HI | reflexivity
                                                 | simpl; tauto]. }
  intros l _ s _. cbn. subst Q. cbn. now apply I_loc.
Qed.

Lemma hoarex_script :
  hoarex (fun s => I (ledger s)) (script i) Q E.
Proof.
  unfold script.
  eapply hoarex_bind; [apply hoarex_add_session_button|]. intros [].
  eapply hoarex_bind; [apply hoarex_live_timer|]. intros [].
  eapply hoarex_bind;
    [apply (hoarex_usage_analytics I ok I_setitem I_column ok_type ok_unmodelled)|].
  intros [].
  eapply hoarex_bind; [apply hoarex_import_csv|]. intros [].
  eapply hoarex_bind;
    [apply (hoarex_export_button I ok)|].
  intros [].
  eapply hoarex_bind;
    [apply (hoarex_daily_limit_alert I ok I_setitem I_column ok_type ok_unmodelled)|].
  intros []. apply hoarex_sessions_table.
Qed.

End ScriptExn.

(* ------------------------------------------------------------------ *)
(** ** The columns of the script are never lost *)

Section WellFormed.

Lemma well_formed_setitem df c v : well_formed df -> well_formed (setitem df c v).
Proof.
  intros [Hr Hc]. split; [now apply setitem_rect|].
  intros x Hx. apply has_column_In. rewrite setitem_has_column.
  apply orb_true_iff. right. apply has_column_In. now apply Hc.
Qed.

Lemma well_formed_concat a b : well_formed a -> well_formed (concat a b).
Proof.
  intros [_ Hc]. split; [apply concat_rect|].
  intros x Hx. apply concat_columns_In. left. now apply Hc.
Qed.

Lemma well_formed_loc df mask : well_formed df -> well_formed (loc df mask).
Proof. intros [Hr Hc]. split; [now apply loc_rect | exact Hc]. Qed.

Lemma well_formed_column df c :
  well_formed df -> In c schema -> has_column c (columns df) = true.
Proof. intros [_ Hc] Hin. apply has_column_In. now apply Hc. Qed.

Lemma well_formed_new : well_formed (new_frame schema).
Proof. split; [constructor | apply incl_refl]. Qed.

(** One rerun from a well-formed ledger, whatever the inputs. *)
Lemma script_well_formed i :
  hoarex (fun s => well_formed (ledger s)) (script i)
         (fun _ s => well_formed (ledger s))
         (fun e s => well_formed (ledger s) /\ data_error e).
Proof.
  apply hoarex_script.
  - intros df c v H _ _. now apply well_formed_setitem.
  - intros df c H Hin Hf. rewrite (well_formed_column df c H Hin) in Hf.
    discriminate.
  - now left.
  - now right.
  - intros _ df b. apply well_formed_concat.
  - intros _ df mask. apply well_formed_loc.
Qed.

End WellFormed.



(* ------------------------------------------------------------------ *)
(** ** The helper columns leave the records alone *)

Section SameRecords.

Lemma helper_false c : c <> "start_dt" -> c <> "end_dt" -> helper c = false.
Proof.
  intros H1 H2. unfold helper.
  apply String.eqb_neq in H1. apply String.eqb_neq in H2. now rewrite H1, H2.
Qed.

Lemma value_at_nth df k c :
  value_at df k c = nth k (map (at_col (columns df) c) (rows df)) NaN.
Proof.
  unfold value_at.
  assert (Hd : at_col (columns df) c [] = NaN).
  { unfold at_col. destruct (index_of c (columns df)) as [j|]; [|reflexivity].
    now destruct j. }
  transitivity (nth k (map (at_col (columns df) c) (rows df))
                      (at_col (columns df) c []));
    [symmetry; apply map_nth | now rewrite Hd].
Qed.

Lemma same_records_refl df : rect df -> same_records df df.
Proof. intros Hr. split; [exact Hr|]. split; [reflexivity|]. auto. Qed.

Lemma same_records_setitem df0 df c v :
  same_records df0 df -> helper c = true ->
  List.length v = List.length (rows df) ->
  same_records df0 (setitem df c v).
Proof.
  intros (Hr & Hl & Hc) Hh Hv.
  split; [now apply setitem_rect|].
  split; [now rewrite setitem_rows_length|].
  intros c' Hc'. destruct (Hc c' Hc') as [H1 H2].
  assert (Hne : String.eqb c c' = false).
  { destruct (String.eqb c c') eqn:E; [|reflexivity].
    apply String.eqb_eq in E. subst c'. congruence. }
  split.
  - now rewrite setitem_has_column, Hne.
  - now rewrite (setitem_column df c v c' Hr Hv), Hne.
Qed.

(** What [same_records] says of the values. *)
Lemma same_records_values df0 df :
  same_records df0 df ->
  rect df
  /\ List.length (rows df) = List.length (rows df0)
  /\ forall c, c <> "start_dt" -> c <> "end_dt" ->
       (In c (columns df) <-> In c (columns df0))
       /\ forall k, value_at df k c = value_at df0 k c.
Proof.
  intros (Hr & Hl & Hc). split; [exact Hr|]. split; [exact Hl|].
  intros c H1 H2. destruct (Hc c (helper_false c H1 H2)) as [Hh Hv]. split.
  - now rewrite <- !has_column_In, Hh.
  - intros k. now rewrite !value_at_nth, Hv.
Qed.

End SameRecords.

(** X8.  The "Usage Analytics" block and the "Daily Limit Alert" block write
    the helper columns [start_dt] and [end_dt] into the ledger and nothing
    else: whatever the inputs, and also when the block stops with an
    exception, the ledger has as many records as before, the same columns
    apart from the two, and every value under every other column is the
    one it was. *)
Theorem helper_blocks_keep_records (s : session_state) (i : inputs) (m : M unit) :
  rect (ledger s) ->
  m = usage_analytics i \/ m = daily_limit_alert i ->
  let old := ledger s in
  let new := ledger (state_after m s) in
  rect new
  /\ List.length (rows new) = List.length (rows old)
  /\ forall c, c <> "start_dt" -> c <> "end_dt" ->
       (In c (columns new) <-> In c (columns old))
       /\ forall k, value_at new k c = value_at old k c.
Proof.
  intros Hr Hm old new. subst old new.
  apply same_records_values.
  assert (H : hoarex (fun s' => same_records (ledger s) (ledger s')) m
                     (fun _ s' => same_records (ledger s) (ledger s'))
                     (fun e s' => same_records (ledger s) (ledger s') /\ True)).
  { destruct Hm as [-> | ->].
    - apply hoarex_usage_analytics; auto. apply same_records_setitem.
    - apply hoarex_daily_limit_alert; auto. apply same_records_setitem. }
  apply (hoarex_state_after _ (fun s' => same_records (ledger s) (ledger s'))
           _ _ _ H); [auto | now intros e s' [H1 _] |].
  now apply same_records_refl.
Qed.

(** X8 on the ledger with one session: the analytics add the two columns
    and keep the record. *)
Lemma helper_blocks_keep_records_witness :
  let new := ledger (state_after (usage_analytics sample_inputs)
                                 one_session_state) in
  List.length (rows new) = 1%nat
  /\ value_at new 0 "id" = value_at (ledger one_session_state) 0 "id".
Proof.
  intros new.
  pose proof (helper_blocks_keep_records one_session_state sample_inputs
                (usage_analytics sample_inputs)
                ltac:(repeat constructor) (or_introl eq_refl)) as H.
  cbv zeta in H. destruct H as (_ & Hl & Hv).
  split; [exact Hl|].
  apply (Hv "id"); discriminate.
Defined.

(** X9.  A rerun in which none of the buttons "Add Session", "Stop Live
    Session" and "Delete Session" was pressed and no file is uploaded (a
    rerun caused by any other widget) leaves the records of the ledger as
    they are: their number, the columns other than the two helper columns,
    and every value under them, also when an exception ends the rerun. *)
Theorem idle_rerun_keeps_records (s : session_state) (i : inputs) :
  rect (ledger s) ->
  pressed i AddSession = false -> pressed i StopLive = false ->
  pressed i DeleteSession = false -> uploaded i = None ->
  let old := ledger s in
  let new := ledger (state_after (script i) s) in
  rect new
  /\ List.length (rows new) = List.length (rows old)
  /\ forall c, c <> "start_dt" -> c <> "end_dt" ->
       (In c (columns new) <-> In c (columns old))
       /\ forall k, value_at new k c = value_at old k c.
Proof.
  intros Hr Ha Hl Hd Hu old new. subst old new.
  apply same_records_values.
  assert (H : hoarex (fun s' => same_records (ledger s) (ledger s')) (script i)
                     (fun _ s' => same_records (ledger s) (ledger s'))
                     (fun e s' => same_records (ledger s) (ledger s') /\ True)).
  { apply hoarex_script; auto.
    - apply same_records_setitem.
    - intros [H|[H|H]]; congruence.
    - congruence. }
  apply (hoarex_state_after _ (fun s' => same_records (ledger s) (ledger s'))
           _ _ _ H); [auto | now intros e s' [H1 _] |].
  now apply same_records_refl.
Qed.

(** X9 for a press of the export button on the ledger with one session. *)
Lemma idle_rerun_keeps_records_witness :
  let i := with_clicked ExportSessions sample_inputs in
  let new := ledger (state_after (script i) one_session_state) in
  List.length (rows new) = 1%nat
  /\ value_at new 0 "duration_min"
     = value_at (ledger one_session_state) 0 "duration_min".
Proof.
  intros i new.
  pose proof (idle_rerun_keeps_records one_session_state i
                ltac:(repeat constructor) eq_refl eq_refl eq_refl eq_refl) as H.
  cbv zeta in H. destruct H as (_ & Hl & Hv).
  split; [exact Hl|].
  apply (Hv "duration_min"); discriminate.
Defined.

(* ------------------------------------------------------------------ *)
(** ** Deleting by identifier, in general *)

Section DeleteAll.

Lemma sessions_table_delete_shown s i :
  clicked i = Some DeleteSession ->
  Py.truthy (Py.strip (delete_id i)) = true ->
  empty (ledger s) = false ->
  has_column "id" (columns (ledger s)) = true ->
  shown (sessions_table i) s
  = [st_dataframe (drop_columns ["start_dt"; "end_dt"] (ledger s));
     st_success "Session deleted."].
Proof.
  intros Hc Ht He Hid.
  unfold shown, sessions_table, bind.
  rewrite load_sessions_run, He. cbn [show when pressed].
  unfold pressed. rewrite Hc. cbn [button_eqb when]. rewrite Ht.
  unfold lift, getitem. rewrite Hid. reflexivity.
Qed.

Lemma filter_negb_none {A} (p : A -> bool) (l : list A) :
  filter p (filter (fun a => negb (p a)) l) = [].
Proof.
  induction l as [|a r IH]; simpl; [reflexivity|].
  destruct (p a) eqn:E; simpl; [exact IH | now rewrite E].
Qed.

Lemma filter_filter_same {A} (p : A -> bool) (l : list A) :
  filter p (filter p l) = filter p l.
Proof.
  induction l as [|a r IH]; simpl; [reflexivity|].
  destruct (p a) eqn:E; simpl; [now rewrite E, IH | exact IH].
Qed.

Lemma filter_disjoint {A} (p q : A -> bool) (l : list A) :
  (forall a, q a = true -> p a = false) ->
  filter q (filter (fun a => negb (p a)) l) = filter q l.
Proof.
  intros H. induction l as [|a r IH]; simpl; [reflexivity|].
  destruct (p a) eqn:E; simpl.
  - destruct (q a) eqn:Eq; [|exact IH].
    rewrite (H a Eq) in E. discriminate.
  - now rewrite IH.
Qed.

Lemma carries_one x y cols r :
  x <> y -> carries y cols r = true -> carries x cols r = false.
Proof.
  unfold carries. destruct (at_col cols "id" r); try discriminate.
  intros Hne Hy. apply String.eqb_eq in Hy. subst y.
  now apply String.eqb_neq.
Qed.

End DeleteAll.

(** X10.  The "Delete Session" handler on a ledger with records and an [id]
    column, for a text that is not blank: with [x] the text stripped, it
    returns normally, shows the table and then "Session deleted." whether
    or not a record carried [x], and stores the ledger without every record
    that carries [x], all of them when several do.  The other records stay
    in their order; for every other identifier the number of its records is
    the same; a record whose [id] is not a text is never removed.  A second
    press with the same text changes nothing. *)
Theorem delete_removes_every_carrier (s : session_state) (i : inputs) :
  clicked i = Some DeleteSession ->
  Py.truthy (Py.strip (delete_id i)) = true ->
  empty (ledger s) = false ->
  has_column "id" (columns (ledger s)) = true ->
  let x := Py.strip (delete_id i) in
  let m := sessions_table i in
  let old := ledger s in
  let new := ledger (state_after m s) in
  outcome m s = inr tt
  /\ shown m s = [st_dataframe (drop_columns ["start_dt"; "end_dt"] old);
                  st_success "Session deleted."]
  /\ columns new = columns old
  /\ rows new = filter (fun r => negb (carries x (columns old) r)) (rows old)
  /\ count_id x new = 0%nat
  /\ (forall y, y <> x -> count_id y new = count_id y old)
  /\ (forall r, In r (rows old) ->
        (forall t, at_col (columns old) "id" r <> Str t) -> In r (rows new))
  /\ ledger (state_after m (state_after m s)) = new.
Proof.
  intros Hc Ht He Hid x m old new.
  destruct (sessions_table_delete s i Hc Ht He Hid) as [Ho Hl].
  fold x in Hl. subst m old new.
  split; [exact Ho|].
  split; [now apply sessions_table_delete_shown|].
  rewrite Hl. cbn [columns rows].
  split; [reflexivity|]. split; [reflexivity|].
  split; [unfold count_id; cbn [columns rows]; now rewrite filter_negb_none|].
  split.
  { intros y Hy. unfold count_id. cbn [columns rows].
    rewrite filter_disjoint; [reflexivity|].
    intros r. now apply carries_one. }
  split.
  { intros r Hin Hn. apply filter_In. split; [exact Hin|].
    unfold carries.
    destruct (at_col (columns (ledger s)) "id" r) as [t| | | | |] eqn:E;
      try reflexivity. now elim (Hn t). }
  set (s1 := state_after (sessions_table i) s) in *.
  destruct (empty (ledger s1)) eqn:He1.
  - rewrite <- Hl. now apply sessions_table_empty.
  - destruct (sessions_table_delete s1 i Hc Ht He1) as [_ Hl2].
    { rewrite Hl. exact Hid. }
    rewrite Hl2, Hl. cbn [columns rows]. fold x.
    now rewrite (filter_filter_same (fun r => negb (carries x (columns (ledger s)) r))).
Qed.

(** X10 on the ledger with one session, for an identifier that no record
    carries: the message is shown and the ledger is as it was. *)
Lemma delete_removes_every_carrier_witness :
  let i := with_clicked DeleteSession (with_delete_id "none" sample_inputs) in
  shown (sessions_table i) one_session_state
  = [st_dataframe (drop_columns ["start_dt"; "end_dt"] (ledger one_session_state));
     st_success "Session deleted."]
  /\ List.length (rows (ledger (state_after (sessions_table i) one_session_state)))
     = 1%nat.
Proof.
  intros i.
  pose proof (delete_removes_every_carrier one_session_state i
                eq_refl eq_refl eq_refl eq_refl) as H.
  cbv zeta in H. destruct H as (_ & Hs & _ & Hr & _).
  split; [exact Hs|]. rewrite Hr. reflexivity.
Defined.

(* ------------------------------------------------------------------ *)
(** ** The import appends *)

(** X11.  The import checks nothing about the file: whenever [read_csv]
    reads it, the block returns normally with the success message and
    appends the records of the file to the ledger.  The old records keep
    every value, the new ones follow in the order of the file with the
    values read, the columns are those of the ledger and of the file, and a
    new record has a missing value under every column that the file lacks,
    the columns of the script included.  The live timer and the daily limit
    are left alone. *)
Theorem import_appends_records
  (s : session_state) (i : inputs) (file : csv) (imp : DataFrame) :
  uploaded i = Some file -> read_csv file = inr imp ->
  let m := import_csv i in
  let old := ledger s in
  let new := ledger (state_after m s) in
  let n := List.length (rows old) in
  outcome m s = inr tt
  /\ shown m s = [st_success "Data imported successfully."]
  /\ List.length (rows new) = (n + List.length (rows imp))%nat
  /\ (forall c, In c (columns new) <-> In c (columns old) \/ In c (columns imp))
  /\ (forall k c, (k < n)%nat -> value_at new k c = value_at old k c)
  /\ (forall k c, (k < List.length (rows imp))%nat ->
        value_at new (n + k) c = value_at imp k c)
  /\ (forall k c, ~ In c (columns imp) -> value_at imp k c = NaN)
  /\ live (state_after m s) = live s
  /\ daily_limit (state_after m s) = daily_limit s.
Proof.
  intros Hu Hr m old new n. subst m old new n.
  unfold outcome, shown, state_after. rewrite (import_csv_run s i file imp Hu Hr).
  cbn [fst snd live daily_limit]. rewrite ledger_stored.
  split; [reflexivity|]. split; [reflexivity|].
  split; [apply concat_rows_length|].
  split; [intros c; apply concat_columns_In|].
  split; [intros k c Hk; now apply concat_value_left|].
  split; [intros k c Hk; now apply concat_value_right|].
  split; [intros k c Hc; now apply at_col_absent|].
  split; reflexivity.
Qed.

(** X11 for a file with the columns [id] and [app] only, imported into the
    ledger with one session: the new record has no start. *)
Lemma import_appends_records_witness :
  let i := with_uploaded two_column_file sample_inputs in
  let new := ledger (state_after (import_csv i) one_session_state) in
  List.length (rows new) = 2%nat
  /\ value_at new 0 "app" = Str "browser"
  /\ value_at new 1 "app" = Str "mail"
  /\ value_at new 1 "start" = NaN.
Proof.
  intros i new.
  pose proof (import_appends_records one_session_state i two_column_file
                (mkframe ["id"; "app"] [[Str "x1"; Str "mail"]])
                eq_refl ltac:(vm_compute; reflexivity)) as H.
  cbv zeta in H. destruct H as (_ & _ & Hl & _ & Hold & Hnew & Hna & _).
  split; [exact Hl|].
  split; [exact (Hold 0%nat "app" ltac:(simpl; lia))|].
  split; [exact (Hnew 0%nat "app" ltac:(simpl; lia))|].
  refine (eq_trans (Hnew 0%nat "start" ltac:(simpl; lia)) _).
  apply Hna. simpl. intuition discriminate.
Defined.

(* ------------------------------------------------------------------ *)
(** ** The order of instants and the proposed date range *)

Section Order.

Lemma lex_compare_refl a : lex_compare a a = Eq.
Proof. induction a as [|x a IH]; simpl; [reflexivity|]. now rewrite Z.compare_refl. Qed.

Lemma lex_compare_eq a b : lex_compare a b = Eq -> a = b.
Proof.
  revert b. induction a as [|x a IH]; intros [|y b]; simpl; try discriminate;
    [reflexivity|].
  destruct (Z.compare_spec x y) as [Exy|Exy|Exy]; try discriminate.
  intros H. subst y. now rewrite (IH b H).
Qed.

Lemma lex_compare_antisym a b : lex_compare b a = CompOpp (lex_compare a b).
Proof.
  revert b. induction a as [|x a IH]; intros [|y b]; simpl; try reflexivity.
  rewrite (Z.compare_antisym x y).
  destruct (x ?= y); simpl; [apply IH | reflexivity | reflexivity].
Qed.

(** [a <= b <= c] for the lexicographic order. *)
Lemma lex_compare_trans a : forall b c,
  lex_compare a b <> Gt -> lex_compare b c <> Gt -> lex_compare a c <> Gt.
Proof.
  induction a as [|x a IH]; intros [|y b] [|z c]; simpl; try congruence.
  destruct (Z.compare_spec x y), (Z.compare_spec y z), (Z.compare_spec x z);
    try congruence; try lia.
  apply IH.
Qed.

(** The order of a prefix of the fields follows that of the fields. *)
Lemma lex_compare_firstn n a : forall b,
  lex_compare a b <> Gt -> List.length a = List.length b ->
  lex_compare (firstn n a) (firstn n b) <> Gt.
Proof.
  revert a. induction n as [|n IH]; intros [|x a] [|y b]; simpl;
    try congruence; try discriminate.
  destruct (x ?= y); try congruence.
  intros H Hl. apply IH; [exact H | congruence].
Qed.

Lemma leb_refl t : leb t t = true.
Proof. unfold leb, compare. now rewrite lex_compare_refl. Qed.

Lemma leb_trans a b c : leb a b = true -> leb b c = true -> leb a c = true.
Proof.
  unfold leb, compare. intros H1 H2.
  pose proof (lex_compare_trans (fields a) (fields b) (fields c)) as H.
  destruct (lex_compare (fields a) (fields b)); try discriminate;
    destruct (lex_compare (fields b) (fields c)); try discriminate;
    destruct (lex_compare (fields a) (fields c)); try reflexivity;
    exfalso; apply H; congruence.
Qed.

Lemma leb_total a b : leb a b = false -> leb b a = true.
Proof.
  unfold leb, compare. rewrite (lex_compare_antisym (fields a) (fields b)).
  now destruct (lex_compare (fields a) (fields b)).
Qed.

Lemma leb_date a b : leb a b = true -> date_leb (date_of a) (date_of b) = true.
Proof.
  unfold leb, compare, date_leb, date_compare. intros H.
  pose proof (lex_compare_firstn 3 (fields a) (fields b)) as Hf.
  cbn [firstn fields] in Hf. cbn [date_of dyear dmonth dday].
  match goal with
  | |- match ?c with _ => _ end = true =>
      destruct c eqn:E; try reflexivity
  end.
  exfalso. apply Hf; [|reflexivity|reflexivity].
  unfold fields. now destruct (lex_compare _ _).
Qed.

Lemma stamp_min_least l a :
  stamp_min l = Some a -> forall t, In (Stamp t) l -> leb a t = true.
Proof.
  revert a. induction l as [|c l IH]; intros a Ha t Hin; [contradiction|].
  assert (Hskip : (forall u, c <> Stamp u) -> stamp_min (c :: l) = stamp_min l).
  { intros Hn. destruct c as [ | | |u'| | ]; try reflexivity. now elim (Hn u'). }
  destruct c as [ | | |u| | ];
    try (rewrite Hskip in Ha by congruence;
         destruct Hin as [Hin|Hin]; [discriminate | now apply (IH a)]).
  cbn [stamp_min] in Ha.
  destruct (stamp_min l) as [m|] eqn:Em.
  - injection Ha as <-. destruct (leb u m) eqn:E.
    + destruct Hin as [Hin|Hin]; [injection Hin as <-; apply leb_refl|].
      apply (leb_trans _ m); [exact E | now apply (IH m)].
    + destruct Hin as [Hin|Hin]; [injection Hin as <-; now apply leb_total|].
      now apply (IH m).
  - injection Ha as <-.
    destruct Hin as [Hin|Hin]; [injection Hin as <-; apply leb_refl|].
    exfalso. clear -Em Hin. induction l as [|c l IHl]; [contradiction|].
    destruct Hin as [->|Hin].
    + cbn [stamp_min] in Em. destruct (stamp_min l); discriminate.
    + apply IHl; [|exact Hin]. destruct c; try exact Em.
      cbn [stamp_min] in Em. destruct (stamp_min l); discriminate.
Qed.

Lemma stamp_max_greatest l b :
  stamp_max l = Some b -> forall t, In (Stamp t) l -> leb t b = true.
Proof.
  revert b. induction l as [|c l IH]; intros b Hb t Hin; [contradiction|].
  assert (Hskip : (forall u, c <> Stamp u) -> stamp_max (c :: l) = stamp_max l).
  { intros Hn. destruct c as [ | | |u'| | ]; try reflexivity. now elim (Hn u'). }
  destruct c as [ | | |u| | ];
    try (rewrite Hskip in Hb by congruence;
         destruct Hin as [Hin|Hin]; [discriminate | now apply (IH b)]).
  cbn [stamp_max] in Hb.
  destruct (stamp_max l) as [m|] eqn:Em.
  - injection Hb as <-. destruct (leb m u) eqn:E.
    + destruct Hin as [Hin|Hin]; [injection Hin as <-; apply leb_refl|].
      apply (leb_trans _ m); [now apply (IH m) | exact E].
    + destruct Hin as [Hin|Hin]; [injection Hin as <-; now apply leb_total|].
      now apply (IH m).
  - injection Hb as <-.
    destruct Hin as [Hin|Hin]; [injection Hin as <-; apply leb_refl|].
    exfalso. clear -Em Hin. induction l as [|c l IHl]; [contradiction|].
    destruct Hin as [->|Hin].
    + cbn [stamp_max] in Em. destruct (stamp_max l); discriminate.
    + apply IHl; [|exact Hin]. destruct c; try exact Em.
      cbn [stamp_max] in Em. destruct (stamp_max l); discriminate.
Qed.

End Order.

(** The block computes the range it proposes and the daily totals it draws
    as [proposed_range] and [daily_chart] do. *)
Lemma usage_analytics_parts i :
  usage_analytics i
  = (df <- load_sessions ;;
     if empty df
     then show (st_info "No sessions recorded yet. Add one to see analytics.")
     else
       sd <- lift (rbind (getitem df "start") to_datetime_col) ;;
       df1 <- setitem_in_place df "start_dt" sd ;;
       ed <- lift (rbind (getitem df1 "end") to_datetime_col) ;;
       df2 <- setitem_in_place df1 "end_dt" ed ;;
       proposed <- lift (proposed_range df2) ;;
       let range := match date_range i with Some r => r | None => proposed end in
       view <- lift (analytics_view df2 range) ;;
       total <- lift (total_min view) ;;
       show (st_metric "Total Screen Time (mins)" total) ;;
       apps <- lift (by_app view) ;;
       cats <- lift (by_cat view) ;;
       show (st_table "Top Apps" (firstn 10 apps)) ;;
       show (st_table "Usage by Category" cats) ;;
       days <- lift (daily_chart view) ;;
       show (st_table "chart" days)).
Proof. reflexivity. Qed.

(** X12.  The date range that "Usage Analytics" proposes leaves out no
    record that has a start and an end: with it the view holds exactly those
    records, in their order, and the whole frame when every record has both.
    The records it drops are those with a missing start or end. *)
Theorem proposed_range_selects_dated (df : DataFrame) (range : date * date) :
  proposed_range df = inr range ->
  analytics_view df range
  = inr (mkframe (columns df) (filter (dated (columns df)) (rows df)))
  /\ (forallb (dated (columns df)) (rows df) = true ->
      analytics_view df range = inr df).
Proof.
  unfold proposed_range, analytics_view. intros H.
  destruct (has_column "start_dt" (columns df)) eqn:Hs;
    [|unfold getitem in H; rewrite Hs in H; discriminate].
  destruct (has_column "end_dt" (columns df)) eqn:He;
    [|unfold getitem in H; rewrite Hs, He in H; discriminate].
  rewrite (getitem_present _ _ Hs), (getitem_present _ _ He) in *.
  cbn [rbind ret] in *.
  set (c1 := map (at_col (columns df) "start_dt") (rows df)) in *.
  set (c2 := map (at_col (columns df) "end_dt") (rows df)) in *.
  destruct (stamp_min c1) as [a|] eqn:Ea; [|discriminate].
  destruct (stamp_max c2) as [b|] eqn:Eb; [|discriminate].
  injection H as <-. cbn [fst snd].
  assert (Hv : loc df (map (fun p => date_ge (date_of a) (fst p)
                                     && date_le (date_of b) (snd p))
                           (combine c1 c2))
               = mkframe (columns df) (filter (dated (columns df)) (rows df))).
  { subst c1 c2. rewrite combine_map_map, map_map. cbn [fst snd].
    rewrite (loc_as_filter df
               (fun r => date_ge (date_of a) (at_col (columns df) "start_dt" r)
                         && date_le (date_of b) (at_col (columns df) "end_dt" r))).
    f_equal. apply filter_ext_in. intros r Hr. unfold dated, date_ge, date_le.
    destruct (at_col (columns df) "start_dt" r) as [ | | |t| | ] eqn:Et;
      try reflexivity.
    destruct (at_col (columns df) "end_dt" r) as [ | | |u| | ] eqn:Eu;
      cbn [dt_date]; try apply andb_false_r.
    rewrite (leb_date a t), (leb_date u b); [reflexivity | |].
    - apply (stamp_max_greatest _ _ Eb). rewrite <- Eu. now apply in_map.
    - apply (stamp_min_least _ _ Ea). rewrite <- Et. now apply in_map. }
  rewrite Hv. split; [reflexivity|].
  intros Hall.
  assert (Hf : filter (dated (columns df)) (rows df) = rows df).
  { rewrite forallb_forall in Hall. generalize (rows df) Hall.
    induction l as [|r l IH]; intros Hl; [reflexivity|].
    simpl. rewrite (Hl r (or_introl eq_refl)). f_equal.
    apply IH. intros x Hx. apply Hl. now right. }
  rewrite Hf, frame_eta. reflexivity.
Qed.

(** X12 on the analysed ledger with one session. *)
Lemma proposed_range_selects_dated_witness :
  analytics_view (ledger analysed_state)
                 (mkdate 2024 1 1, mkdate 2024 1 1)
  = inr (ledger analysed_state).
Proof.
  apply (proposed_range_selects_dated (ledger analysed_state)
           (mkdate 2024 1 1, mkdate 2024 1 1) eq_refl).
  reflexivity.
Defined.

(* ------------------------------------------------------------------ *)
(** ** The usage tables *)

Section Keys.

Lemma Qeq_bool_sym x y : Qeq_bool x y = Qeq_bool y x.
Proof. unfold Qeq_bool. apply Z.eqb_sym. Qed.

Lemma key_eqb_sym a b : key_eqb a b = key_eqb b a.
Proof.
  destruct a as [s|x|x|t| |], b as [s'|y|y|u| |]; simpl; try reflexivity.
  - apply String.eqb_sym.
  - apply Qeq_bool_sym.
  - now destruct x, y.
  - unfold compare. rewrite (lex_compare_antisym (fields u) (fields t)).
    now destruct (lex_compare (fields u) (fields t)).
Qed.

Lemma key_eqb_refl a : isna a = false -> key_eqb a a = true.
Proof.
  destruct a as [s|x|x|t| |]; simpl; try discriminate; intros _.
  - apply String.eqb_refl.
  - apply Qeq_bool_refl.
  - now destruct x.
  - unfold compare. now rewrite lex_compare_refl.
Qed.

Lemma compare_Eq t u :
  match compare t u with Eq => true | _ => false end = true -> t = u.
Proof.
  unfold compare. destruct (lex_compare (fields t) (fields u)) eqn:E;
    try discriminate. intros _. apply lex_compare_eq in E.
  destruct t, u. unfold fields in E. simpl in E. congruence.
Qed.

Lemma key_eqb_trans a b c :
  key_eqb a b = true -> key_eqb b c = true -> key_eqb a c = true.
Proof.
  destruct a as [s|x|x|t| |], b as [s'|y|y|u| |], c as [s''|z|z|v| |];
    simpl; try discriminate; intros H1 H2;
    repeat match goal with
           | H : Qeq_bool _ _ = true |- _ => apply Qeq_bool_eq in H
           | H : String.eqb _ _ = true |- _ => apply String.eqb_eq in H
           | H : Bool.eqb _ _ = true |- _ => apply eqb_prop in H
           | H : match compare _ _ with _ => _ end = true |- _ =>
               apply compare_Eq in H
           end;
    subst;
    try apply String.eqb_refl;
    try (unfold compare; now rewrite lex_compare_refl);
    try (apply Qeq_eq_bool);
    try (now destruct z);
    repeat match goal with
           | b : bool |- _ => destruct b
           end;
    try reflexivity; try lra;
    try (exfalso; lra).
Qed.

(** Two keys that are equal are equal to the same keys. *)
Lemma key_eqb_congr a b c :
  key_eqb a b = true -> key_eqb a c = key_eqb b c.
Proof.
  intros H. destruct (key_eqb b c) eqn:E.
  - now apply (key_eqb_trans a b c).
  - destruct (key_eqb a c) eqn:E'; [|reflexivity].
    rewrite <- E. symmetry. apply (key_eqb_trans b a c); [|exact E'].
    now rewrite key_eqb_sym.
Qed.

End Keys.

Section UsageTables.

Lemma key_eqb_na a b : isna a = true -> key_eqb a b = false.
Proof. destruct a; try discriminate; reflexivity. Qed.

Lemma total_of_cons p g k :
  total_of k (p :: g)
  = if key_eqb (fst p) k then (snd p + total_of k g)%Q else total_of k g.
Proof. unfold total_of. simpl. now destruct (key_eqb (fst p) k). Qed.

Lemma total_of_add_to_group k0 k x g :
  (total_of k0 (add_to_group k x g)
   == total_of k0 g + (if key_eqb k k0 then x else 0))%Q.
Proof.
  induction g as [|[k' s] g IH].
  - simpl. rewrite total_of_cons. cbn [fst snd].
    destruct (key_eqb k k0); unfold total_of; simpl; ring.
  - cbn [add_to_group]. destruct (key_eqb k' k) eqn:E.
    + rewrite !total_of_cons. cbn [fst snd].
      rewrite <- (key_eqb_congr k' k k0 E).
      destruct (key_eqb k' k0); ring.
    + rewrite !total_of_cons. cbn [fst snd].
      destruct (key_eqb k' k0); rewrite IH; ring.
Qed.

(** After the grouping a table holds for each key what it held before and
    the durations of the records of that key. *)
Lemma groupby_acc_total_of kv : forall g g',
  groupby_acc g kv = inr g' ->
  forall k0, exists x,
    sum (durations_of k0 kv) = inr x
    /\ (total_of k0 g' == total_of k0 g + x)%Q.
Proof.
  induction kv as [|[k v] kv IH]; intros g g' H k0.
  - injection H as <-. exists 0%Q. split; [reflexivity | ring].
  - cbn [groupby_acc] in H. unfold durations_of. cbn [filter fst].
    destruct (isna k) eqn:Ek.
    + rewrite (key_eqb_na k k0 Ek). apply (IH g g' H k0).
    + destruct (summand v) as [e|x'] eqn:Ev; [discriminate|].
      cbn [rbind] in H. destruct (IH _ _ H k0) as (x1 & Hx1 & Ht).
      pose proof (total_of_add_to_group k0 k x' g) as Ha.
      destruct (key_eqb k k0).
      * exists (x' + x1)%Q. split; [|rewrite Ht, Ha; ring].
        cbn [map snd sum]. rewrite Ev. cbn [rbind].
        unfold durations_of in Hx1. now rewrite Hx1.
      * exists x1. split; [exact Hx1 | rewrite Ht, Ha; ring].
Qed.

Lemma ForallOrdPairs_snoc {A} (R : A -> A -> Prop) l a :
  ForallOrdPairs R l -> Forall (fun b => R b a) l ->
  ForallOrdPairs R (l ++ [a]).
Proof.
  induction 1 as [|b l Hb Hl IH]; intros Ha; simpl.
  - repeat constructor.
  - inversion Ha; subst. constructor; [|now apply IH].
    apply Forall_app. split; [exact Hb | now constructor].
Qed.

Lemma add_to_group_keys k x g :
  map fst (add_to_group k x g)
  = if existsb (fun a => key_eqb a k) (map fst g) then map fst g
    else (map fst g ++ [k])%list.
Proof.
  induction g as [|[k' s] g IH]; [reflexivity|].
  cbn [add_to_group map fst existsb].
  destruct (key_eqb k' k); [reflexivity|].
  cbn [map fst orb]. rewrite IH.
  now destruct (existsb _ _).
Qed.

Lemma keys_once_add_to_group k x g :
  keys_once g -> keys_once (add_to_group k x g).
Proof.
  unfold keys_once. intros H. rewrite add_to_group_keys.
  destruct (existsb _ _) eqn:E; [exact H|].
  apply ForallOrdPairs_snoc; [exact H|].
  apply Forall_forall. intros a Ha.
  destruct (key_eqb a k) eqn:Ea; [|reflexivity].
  rewrite <- E. symmetry. apply existsb_exists. now exists a.
Qed.

Lemma add_to_group_covers k x g :
  exists a, In a (map fst (add_to_group k x g)) /\ key_eqb a k = true
  \/ isna k = true.
Proof.
  rewrite add_to_group_keys.
  destruct (existsb (fun a => key_eqb a k) (map fst g)) eqn:E.
  - apply existsb_exists in E. destruct E as (a & Ha & Hk). exists a. now left.
  - exists k. destruct (isna k) eqn:Ek; [now right|]. left.
    split; [apply in_or_app; right; now left | now apply key_eqb_refl].
Qed.

Lemma add_to_group_incl k x g a :
  In a (map fst g) -> In a (map fst (add_to_group k x g)).
Proof.
  rewrite add_to_group_keys. destruct (existsb _ _); [auto|].
  intros H. apply in_or_app. now left.
Qed.

Lemma add_to_group_na k x g :
  isna k = false -> Forall (fun a => isna a = false) (map fst g) ->
  Forall (fun a => isna a = false) (map fst (add_to_group k x g)).
Proof.
  intros Hk Hg. rewrite add_to_group_keys. destruct (existsb _ _); [exact Hg|].
  apply Forall_app. split; [exact Hg | now constructor].
Qed.

(** The keys of the grouping: none missing, none twice, one for every
    record that has a key. *)
Lemma groupby_acc_keys kv : forall g g',
  groupby_acc g kv = inr g' ->
  keys_once g -> Forall (fun a => isna a = false) (map fst g) ->
  keys_once g'
  /\ Forall (fun a => isna a = false) (map fst g')
  /\ incl (map fst g) (map fst g')
  /\ forall p, In p kv -> isna (fst p) = false ->
       exists a, In a (map fst g') /\ key_eqb a (fst p) = true.
Proof.
  induction kv as [|[k v] kv IH]; intros g g' H Ho Hn.
  - injection H as <-. repeat split; auto using incl_refl. intros p [].
  - cbn [groupby_acc] in H. destruct (isna k) eqn:Ek.
    + destruct (IH _ _ H Ho Hn) as (H1 & H2 & H3 & H4).
      repeat split; auto. intros p [<-|Hp] Hna; [cbn in Hna; congruence|].
      now apply H4.
    + destruct (summand v) as [e|x] eqn:Ev; [discriminate|]. cbn [rbind] in H.
      destruct (IH _ _ H (keys_once_add_to_group k x g Ho)
                   (add_to_group_na k x g Ek Hn)) as (H1 & H2 & H3 & H4).
      repeat split; auto.
      * intros a Ha. apply H3. now apply add_to_group_incl.
      * intros p [<-|Hp] Hna; [|now apply H4]. cbn [fst].
        destruct (add_to_group_covers k x g) as (a & [[Ha Hk]|Hk]);
          [|congruence].
        exists a. split; [now apply H3 | exact Hk].
Qed.

Lemma insert_desc_In p l x : In x (insert_desc p l) <-> x = p \/ In x l.
Proof.
  induction l as [|q r IH]; simpl; [intuition|].
  destruct (Qle_bool (snd q) (snd p)); simpl; [intuition|].
  rewrite IH. intuition.
Qed.

Lemma sort_values_desc_In l x : In x (sort_values_desc l) <-> In x l.
Proof.
  unfold sort_values_desc. induction l as [|p l IH]; simpl; [tauto|].
  rewrite insert_desc_In, IH. intuition.
Qed.

Lemma insert_desc_descending p l :
  descending l -> descending (insert_desc p l).
Proof.
  unfold descending. induction 1 as [|q r Hq Hr IH]; simpl.
  - repeat constructor.
  - destruct (Qle_bool (snd q) (snd p)) eqn:E.
    + apply Qle_bool_iff in E. constructor; [|now constructor].
      constructor; [exact E|].
      rewrite Forall_forall in *. intros x Hx.
      apply Qle_trans with (snd q); [now apply Hq | exact E].
    + apply Qle_bool_false in E. constructor; [|exact IH].
      apply Forall_forall. intros x Hx. apply insert_desc_In in Hx.
      destruct Hx as [->|Hx]; [now apply Qlt_le_weak|].
      rewrite Forall_forall in Hq. now apply Hq.
Qed.

Lemma sort_values_desc_descending l : descending (sort_values_desc l).
Proof.
  unfold sort_values_desc. induction l as [|p l IH]; simpl;
    [constructor | now apply insert_desc_descending].
Qed.

Lemma keys_once_cons p l :
  keys_once (p :: l)
  <-> Forall (fun q => key_eqb (fst p) (fst q) = false) l /\ keys_once l.
Proof.
  unfold keys_once. cbn [map]. split.
  - intros H. inversion H; subst. split; [|assumption].
    rewrite Forall_forall in *. intros q Hq.
    match goal with H : forall x, In x (map fst l) -> _ |- _ =>
      apply H end. now apply in_map.
  - intros [H1 H2]. constructor; [|exact H2].
    rewrite Forall_forall in *. intros a Ha.
    apply in_map_iff in Ha. destruct Ha as (q & <- & Hq). now apply H1.
Qed.

Lemma insert_desc_keys_once p l :
  keys_once (p :: l) -> keys_once (insert_desc p l).
Proof.
  induction l as [|q r IH]; simpl; [auto|].
  destruct (Qle_bool (snd q) (snd p)); [auto|].
  intros H. apply keys_once_cons in H. destruct H as [Hp Hqr].
  apply keys_once_cons in Hqr. destruct Hqr as [Hq Hr].
  inversion Hp; subst.
  apply keys_once_cons. split.
  - apply Forall_forall. intros x Hx. apply insert_desc_In in Hx.
    destruct Hx as [->|Hx].
    + now rewrite key_eqb_sym.
    + rewrite Forall_forall in Hq. now apply Hq.
  - apply IH. apply keys_once_cons. now split.
Qed.

Lemma sort_values_desc_keys_once l :
  keys_once l -> keys_once (sort_values_desc l).
Proof.
  unfold sort_values_desc. induction l as [|p l IH]; simpl; [auto|].
  intros H. apply keys_once_cons in H. destruct H as [Hp Hl].
  apply insert_desc_keys_once. apply keys_once_cons. split; [|now apply IH].
  apply Forall_forall. intros x Hx.
  apply (proj1 (sort_values_desc_In l x)) in Hx.
  rewrite Forall_forall in Hp. now apply Hp.
Qed.

(** In a table without repeated keys, what it holds for a key is the total
    of the entry of that key. *)
Lemma total_of_entry g k t :
  keys_once g -> In (k, t) g -> isna k = false -> (total_of k g == t)%Q.
Proof.
  intros Ho Hin Hk. induction g as [|p g IH]; [contradiction|].
  apply keys_once_cons in Ho. destruct Ho as [Hp Hg].
  rewrite total_of_cons. destruct Hin as [->|Hin].
  - cbn [fst snd]. rewrite (key_eqb_refl k Hk).
    assert (H0 : total_of k g = 0%Q).
    { unfold total_of. cbn [fst] in Hp. clear -Hp.
      induction g as [|q g IH]; [reflexivity|]. inversion Hp; subst.
      simpl. rewrite key_eqb_sym.
      match goal with H : key_eqb k (fst q) = false |- _ => rewrite H end.
      now apply IH. }
    rewrite H0. ring.
  - rewrite Forall_forall in Hp. specialize (Hp _ Hin). cbn [fst] in Hp.
    rewrite Hp. now apply IH.
Qed.

End UsageTables.

(** X13.  The tables "Top Apps" and "Usage by Category" are made by
    [view.groupby(c)["duration_min"].sum().sort_values(ascending=False)].
    Whenever that returns a table: no total is smaller than a total below
    it; no key is missing and no key comes twice; the total of each key is
    the sum of the durations of the records of the view with that key; and
    every record of the view that has a key is counted under an entry. *)
Theorem usage_table_by_key (view : DataFrame) (c : string) (g : list (cell * Q)) :
  by_column view c = inr g ->
  descending g
  /\ keys_once g
  /\ (forall k t, In (k, t) g ->
        isna k = false
        /\ exists t', sum (durations_of k (keyed view c)) = inr t'
                      /\ (t == t')%Q)
  /\ (forall r, In r (rows view) ->
        isna (at_col (columns view) c r) = false ->
        exists k t, In (k, t) g /\ key_eqb k (at_col (columns view) c r) = true).
Proof.
  unfold by_column, grouped. intros H.
  destruct (getitem view c) as [e|keys] eqn:Ek; [discriminate|].
  cbn [rbind] in H.
  destruct (getitem view "duration_min") as [e|dur] eqn:Ed; [discriminate|].
  cbn [rbind] in H.
  destruct (groupby_sum (combine keys dur)) as [e|g0] eqn:Eg; [discriminate|].
  injection H as <-.
  assert (Hkv : combine keys dur = keyed view c).
  { unfold getitem in Ek, Ed.
    destruct (has_column c (columns view)); [|discriminate].
    destruct (has_column "duration_min" (columns view)); [|discriminate].
    injection Ek as <-. injection Ed as <-. apply combine_map_map. }
  rewrite Hkv in Eg. unfold groupby_sum in Eg.
  destruct (groupby_acc_keys _ _ _ Eg) as (Ho & Hn & _ & Hc);
    [constructor | constructor |].
  split; [apply sort_values_desc_descending|].
  split; [now apply sort_values_desc_keys_once|].
  split.
  - intros k t Hin. apply (proj1 (sort_values_desc_In g0 (k, t))) in Hin.
    assert (Hk : isna k = false).
    { rewrite Forall_forall in Hn. apply Hn.
      change k with (fst (k, t)). now apply in_map. }
    split; [exact Hk|].
    destruct (groupby_acc_total_of _ _ _ Eg k) as (x & Hx & Ht).
    exists x. split; [exact Hx|].
    rewrite <- (total_of_entry g0 k t Ho Hin Hk), Ht.
    unfold total_of, totals_sum. simpl. ring.
  - intros r Hr Hna.
    destruct (Hc (at_col (columns view) c r,
                  at_col (columns view) "duration_min" r)) as (a & Ha & Hk).
    { unfold keyed. apply in_map_iff. now exists r. }
    { exact Hna. }
    apply in_map_iff in Ha. destruct Ha as ([k t] & <- & Hin).
    exists k, t. split; [now apply (proj2 (sort_values_desc_In g0 (k, t))) | exact Hk].
Qed.

(** X13 for the apps of the analysed ledger with one session. *)
Lemma usage_table_by_key_witness :
  keys_once [(Str "browser", 2500 # 100)]
  /\ sum (durations_of (Str "browser") (keyed (ledger analysed_state) "app"))
     = inr (2500 # 100)%Q.
Proof.
  destruct (usage_table_by_key (ledger analysed_state) "app"
              [(Str "browser", 2500 # 100)] eq_refl) as (_ & Ho & _).
  split; [exact Ho | reflexivity].
Defined.

(* ------------------------------------------------------------------ *)
(** ** The export is read back *)

Section ExportReadBack.

Lemma filter_all_in {A} (p : A -> bool) (l : list A) :
  (forall a, In a l -> p a = true) -> filter p l = l.
Proof.
  induction l as [|a r IH]; intros H; simpl; [reflexivity|].
  rewrite (H a (or_introl eq_refl)). f_equal. apply IH. intros x Hx.
  apply H. now right.
Qed.

Lemma existsb_none_in {A} (p : A -> bool) (l : list A) :
  (forall a, In a l -> p a = false) -> existsb p l = false.
Proof.
  induction l as [|a r IH]; intros H; simpl; [reflexivity|].
  rewrite (H a (or_introl eq_refl)). apply IH. intros x Hx. apply H. now right.
Qed.

Lemma raises_only_rmap {A B} (ok : exn -> Prop) (f : A -> result B) l :
  (forall a, raises_only ok (f a)) -> raises_only ok (rmap f l).
Proof.
  intros H. induction l as [|a r IH]; [apply raises_only_ret|].
  cbn [rmap]. apply raises_only_rbind; [apply H|]. intros b _.
  apply raises_only_rbind; [exact IH|]. intros bs _. apply raises_only_ret.
Qed.

Lemma raises_only_column_kind col :
  raises_only (fun e => e = Unmodelled) (column_kind col).
Proof.
  intros e. unfold column_kind.
  repeat match goal with
         | |- context [if ?b then _ else _] => destruct b
         end; intros H; try discriminate; now injection H as <-.
Qed.

(** The header that [to_csv] writes names the columns, unless a name is
    empty. *)
Lemma header_names_text cols :
  rmap header_name (map Text cols) = inr cols
  \/ rmap header_name (map Text cols) = inl Unmodelled.
Proof.
  induction cols as [|c cols IH]; [now left|].
  cbn [map rmap]. destruct c as [|a c]; [now right|].
  cbn [header_name rbind ret]. destruct IH as [-> | ->]; [now left | now right].
Qed.

(** Every line that [to_csv] writes for a rectangular frame has one field
    per column. *)
Lemma to_csv_lines df :
  rect df ->
  exists lines,
    to_csv df = map Text (columns df) :: lines
    /\ List.length lines = List.length (rows df)
    /\ forall l, In l lines -> List.length l = List.length (columns df).
Proof.
  intros Hr. unfold to_csv. eexists. split; [reflexivity|].
  split; [now rewrite length_map|].
  intros l Hl. apply in_map_iff in Hl. destruct Hl as (r & <- & Hin).
  rewrite length_map, length_combine, length_map, length_seq.
  unfold rect in Hr. rewrite Forall_forall in Hr. rewrite (Hr r Hin). lia.
Qed.

(** What [read_csv] makes of a file that [to_csv] wrote. *)
Lemma read_csv_to_csv df :
  rect df -> columns df <> [] ->
  read_csv (to_csv df) = inl Unmodelled
  \/ exists imp,
       read_csv (to_csv df) = inr imp
       /\ columns imp = columns df
       /\ List.length (rows imp) = List.length (rows df).
Proof.
  intros Hr Hc. destruct (to_csv_lines df Hr) as (lines & -> & Hn & Hl).
  set (h := List.length (columns df)) in *.
  assert (Hh : (0 < h)%nat).
  { subst h. destruct (columns df); [congruence | simpl; lia]. }
  unfold read_csv.
  rewrite filter_all_in.
  2:{ intros l [<-|Hin].
      - destruct (columns df); [congruence | reflexivity].
      - specialize (Hl l Hin). destruct l; [simpl in Hl; lia | reflexivity]. }
  destruct (header_names_text (columns df)) as [-> | ->]; [|now left].
  cbn [rbind]. destruct (distinct (columns df)); [|now left]. cbn [negb].
  fold h.
  destruct lines as [|first rest].
  { right. eexists. split; [reflexivity|]. split; [reflexivity | exact Hn]. }
  cbv beta iota.
  rewrite (proj2 (Nat.ltb_ge h (List.length first)))
    by (rewrite (Hl first (or_introl eq_refl)); lia).
  rewrite existsb_none_in.
  2:{ intros l Hin. rewrite (Hl l Hin). apply Nat.ltb_irrefl. }
  match goal with
  | |- rbind ?m _ = _ \/ _ => destruct m as [e|kinds] eqn:Ek
  end.
  - left. cbn [rbind]. f_equal.
    apply (raises_only_rmap (fun e => e = Unmodelled) _ _
             (fun j => raises_only_column_kind _) e Ek).
  - right. cbn [rbind ret]. eexists. split; [reflexivity|].
    cbn [columns rows]. split; [reflexivity|].
    now rewrite !length_map.
Qed.

End ExportReadBack.

(** X14.  The import takes what the export wrote.  For a rectangular ledger
    [df] with columns, uploading [export_csv df] never shows "Import
    failed": unless it stops on data outside the embedding, the import
    returns normally with the success message and the ledger grows by as
    many records as [df] has, so an export imported back into its own
    ledger doubles the records. *)
Theorem export_is_imported
  (df : DataFrame) (s : session_state) (i : inputs) :
  rect df -> columns df <> [] ->
  uploaded i = Some (export_csv df) ->
  let m := import_csv i in
  outcome m s = inl Unmodelled
  \/ (outcome m s = inr tt
      /\ shown m s = [st_success "Data imported successfully."]
      /\ List.length (rows (ledger (state_after m s)))
         = (List.length (rows (ledger s)) + List.length (rows df))%nat).
Proof.
  intros Hr Hc Hu m. subst m. unfold export_csv in Hu.
  destruct (read_csv_to_csv df Hr Hc) as [He | (imp & Hi & _ & Hn)].
  - left. unfold outcome, import_csv. rewrite Hu, He. reflexivity.
  - right. unfold outcome, shown, state_after.
    rewrite (import_csv_run s i _ imp Hu Hi). cbn [fst snd].
    rewrite ledger_stored, concat_rows_length, Hn. auto.
Qed.

(** X14 for the ledger with one session, exported and imported back. *)
Lemma export_is_imported_witness :
  let df := ledger one_session_state in
  let i := with_uploaded (export_csv df) sample_inputs in
  List.length (rows (ledger (state_after (import_csv i) one_session_state)))
  = 2%nat.
Proof.
  intros df i.
  destruct (export_is_imported df one_session_state i
              ltac:(repeat constructor) ltac:(discriminate) eq_refl)
    as [H | (_ & _ & H)].
  - vm_compute in H. discriminate.
  - exact H.
Defined.

(* ------------------------------------------------------------------ *)
(** ** The table of recorded sessions *)

Section ShownTable.

Lemma at_col_nil cols c : at_col cols c [] = NaN.
Proof.
  unfold at_col. destruct (index_of c cols) as [j|]; [|reflexivity].
  now destruct j.
Qed.

Lemma drop_columns_In cs df c :
  In c (columns (drop_columns cs df))
  <-> In c (columns df) /\ ~ In c cs.
Proof.
  unfold drop_columns. cbn [columns]. rewrite filter_In.
  split; intros [H1 H2]; split; try exact H1.
  - intros Hin. apply negb_true_iff in H2.
    assert (He : existsb (String.eqb c) cs = true).
    { apply existsb_exists. exists c. split; [exact Hin | apply String.eqb_refl]. }
    congruence.
  - apply negb_true_iff. destruct (existsb (String.eqb c) cs) eqn:E;
      [|reflexivity].
    apply existsb_exists in E. destruct E as (x & Hx & Hc).
    apply String.eqb_eq in Hc. subst x. contradiction.
Qed.

Lemma drop_columns_value cs df k c :
  ~ In c cs -> value_at (drop_columns cs df) k c = value_at df k c.
Proof.
  intros Hc. unfold value_at.
  destruct (in_dec string_dec c (columns (drop_columns cs df))) as [Hin|Hin].
  - unfold drop_columns in *. cbn [columns rows] in *.
    set (keep := filter _ (columns df)) in *.
    destruct (Nat.lt_ge_cases k (List.length (rows df))) as [Hk|Hk].
    + rewrite (nth_indep _ [] (reindex keep (columns df) []))
        by (rewrite length_map; exact Hk).
      rewrite (map_nth (reindex keep (columns df))).
      now apply at_col_reindex.
    + rewrite !nth_overflow by (try rewrite length_map; exact Hk).
      now rewrite !at_col_nil.
  - rewrite (at_col_absent _ _ _ Hin). symmetry. apply at_col_absent.
    intros H. apply Hin. apply drop_columns_In. now split.
Qed.

Lemma shown_sessions_table s i :
  empty (ledger s) = false ->
  exists rest,
    shown (sessions_table i) s
    = st_dataframe (drop_columns ["start_dt"; "end_dt"] (ledger s)) :: rest.
Proof.
  intros He. unfold shown, sessions_table, bind.
  rewrite load_sessions_run, He. cbn [show ret].
  match goal with
  | |- context [when ?b ?m ?s'] => destruct (when b m s') as [[r s2] o2]
  end.
  now exists o2.
Qed.

End ShownTable.

(** X15.  Whenever the ledger has records, the "Recorded Sessions" table is
    the first thing the block shows, whatever the inputs: it has the
    columns of the ledger other than [start_dt] and [end_dt], every record,
    and under each of its columns the values of the ledger. *)
Theorem sessions_table_hides_helpers (s : session_state) (i : inputs) :
  empty (ledger s) = false ->
  exists table rest,
    shown (sessions_table i) s = st_dataframe table :: rest
    /\ (forall c, In c (columns table)
                  <-> In c (columns (ledger s))
                      /\ c <> "start_dt" /\ c <> "end_dt")
    /\ List.length (rows table) = List.length (rows (ledger s))
    /\ forall k c, c <> "start_dt" -> c <> "end_dt" ->
         value_at table k c = value_at (ledger s) k c.
Proof.
  intros He. destruct (shown_sessions_table s i He) as (rest & Hs).
  exists (drop_columns ["start_dt"; "end_dt"] (ledger s)), rest.
  split; [exact Hs|]. split; [|split].
  - intros c. rewrite drop_columns_In. simpl. intuition congruence.
  - unfold drop_columns. cbn [rows]. apply length_map.
  - intros k c H1 H2. apply drop_columns_value. simpl. intuition congruence.
Qed.

(** X15 on the analysed ledger: the table has the seven columns. *)
Lemma sessions_table_hides_helpers_witness :
  exists table rest,
    shown (sessions_table sample_inputs) analysed_state
    = st_dataframe table :: rest
    /\ List.length (rows table) = 1%nat.
Proof.
  destruct (sessions_table_hides_helpers analysed_state sample_inputs eq_refl)
    as (table & rest & Hs & _ & Hl & _).
  exists table, rest. split; [exact Hs | exact Hl].
Defined.

(* ------------------------------------------------------------------ *)
(** ** The line chart *)

Section DailyChart.

(** The records of a view are the records of the frame that the range
    selects. *)
Lemma analytics_view_rows df range view :
  analytics_view df range = inr view ->
  has_column "start_dt" (columns df) = true
  /\ view = mkframe (columns df)
              (filter (fun r =>
                         date_ge (fst range) (at_col (columns df) "start_dt" r)
                         && date_le (snd range) (at_col (columns df) "end_dt" r))
                      (rows df)).
Proof.
  unfold analytics_view. intros H.
  destruct (has_column "start_dt" (columns df)) eqn:Hs;
    [|unfold getitem in H; rewrite Hs in H; discriminate].
  destruct (has_column "end_dt" (columns df)) eqn:He;
    [|unfold getitem in H; rewrite Hs, He in H; discriminate].
  rewrite (getitem_present _ _ Hs), (getitem_present _ _ He) in H.
  cbn [rbind ret] in H. injection H as <-.
  split; [reflexivity|].
  rewrite combine_map_map, map_map. cbn [fst snd].
  apply (loc_as_filter df
           (fun r => date_ge (fst range) (at_col (columns df) "start_dt" r)
                     && date_le (snd range) (at_col (columns df) "end_dt" r))).
Qed.

Lemma date_ge_key d c : date_ge d c = true -> isna (date_key c) = false.
Proof. unfold date_ge, date_key. now destruct (dt_date c). Qed.

Lemma add_to_group_keys_from k x g a :
  In a (map fst (add_to_group k x g)) -> a = k \/ In a (map fst g).
Proof.
  rewrite add_to_group_keys. destruct (existsb _ _); [auto|].
  intros H. apply in_app_or in H. destruct H as [H|[<-|[]]]; auto.
Qed.

Lemma groupby_acc_keys_from kv : forall g g',
  groupby_acc g kv = inr g' ->
  forall a, In a (map fst g') -> In a (map fst g) \/ In a (map fst kv).
Proof.
  induction kv as [|[k v] kv IH]; intros g g' H a Ha.
  - injection H as <-. now left.
  - cbn [groupby_acc] in H. destruct (isna k).
    + destruct (IH _ _ H a Ha); [now left | right; now right].
    + destruct (summand v) as [e|x]; [discriminate|]. cbn [rbind] in H.
      destruct (IH _ _ H a Ha) as [Hg|Hk]; [|right; now right].
      apply add_to_group_keys_from in Hg. destruct Hg as [->|Hg];
        [right; now left | now left].
Qed.

End DailyChart.



(* ------------------------------------------------------------------ *)
(** ** A rerun that adds a session *)

Section AfterAddSession.

Variables (I : DataFrame -> Prop) (i : inputs).
Hypothesis I_setitem :
  forall df c v, I df -> helper c = true ->
    List.length v = List.length (rows df) -> I (setitem df c v).
Hypothesis no_stop : pressed i StopLive = false.
Hypothesis no_delete : pressed i DeleteSession = false.
Hypothesis no_upload : uploaded i = None.

(** The blocks below the "Add Session" button, in a rerun that neither
    stops a live session, nor deletes, nor imports. *)
Lemma hoarex_below_add_session :
  hoarex (fun s => I (ledger s))
         (live_timer i ;; usage_analytics i ;; import_csv i ;;
          export_button i ;; daily_limit_alert i ;; sessions_table i)
         (fun _ s => I (ledger s))
         (fun e s => I (ledger s) /\ True).
Proof.
  assert (Hl : pressed i DeleteSession = true ->
               forall df mask, I df -> I (loc df mask)) by congruence.
  assert (Hlive : hoarex (fun s => I (ledger s)) (live_timer i)
                         (fun _ s => I (ledger s))
                         (fun e s => I (ledger s) /\ True)).
  { unfold live_timer.
    apply hoarex_bind with (Q := fun _ s => I (ledger s));
      [intros s HI; exact HI|]. intros l.
    apply hoarex_bind with (Q := fun _ s => I (ledger s)).
    - destruct l as [t0|].
      + rewrite no_stop. intros s HI. exact HI.
      + destruct (pressed i StartLive); cbn [when]; intros s HI; exact HI.
    - intros []. apply hoarex_bind with (Q := fun _ s => I (ledger s));
        [intros s HI; exact HI|].
      intros [t|] s HI; exact HI. }
  assert (Himport : hoarex (fun s => I (ledger s)) (import_csv i)
                           (fun _ s => I (ledger s))
                           (fun e s => I (ledger s) /\ True)).
  { unfold import_csv. rewrite no_upload. intros s HI. exact HI. }
  apply hoarex_bind with (Q := fun _ s => I (ledger s)); [exact Hlive|].
  intros [].
  apply hoarex_bind with (Q := fun _ s => I (ledger s));
    [apply (hoarex_usage_analytics I (fun _ => True)); auto|]. intros [].
  apply hoarex_bind with (Q := fun _ s => I (ledger s)); [exact Himport|].
  intros [].
  apply hoarex_bind with (Q := fun _ s => I (ledger s));
    [apply (hoarex_export_button I (fun _ => True))|].
  intros [].
  apply hoarex_bind with (Q := fun _ s => I (ledger s));
    [apply (hoarex_daily_limit_alert I (fun _ => True)); auto|]. intros [].
  apply (hoarex_sessions_table I (fun _ => True) i); auto.
Qed.

End AfterAddSession.

(** X17.  A whole rerun caused by the "Add Session" button, with an end
    time after the start time (years 1000 to 9999) and no file uploaded:
    when the rerun is over, also if a later block stopped it with an
    exception, the ledger has exactly one record more; the old records have
    their values under every column but the two helper columns; and the new
    last record carries the identifier drawn, the two texts of [strftime],
    the app, the category, the notes, and the duration of the whole seconds
    between the two instants. *)
Theorem add_session_rerun (s : session_state) (i : inputs) :
  clicked i = Some AddSession -> uploaded i = None ->
  valid (start_time i) = true -> valid (end_time i) = true ->
  1000 <= year (start_time i) -> 1000 <= year (end_time i) ->
  leb (end_time i) (start_time i) = false ->
  let n := to_seconds (end_time i) - to_seconds (start_time i) in
  let old := ledger s in
  let new := ledger (state_after (script i) s) in
  let k := List.length (rows old) in
  List.length (rows new) = S k
  /\ (forall j c, (j < k)%nat -> c <> "start_dt" -> c <> "end_dt" ->
        value_at new j c = value_at old j c)
  /\ value_at new k "id" = Str (uuid4 i)
  /\ value_at new k "start" = Str (strftime (start_time i))
  /\ value_at new k "end" = Str (strftime (end_time i))
  /\ value_at new k "app" = Str (app_name i)
  /\ value_at new k "category" = Str (category_name (category_box i))
  /\ value_at new k "notes" = Str (notes_area i)
  /\ value_at new k "duration_min" = Num (((10 * n + 3) / 6) # 100).
Proof.
  intros Hc Hu Hvs Hve Hys Hye Hle n old new k.
  pose proof (add_session_button_accepts s i Hc Hle Hvs Hve Hys Hye) as Hrun.
  assert (Hd : round2 (total_seconds (whole_seconds (end_time i))
                                     (whole_seconds (start_time i)) / 60)
               = ((10 * n + 3) / 6) # 100).
  { apply round2_seconds.
    now rewrite (total_seconds_whole _ _ (whole_seconds_whole _)
                                     (whole_seconds_whole _)). }
  rewrite Hd in Hrun.
  set (r := from_record _) in Hrun.
  set (s1 := mkstate (Some (concat (ledger s) r)) (live s) (daily_limit s)) in Hrun.
  set (below := live_timer i ;; usage_analytics i ;; import_csv i ;;
                export_button i ;; daily_limit_alert i ;; sessions_table i).
  assert (Hsa : state_after (script i) s = state_after below s1).
  { unfold script, state_after. unfold bind at 1. rewrite Hrun.
    fold below. now destruct (below s1) as [[res s2] o2]. }
  assert (Hp : forall b, b <> AddSession -> pressed i b = false).
  { intros b Hb. unfold pressed. rewrite Hc. destruct b; try reflexivity.
    now elim Hb. }
  assert (Hsame : same_records (ledger s1) (ledger (state_after below s1))).
  { apply (hoarex_state_after _ (fun s' => same_records (ledger s1) (ledger s'))
             _ _ _
             (hoarex_below_add_session (same_records (ledger s1)) i
                (same_records_setitem (ledger s1))
                (Hp StopLive ltac:(discriminate))
                (Hp DeleteSession ltac:(discriminate)) Hu));
      [auto | now intros e s' [H _] |].
    apply same_records_refl. apply concat_rect. }
  apply same_records_values in Hsame. destruct Hsame as (_ & Hlen & Hval).
  subst new old k. rewrite Hsa.
  change (ledger s1) with (concat (ledger s) r) in *.
  assert (Hr : forall c, value_at (concat (ledger s) r)
                                  (List.length (rows (ledger s))) c
                         = value_at r 0 c).
  { intros c. rewrite <- (Nat.add_0_r (List.length (rows (ledger s)))) at 1.
    apply concat_value_right. simpl. lia. }
  split; [rewrite Hlen, concat_rows_length; simpl; lia|].
  split.
  { intros j c Hj H1 H2. rewrite (proj2 (Hval c H1 H2) j).
    now apply concat_value_left. }
  repeat split;
    match goal with
    | |- value_at _ _ ?c = _ =>
        rewrite (proj2 (Hval c ltac:(discriminate) ltac:(discriminate)) _), Hr;
        reflexivity
    end.
Qed.

(** X17 for the session 09:00 to 09:25 added to the empty ledger. *)
Lemma add_session_rerun_witness :
  let i := with_clicked AddSession sample_inputs in
  let new := ledger (state_after (script i) initial_state) in
  List.length (rows new) = 1%nat
  /\ value_at new 0 "duration_min" = Num (2500 # 100).
Proof.
  intros i new.
  pose proof (add_session_rerun initial_state i eq_refl eq_refl eq_refl eq_refl
                ltac:(simpl; lia) ltac:(simpl; lia) eq_refl) as H.
  cbv zeta in H. destruct H as (Hl & _ & _ & _ & _ & _ & _ & _ & Hd).
  split; [exact Hl | exact Hd].
Defined.

(* ------------------------------------------------------------------ *)
(** ** A rerun that deletes *)

Section DeleteRerun.

Lemma bind_assoc {A B C} (m : M A) (f : A -> M B) (g : B -> M C) s :
  bind (bind m f) g s = bind m (fun a => bind (f a) g) s.
Proof.
  unfold bind. destruct (m s) as [[[e|a] s1] o1]; [reflexivity|].
  destruct (f a s1) as [[[e|b] s2] o2]; [reflexivity|].
  destruct (g b s2) as [[r s3] o3]. now rewrite app_assoc.
Qed.

Lemma bind_ext {A B} (m : M A) (f g : A -> M B) s :
  (forall a s', f a s' = g a s') -> bind m f s = bind m g s.
Proof.
  intros H. unfold bind. destruct (m s) as [[[e|a] s1] o1]; [reflexivity|].
  now rewrite H.
Qed.

(** The script is the blocks above the table, then the table. *)
Lemma script_above_table i s :
  script i s = bind (above_table i) (fun _ => sessions_table i) s.
Proof.
  unfold script, above_table.
  rewrite bind_assoc. apply bind_ext. intros [] s1.
  rewrite bind_assoc. apply bind_ext. intros [] s2.
  rewrite bind_assoc. apply bind_ext. intros [] s3.
  rewrite bind_assoc. apply bind_ext. intros [] s4.
  rewrite bind_assoc. apply bind_ext. intros [] s5.
  reflexivity.
Qed.

(** A rerun that returns has run the table on the state that the blocks
    above it left. *)
Lemma script_returns i s :
  outcome (script i) s = inr tt ->
  outcome (above_table i) s = inr tt
  /\ outcome (sessions_table i) (state_after (above_table i) s) = inr tt
  /\ state_after (script i) s
     = state_after (sessions_table i) (state_after (above_table i) s).
Proof.
  unfold outcome, state_after. rewrite script_above_table. unfold bind.
  destruct (above_table i s) as [[[e|[]] s1] o1]; cbn [fst snd];
    [discriminate|].
  destruct (sessions_table i s1) as [[[e|[]] s2] o2]; cbn [fst snd];
    [discriminate|]. auto.
Qed.

Lemma hoarex_above_table (I : DataFrame -> Prop) i :
  (forall df c v, I df -> helper c = true ->
     List.length v = List.length (rows df) -> I (setitem df c v)) ->
  pressed i AddSession = false -> pressed i StopLive = false ->
  uploaded i = None ->
  hoarex (fun s => I (ledger s)) (above_table i)
         (fun _ s => I (ledger s)) (fun e s => I (ledger s) /\ True).
Proof.
  intros Hset Ha Hl Hu.
  assert (Hc : pressed i AddSession = true \/ pressed i StopLive = true
               \/ uploaded i <> None ->
               forall df b, I df -> I (concat df b)).
  { intros [H|[H|H]]; congruence. }
  unfold above_table.
  apply hoarex_bind with (Q := fun _ s => I (ledger s));
    [apply (hoarex_add_session_button I (fun _ => True)); auto|]. intros [].
  apply hoarex_bind with (Q := fun _ s => I (ledger s));
    [apply (hoarex_live_timer I (fun _ => True)); auto|]. intros [].
  apply hoarex_bind with (Q := fun _ s => I (ledger s));
    [apply (hoarex_usage_analytics I (fun _ => True)); auto|]. intros [].
  apply hoarex_bind with (Q := fun _ s => I (ledger s));
    [apply (hoarex_import_csv I (fun _ => True)); auto|]. intros [].
  apply hoarex_bind with (Q := fun _ s => I (ledger s));
    [apply (hoarex_export_button I (fun _ => True))|]. intros [].
  apply (hoarex_daily_limit_alert I (fun _ => True)); auto.
Qed.

Lemma count_id_ids x df :
  count_id x df = List.length (filter (is_text x) (ids df)).
Proof.
  unfold count_id, ids, carries, is_text.
  induction (rows df) as [|r l IH]; [reflexivity|]. simpl.
  destruct (at_col (columns df) "id" r) as [t| | | | |]; simpl;
    try exact IH.
  destruct (String.eqb t x); simpl; now rewrite IH.
Qed.

Lemma filter_split_length {A} (p : A -> bool) (l : list A) :
  (List.length (filter (fun a => negb (p a)) l) + List.length (filter p l))%nat
  = List.length l.
Proof.
  induction l as [|a r IH]; [reflexivity|]. simpl.
  destruct (p a); simpl; lia.
Qed.

(** The counts of identifiers after the handler has deleted. *)
Lemma delete_count s i :
  clicked i = Some DeleteSession ->
  Py.truthy (Py.strip (delete_id i)) = true ->
  empty (ledger s) = false ->
  has_column "id" (columns (ledger s)) = true ->
  let x := Py.strip (delete_id i) in
  let new := ledger (state_after (sessions_table i) s) in
  count_id x new = 0%nat
  /\ (List.length (rows new) + count_id x (ledger s))%nat
     = List.length (rows (ledger s))
  /\ forall y, y <> x -> count_id y new = count_id y (ledger s).
Proof.
  intros Hc Ht He Hid x new.
  destruct (sessions_table_delete s i Hc Ht He Hid) as [_ Hl].
  subst new. rewrite Hl. fold x. unfold count_id. cbn [columns rows].
  split; [now rewrite filter_negb_none|].
  split; [apply filter_split_length|].
  intros y Hy. rewrite filter_disjoint; [reflexivity|].
  intros r. now apply carries_one.
Qed.

End DeleteRerun.

(** X18.  A whole rerun caused by the "Delete Session" button with a text
    that is not blank and no file uploaded, on a rectangular ledger with
    records and an [id] column.  The table is the last block of the script.
    When the rerun returns, the ledger holds no record with the stripped
    text [x] as identifier, as many records less as carried [x], and for
    every other identifier as many records as before.  When a block above
    the table raises, the press is lost: the ledger has as many records of
    every identifier as before. *)
Theorem delete_session_rerun (s : session_state) (i : inputs) :
  clicked i = Some DeleteSession -> uploaded i = None ->
  Py.truthy (Py.strip (delete_id i)) = true ->
  rect (ledger s) -> has_column "id" (columns (ledger s)) = true ->
  rows (ledger s) <> [] ->
  let x := Py.strip (delete_id i) in
  let old := ledger s in
  let new := ledger (state_after (script i) s) in
  (outcome (script i) s = inr tt ->
   count_id x new = 0%nat
   /\ (List.length (rows new) + count_id x old)%nat = List.length (rows old)
   /\ forall y, y <> x -> count_id y new = count_id y old)
  /\ (forall e, outcome (above_table i) s = inl e ->
      outcome (script i) s = inl e
      /\ List.length (rows new) = List.length (rows old)
      /\ forall y, count_id y new = count_id y old).
Proof.
  intros Hc Hu Ht Hr Hid Hrows x old new.
  assert (Hp : forall b, b <> DeleteSession -> pressed i b = false).
  { intros b Hb. unfold pressed. rewrite Hc. destruct b; try reflexivity.
    now elim Hb. }
  set (s1 := state_after (above_table i) s) in *.
  assert (Hsame : same_records (ledger s) (ledger s1)).
  { apply (hoarex_state_after _ (fun s' => same_records (ledger s) (ledger s'))
             _ _ _
             (hoarex_above_table (same_records (ledger s)) i
                (same_records_setitem (ledger s))
                (Hp AddSession ltac:(discriminate))
                (Hp StopLive ltac:(discriminate)) Hu));
      [auto | now intros e s' [H _] |].
    now apply same_records_refl. }
  destruct Hsame as (Hr1 & Hlen & Hcols).
  destruct (Hcols "id" eq_refl) as [Hid1 Hids].
  rewrite Hid in Hid1.
  assert (Hcount : forall y, count_id y (ledger s1) = count_id y (ledger s)).
  { intros y. rewrite !count_id_ids. unfold ids. now rewrite Hids. }
  split.
  - intros Hout. destruct (script_returns i s Hout) as (_ & _ & Hsa).
    fold s1 in Hsa.
    assert (He1 : empty (ledger s1) = false).
    { unfold empty. apply has_column_In in Hid1.
      destruct (columns (ledger s1)); [contradiction|].
      destruct (rows (ledger s1)) eqn:E; [|reflexivity].
      destruct (rows (ledger s)); [congruence | discriminate]. }
    pose proof (delete_count s1 i Hc Ht He1 Hid1) as Hdel.
    fold x in Hdel. rewrite <- Hsa in Hdel. fold new in Hdel.
    destruct Hdel as (H0 & Hl & Hy).
    split; [exact H0|].
    split; [subst old; rewrite <- Hcount, <- Hlen; exact Hl|].
    intros y Hne. subst old. rewrite <- Hcount. now apply Hy.
  - intros e He.
    assert (Hst : script i s = (inl e, s1, snd (above_table i s))).
    { rewrite script_above_table. unfold bind. subst s1.
      unfold outcome, state_after in *.
      destruct (above_table i s) as [[[e'|[]] s'] o']; cbn [fst snd] in *;
        [congruence | discriminate]. }
    subst new old. unfold outcome, state_after. rewrite Hst. cbn [fst snd].
    split; [reflexivity|]. split; [exact Hlen | exact Hcount].
Qed.

(** X18 on the ledger with one session and the identifier of its record;
    and on a ledger whose durations the analytics cannot sum, where the
    press is lost. *)
Lemma delete_session_rerun_witness :
  let i := with_clicked DeleteSession (with_delete_id sample_uuid sample_inputs) in
  let j := with_clicked DeleteSession (with_delete_id "x1" sample_inputs) in
  (outcome (script i) one_session_state = inr tt
   /\ List.length (rows (ledger (state_after (script i) one_session_state)))
      = 0%nat)
  /\ (outcome (script j) text_duration_state = inl TypeError
      /\ count_id "x1" (ledger (state_after (script j) text_duration_state))
         = 1%nat).
Proof.
  intros i j. split.
  - assert (Ho : outcome (script i) one_session_state = inr tt)
      by (vm_compute; reflexivity).
    split; [exact Ho|].
    pose proof (delete_session_rerun one_session_state i eq_refl eq_refl eq_refl
                  ltac:(repeat constructor) eq_refl ltac:(discriminate)) as H.
    cbv zeta in H. destruct H as [H _]. destruct (H Ho) as (_ & Hl & _).
    change (count_id (Py.strip (delete_id i)) (ledger one_session_state))
      with 1%nat in Hl.
    change (List.length (rows (ledger one_session_state))) with 1%nat in Hl.
    lia.
  - pose proof (delete_session_rerun text_duration_state j eq_refl eq_refl
                  eq_refl ltac:(repeat constructor) eq_refl
                  ltac:(discriminate)) as H.
    cbv zeta in H. destruct H as [_ H].
    destruct (H TypeError ltac:(vm_compute; reflexivity)) as (Ho & _ & Hc).
    split; [exact Ho | exact (Hc "x1")].
Defined.
